(** * Obsidian Decision Engine: the deterministic core, embedded and verified

    A shallow embedding of the calculation engine of the repository
    (debt payoff simulator and affordability engine) together with the
    theorems that settle the specification's claims about it.

    Conventions of the embedding.

    - A JavaScript [number] that holds an amount, a rate or a ratio is an
      exact rational [Q]; [+ - * /] are the rational operations and
      comparisons are the rational order.  Binary floating point rounding
      and the 20 significant digits of Decimal.js are not modelled: the
      only roundings of the model are the ones the source writes out
      ([toDecimalPlaces(2)] and [Math.round(x * 100) / 100]).
    - A native division [a / b] is [Qdiv]; JavaScript does not raise on a
      zero denominator.  Where the source guards a division, the guard is
      part of the model.  The divisions it leaves unguarded (the
      amortization formula, a division by a term in months) have a non-zero
      denominator on validated input, see
      [amortization_denominator_positive].  The helper [divide] of
      utils/money.ts throws on a zero divisor: it returns [option Q], and
      the functions that call it live in the [option] monad.
    - Month counters and term lengths are integers ([nat], [positive]).
    - Arrays are lists, [Map<string, number>] is [gmap string Q], optional
      fields are [option]s, string enums are inductive types.
    - The driver mutates its array of debt states in place; the model
      threads the array through the loop.
    - Text rendering (explanations, formatted money, dates from the wall
      clock) is left out: no computation reads it back.  Where a function
      returns rendered sentences beside data, the model returns the data
      the sentences are rendered from.
    - The validators and the idempotency cache that the request handlers
      call before and after the core are embedded too; the cache reads the
      wall clock, which the model passes in as an argument. *)

From Stdlib Require Import QArith Qround Qminmax Qpower Qabs Lqa ZArith Lia.
From stdpp Require Import base list strings gmap pretty sorting.

Local Open Scope Q_scope.

(* ===================================================================== *)
(** * Numbers: comparisons and the roundings of the source               *)
(* ===================================================================== *)

Module Num.

(** [x <= y], [x < y] and [x === y] on numbers, as booleans. *)
Definition leb (x y : Q) : bool := Qle_bool x y.
Definition ltb (x y : Q) : bool := negb (Qle_bool y x).
Definition eqb (x y : Q) : bool := Qeq_bool x y.

(** [Math.round(x * 100) / 100]: [Math.round] takes the nearest integer,
    a half going up. *)
Definition mathRound (x : Q) : Z := Qfloor (x + (1 # 2)).
Definition roundCents (x : Q) : Q := Qred (inject_Z (mathRound (x * 100)) / 100).

(** [Math.max(...xs)] and [Math.min(...xs)] over a list that the caller
    has checked to be non-empty. *)
Definition maxList (xs : list Q) : Q :=
  match xs with
  | [] => 0
  | x :: rest => fold_left Qmax rest x
  end.
Definition minList (xs : list Q) : Q :=
  match xs with
  | [] => 0
  | x :: rest => fold_left Qmin rest x
  end.

(** [Math.max(0, Math.min(1, x))]. *)
Definition clamp01 (x : Q) : Q := Qmax 0 (Qmin 1 x).

(** [xs.reduce((sum, x) => sum + x, 0)]. *)
Definition sumList (xs : list Q) : Q := fold_left Qplus xs 0.

End Num.

Infix "<=?" := Num.leb (at level 70, no associativity) : Q_scope.
Infix "<?" := Num.ltb (at level 70, no associativity) : Q_scope.
Infix "=?" := Num.eqb (at level 70, no associativity) : Q_scope.

(* ===================================================================== *)
(** * utils/money.ts                                                      *)
(* ===================================================================== *)

Module Money.

(** [money(dollars)]: a Decimal holding the same amount. *)
Definition money (dollars : Q) : Q := dollars.

(** [toDisplayDollars(amount) = amount.toDecimalPlaces(2).toNumber()]
    under the configured rounding ROUND_HALF_UP: to the nearest cent, a
    half going away from zero. *)
Definition toDisplayDollars (amount : Q) : Q :=
  if 0 <=? amount
  then Qred (inject_Z (Qfloor (amount * 100 + (1 # 2))) / 100)
  else Qred (- (inject_Z (Qfloor (- amount * 100 + (1 # 2))) / 100)).

(** [add(...amounts)], [subtract(from, ...amounts)], [sum(amounts)]:
    folds of Decimal [plus] and [minus]. *)
Definition add (amounts : list Q) : Q := fold_left Qplus amounts (money 0).
Definition subtract (from : Q) (amounts : list Q) : Q := fold_left Qminus amounts from.
Definition sum (amounts : list Q) : Q := fold_left Qplus amounts (money 0).

(** [multiply(amount, factor)]. *)
Definition multiply (amount factor : Q) : Q := amount * factor.

(** [divide(amount, divisor)]: throws 'Cannot divide by zero' when the
    divisor is zero; [None] is the throw. *)
Definition divide (amount divisor : Q) : option Q :=
  if divisor =? 0 then None else Some (amount / divisor).

(** [isZero(amount)]. *)
Definition isZero (amount : Q) : bool := amount =? 0.

(** [dollarsToCents(dollars) = new Decimal(dollars).times(100).round()]:
    [round()] takes the nearest whole number under ROUND_HALF_UP, a half
    going away from zero.  [centsToDollars(cents)] divides by 100. *)
Definition dollarsToCents (dollars : Q) : Z :=
  if 0 <=? dollars then Qfloor (dollars * 100 + (1 # 2))
  else (- Qfloor (- dollars * 100 + (1 # 2)))%Z.
Definition centsToDollars (cents : Q) : Q := cents / 100.

(** The rounding modes of Decimal.js that the module names: ROUND_UP is
    away from zero, ROUND_DOWN is towards zero, ROUND_HALF_UP is to the
    nearest with a half going away from zero.  All three round the
    magnitude and keep the sign. *)
Inductive Rounding : Type := ROUND_UP | ROUND_DOWN | ROUND_HALF_UP.

Definition roundMagnitude (mode : Rounding) (x : Q) : Z :=
  match mode with
  | ROUND_UP => Qceiling x
  | ROUND_DOWN => Qfloor x
  | ROUND_HALF_UP => Qfloor (x + (1 # 2))
  end.

(** [amount.toDecimalPlaces(2, mode)]. *)
Definition toDecimalPlaces2 (mode : Rounding) (amount : Q) : Q :=
  if 0 <=? amount
  then Qred (inject_Z (roundMagnitude mode (amount * 100)) / 100)
  else Qred (- (inject_Z (roundMagnitude mode (- amount * 100)) / 100)).

(** [round(amount)], [ceil(amount)], [floor(amount)]. *)
Definition round (amount : Q) : Q := toDecimalPlaces2 ROUND_HALF_UP amount.
Definition ceil (amount : Q) : Q := toDecimalPlaces2 ROUND_UP amount.
Definition floor (amount : Q) : Q := toDecimalPlaces2 ROUND_DOWN amount.

(** [percentage(amount, percent)] and [asPercentage(part, whole)]. *)
Definition percentage (amount percent : Q) : Q := amount * percent / 100.
Definition asPercentage (part whole : Q) : Q :=
  if isZero whole then 0 else toDisplayDollars (part / whole * 100).

(** [aprToMonthlyRate(apr)] and [monthlyInterest(balance, apr)]. *)
Definition aprToMonthlyRate (apr : Q) : Q := apr / 100 / 12.
Definition monthlyInterest (balance apr : Q) : Q := balance * aprToMonthlyRate apr.

(** [max(a, b)], [min(a, b)], [compare(a, b)], [nonNegative(amount)]. *)
Definition max (a b : Q) : Q := Qmax a b.
Definition min (a b : Q) : Q := Qmin a b.
Definition compare (a b : Q) : Z :=
  if a <? b then (-1)%Z else if a =? b then 0%Z else 1%Z.
Definition nonNegative (amount : Q) : Q := Qmax amount (money 0).

(** [average(amounts)]: [divide] is called with the length of a list that
    is not empty. *)
Definition average (amounts : list Q) : option Q :=
  match amounts with
  | [] => Some (money 0)
  | _ => divide (sum amounts) (inject_Z (Z.of_nat (length amounts)))
  end.

End Money.

(* ===================================================================== *)
(** * config/thresholds.ts (the values without an environment override
      are the literals; the overridable ones are their defaults)          *)
(* ===================================================================== *)

Module Thresholds.
Definition EMERGENCY_FUND_MINIMUM_MONTHS : Q := 3.
Definition DEBT_TO_INCOME_GOOD : Q := 25 # 100.
Definition DEBT_TO_INCOME_ACCEPTABLE : Q := 35 # 100.
Definition CREDIT_UTILIZATION_GOOD : Q := 30 # 100.
Definition AFFORDABILITY_MAX_BUFFER_CONSUMPTION : Q := 25 # 100.
Definition AFFORDABILITY_SMALL_PURCHASE_THRESHOLD : Q := 5 # 100.
Definition AFFORDABILITY_LARGE_PURCHASE_THRESHOLD : Q := 25 # 100.
Definition AFFORDABILITY_MAJOR_PURCHASE_THRESHOLD : Q := 50 # 100.
Definition AFFORDABILITY_MINIMUM_POST_PURCHASE_BUFFER_MONTHS : Q := 1.
Definition DEBT_PAYOFF_MAX_SIMULATION_MONTHS : nat := 360.
Definition DEBT_PAYOFF_MIN_CREDIT_CARD_PAYMENT_PERCENT : Q := 2 # 100.
Definition DEBT_PAYOFF_MIN_PAYMENT_FLOOR : Q := 25.
End Thresholds.

(* ===================================================================== *)
(** * models/types.ts and core/debt/debtTypes.ts                          *)
(* ===================================================================== *)

Inductive DebtType : Type :=
  | credit_card | personal_loan | auto_loan | student_loan | mortgage
  | medical_debt | payday_loan | buy_now_pay_later | other.

Definition DebtType_to_string (t : DebtType) : string :=
  match t with
  | credit_card => "credit_card"
  | personal_loan => "personal_loan"
  | auto_loan => "auto_loan"
  | student_loan => "student_loan"
  | mortgage => "mortgage"
  | medical_debt => "medical_debt"
  | payday_loan => "payday_loan"
  | buy_now_pay_later => "buy_now_pay_later"
  | other => "other"
  end.

(** [DebtAccount]: the promotional-rate fields are read by no function of
    the core and are left out. *)
Record DebtAccount : Type := mkDebtAccount {
  da_id : option string;
  da_type : DebtType;
  da_balance : Q;
  da_apr : Q;
  da_minimum_payment : option Q;
  da_credit_limit : option Q;
  da_name : option string
}.

Inductive DebtStrategy : Type := avalanche | snowball | hybrid | minimum_only.

Global Instance DebtStrategy_eq_dec : EqDecision DebtStrategy.
Proof. solve_decision. Defined.

(** [DebtState]: the fields [id, name, type, balance, apr, minimumPayment,
    creditLimit, isPaidOff]. *)
Record DebtState : Type := mkDebtState {
  ds_id : string;
  ds_name : string;
  ds_type : DebtType;
  ds_balance : Q;
  ds_apr : Q;
  ds_minimumPayment : Q;
  ds_creditLimit : option Q;
  ds_isPaidOff : bool
}.

(** [DebtPayment]: [debtId, debtName, paymentAmount, principalPaid,
    interestPaid, remainingBalance]. *)
Record DebtPayment : Type := mkDebtPayment {
  dp_debtId : string;
  dp_debtName : string;
  dp_paymentAmount : Q;
  dp_principalPaid : Q;
  dp_interestPaid : Q;
  dp_remainingBalance : Q
}.

(** [MonthlySimulationState], without the formatted [date]. *)
Record MonthlySimulationState : Type := mkMonthlySimulationState {
  ms_month : nat;
  ms_debts : list DebtState;
  ms_payments : list DebtPayment;
  ms_totalPayment : Q;
  ms_totalInterestPaid : Q;
  ms_totalPrincipalPaid : Q;
  ms_totalRemainingDebt : Q;
  ms_debtsPaidOffThisMonth : list string;
  ms_extraPaymentApplied : Q
}.

(** An entry of [StrategySimulationResult['payoffOrder']]. *)
Record PayoffEntry : Type := mkPayoffEntry {
  po_debtId : string;
  po_debtName : string;
  po_monthsToPayoff : nat;
  po_interestPaid : Q;
  po_originalBalance : Q
}.

Record StrategySimulationResult : Type := mkStrategySimulationResult {
  sr_strategy : DebtStrategy;
  sr_totalMonths : nat;
  sr_totalInterestPaid : Q;
  sr_totalAmountPaid : Q;
  sr_monthlyPaymentRequired : Q;
  sr_schedule : list MonthlySimulationState;
  sr_payoffOrder : list PayoffEntry
}.

(** [StrategyComparison], without the rendered [recommendationReason]. *)
Record StrategyComparison : Type := mkStrategyComparison {
  sc_strategies : list StrategySimulationResult;
  sc_recommendedStrategy : DebtStrategy;
  sc_savingsVsMinimum : Q;
  sc_savingsVsWorst : Q;
  sc_timeSavedMonths : Z
}.

(** [!d.isPaidOff && d.balance > 0]: the test every sorter and the driver
    use for a debt that is still active. *)
Definition isActive (d : DebtState) : bool :=
  negb (ds_isPaidOff d) && (0 <? ds_balance d).

(* ===================================================================== *)
(** * core/debt/payoffStrategies.ts                                       *)
(* ===================================================================== *)

Module PayoffStrategies.

Section Sort.
Context {A : Type} (cmp : A -> A -> Q).

(** [Array.prototype.sort(cmp)] is stable: of two elements, the later
    one moves in front only when the comparator is positive on (earlier,
    later).  For the comparators below, which order by keys, every
    stable sort returns this list. *)
Fixpoint insertSorted (x : A) (l : list A) : list A :=
  match l with
  | [] => [x]
  | y :: rest => if 0 <? cmp x y then y :: insertSorted x rest else x :: l
  end.

Definition jsSort (l : list A) : list A := foldr insertSorted [] l.
End Sort.

Definition avalancheCmp (a b : DebtState) : Q :=
  if negb (ds_apr b =? ds_apr a) then ds_apr b - ds_apr a
  else ds_balance a - ds_balance b.

Definition snowballCmp (a b : DebtState) : Q :=
  if negb (ds_balance a =? ds_balance b) then ds_balance a - ds_balance b
  else ds_apr b - ds_apr a.

Definition sortByAvalanche (debts : list DebtState) : list DebtState :=
  jsSort avalancheCmp (filter (fun d => isActive d = true) debts).

Definition sortBySnowball (debts : list DebtState) : list DebtState :=
  jsSort snowballCmp (filter (fun d => isActive d = true) debts).

Definition APR_WEIGHT : Q := 6 # 10.
Definition BALANCE_WEIGHT : Q := 4 # 10.

Definition sortByHybrid (debts : list DebtState) : list DebtState :=
  let activeDebts := filter (fun d => isActive d = true) debts in
  match activeDebts with
  | [] => []
  | _ =>
    let maxAPR := Num.maxList (map ds_apr activeDebts) in
    let minAPR := Num.minList (map ds_apr activeDebts) in
    let maxBalance := Num.maxList (map ds_balance activeDebts) in
    let minBalance := Num.minList (map ds_balance activeDebts) in
    let scoredDebts :=
      map (fun debt =>
             let normalizedAPR :=
               if maxAPR =? minAPR then 1
               else (ds_apr debt - minAPR) / (maxAPR - minAPR) in
             let normalizedBalance :=
               if maxBalance =? minBalance then 1
               else 1 - (ds_balance debt - minBalance) / (maxBalance - minBalance) in
             (debt, APR_WEIGHT * normalizedAPR + BALANCE_WEIGHT * normalizedBalance))
          activeDebts in
    map fst (jsSort (fun a b => snd b - snd a) scoredDebts)
  end.

Definition sortByMinimumOnly (debts : list DebtState) : list DebtState :=
  filter (fun d => isActive d = true) debts.

Definition getStrategySorter (strategy : DebtStrategy)
  : list DebtState -> list DebtState :=
  match strategy with
  | avalanche => sortByAvalanche
  | snowball => sortBySnowball
  | hybrid => sortByHybrid
  | minimum_only => sortByMinimumOnly
  end.

(** The [for (const debt of sortedDebts)] loop of [allocateExtraPayments],
    with its two [break]s and its [continue]. *)
Fixpoint allocateLoop (sortedDebts : list DebtState) (remainingExtra : Q)
         (allocations : gmap string Q) : gmap string Q :=
  match sortedDebts with
  | [] => allocations
  | debt :: rest =>
    if remainingExtra <=? 0 then allocations
    else if ds_isPaidOff debt || (ds_balance debt <=? 0)
    then allocateLoop rest remainingExtra allocations
    else
      let amountToApply := Qmin remainingExtra (ds_balance debt) in
      let allocations' := <[ds_id debt := amountToApply]> allocations in
      if amountToApply <? ds_balance debt then allocations'
      else allocateLoop rest (remainingExtra - amountToApply) allocations'
  end.

Definition allocateExtraPayments (debts sortedDebts : list DebtState)
           (extraPayment freedUpMinimums : Q) : gmap string Q :=
  let allocations :=
    fold_left (fun m d => <[ds_id d := 0]> m) debts (∅ : gmap string Q) in
  allocateLoop sortedDebts (extraPayment + freedUpMinimums) allocations.

End PayoffStrategies.

(* ===================================================================== *)
(** * core/debt/debtSimulator.ts                                          *)
(* ===================================================================== *)

Module DebtSimulator.

Import PayoffStrategies.

(** [calculateAmortizedPayment(principal, annualRate, termMonths)]. *)
Definition calculateAmortizedPayment (principal annualRate : Q) (termMonths : positive) : Q :=
  if principal <=? 0 then 0
  else
    let monthlyRate := annualRate / 100 / 12 in
    if monthlyRate =? 0 then principal / inject_Z (Z.pos termMonths)
    else
      let payment :=
        (principal * (monthlyRate * (1 + monthlyRate) ^ (Z.pos termMonths)))
        / ((1 + monthlyRate) ^ (Z.pos termMonths) - 1) in
      Num.roundCents payment.

(** [calculateMinimumPayment(debt)] of the simulator. *)
Definition calculateMinimumPayment (debt : DebtAccount) : Q :=
  match da_type debt with
  | credit_card =>
    Qmax (Qmax (da_balance debt * Thresholds.DEBT_PAYOFF_MIN_CREDIT_CARD_PAYMENT_PERCENT)
               Thresholds.DEBT_PAYOFF_MIN_PAYMENT_FLOOR)
         (da_balance debt)
  | mortgage => calculateAmortizedPayment (da_balance debt) (da_apr debt) 360
  | auto_loan | personal_loan => calculateAmortizedPayment (da_balance debt) (da_apr debt) 60
  | student_loan => calculateAmortizedPayment (da_balance debt) (da_apr debt) 120
  | _ => Qmax (da_balance debt * (3 # 100)) Thresholds.DEBT_PAYOFF_MIN_PAYMENT_FLOOR
  end.

(** [initializeDebtState(debt, index)]. *)
Definition initializeDebtState (debt : DebtAccount) (index : nat) : DebtState :=
  let minimumPayment :=
    match da_minimum_payment debt with
    | Some m => m
    | None => calculateMinimumPayment debt
    end in
  {| ds_id := default ("debt_" +:+ pretty index) (da_id debt);
     ds_name := default (DebtType_to_string (da_type debt) +:+ "_" +:+ pretty index)
                        (da_name debt);
     ds_type := da_type debt;
     ds_balance := da_balance debt;
     ds_apr := da_apr debt;
     ds_minimumPayment := minimumPayment;
     ds_creditLimit := da_credit_limit debt;
     ds_isPaidOff := da_balance debt <=? 0 |}.

(** The local variables that the loop of [simulateMonth] updates. *)
Record MonthAcc : Type := mkMonthAcc {
  payments : list DebtPayment;
  updatedDebts : list DebtState;
  debtsPaidOff : list string;
  totalPaymentThisMonth : Q;
  totalInterestThisMonth : Q;
  totalPrincipalThisMonth : Q;
  newFreedUpMinimums : Q
}.

Definition emptyMonthAcc : MonthAcc :=
  {| payments := []; updatedDebts := []; debtsPaidOff := [];
     totalPaymentThisMonth := 0; totalInterestThisMonth := 0;
     totalPrincipalThisMonth := 0; newFreedUpMinimums := 0 |}.

(** The payment that one month records for a debt that is still active,
    from the extra allocated to it: the straight-line part of the loop
    body, from [monthlyRate] to the pushed [DebtPayment]. *)
Definition payDebt (debt : DebtState) (extraForThisDebt : Q) : DebtPayment * bool :=
  let monthlyRate := ds_apr debt / 100 / 12 in
  let interestCharge :=
    Money.toDisplayDollars (Money.multiply (ds_balance debt) monthlyRate) in
  let desiredPayment := ds_minimumPayment debt + extraForThisDebt in
  let balanceWithInterest :=
    Money.toDisplayDollars (Money.add [ds_balance debt; interestCharge]) in
  let actualPayment := Qmin desiredPayment balanceWithInterest in
  let interestPaid := Qmin interestCharge actualPayment in
  let principalPaid := actualPayment - interestPaid in
  let newBalance :=
    Qmax 0 (Money.toDisplayDollars (Money.subtract balanceWithInterest [actualPayment])) in
  let isPaidOff := newBalance <=? (1 # 100) in
  ({| dp_debtId := ds_id debt;
      dp_debtName := ds_name debt;
      dp_paymentAmount := actualPayment;
      dp_principalPaid := principalPaid;
      dp_interestPaid := interestPaid;
      dp_remainingBalance := if isPaidOff then 0 else newBalance |},
   isPaidOff).

(** One turn of [for (const debt of debts)] in [simulateMonth]. *)
Definition processDebt (extraAllocations : gmap string Q)
           (acc : MonthAcc) (debt : DebtState) : MonthAcc :=
  if ds_isPaidOff debt || (ds_balance debt <=? 0)
  then
    {| payments := payments acc;
       updatedDebts :=
         updatedDebts acc ++
         [ {| ds_id := ds_id debt; ds_name := ds_name debt; ds_type := ds_type debt;
              ds_balance := 0; ds_apr := ds_apr debt;
              ds_minimumPayment := ds_minimumPayment debt;
              ds_creditLimit := ds_creditLimit debt; ds_isPaidOff := true |} ];
       debtsPaidOff := debtsPaidOff acc;
       totalPaymentThisMonth := totalPaymentThisMonth acc;
       totalInterestThisMonth := totalInterestThisMonth acc;
       totalPrincipalThisMonth := totalPrincipalThisMonth acc;
       newFreedUpMinimums := newFreedUpMinimums acc |}
  else
    let extraForThisDebt := default 0 (extraAllocations !! ds_id debt) in
    let '(payment, isPaidOff) := payDebt debt extraForThisDebt in
    {| payments := payments acc ++ [payment];
       updatedDebts :=
         updatedDebts acc ++
         [ {| ds_id := ds_id debt; ds_name := ds_name debt; ds_type := ds_type debt;
              ds_balance := dp_remainingBalance payment; ds_apr := ds_apr debt;
              ds_minimumPayment := ds_minimumPayment debt;
              ds_creditLimit := ds_creditLimit debt; ds_isPaidOff := isPaidOff |} ];
       debtsPaidOff :=
         if isPaidOff then debtsPaidOff acc ++ [ds_id debt] else debtsPaidOff acc;
       totalPaymentThisMonth := totalPaymentThisMonth acc + dp_paymentAmount payment;
       totalInterestThisMonth := totalInterestThisMonth acc + dp_interestPaid payment;
       totalPrincipalThisMonth := totalPrincipalThisMonth acc + dp_principalPaid payment;
       newFreedUpMinimums :=
         if isPaidOff then newFreedUpMinimums acc + ds_minimumPayment debt
         else newFreedUpMinimums acc |}.

(** [simulateMonth(debts, extraPayment, strategy, month, startDate,
    totalInterestSoFar, freedUpMinimums)].  The caller's array becomes
    [ms_debts] of the result ([debts.length = 0; debts.push(...updatedDebts)]). *)
Definition simulateMonth (debts : list DebtState) (extraPayment : Q)
           (strategy : DebtStrategy) (month : nat)
           (totalInterestSoFar freedUpMinimums : Q) : MonthlySimulationState :=
  let sorter := getStrategySorter strategy in
  let sortedDebts := sorter debts in
  let extraAllocations :=
    allocateExtraPayments debts sortedDebts extraPayment freedUpMinimums in
  let acc := fold_left (processDebt extraAllocations) debts emptyMonthAcc in
  let totalRemainingDebt :=
    fold_left (fun sum d => sum + ds_balance d) (updatedDebts acc) 0 in
  {| ms_month := month;
     ms_debts := updatedDebts acc;
     ms_payments := payments acc;
     ms_totalPayment := Num.roundCents (totalPaymentThisMonth acc);
     ms_totalInterestPaid :=
       Num.roundCents (totalInterestSoFar + totalInterestThisMonth acc);
     ms_totalPrincipalPaid := Num.roundCents (totalPrincipalThisMonth acc);
     ms_totalRemainingDebt := Num.roundCents totalRemainingDebt;
     ms_debtsPaidOffThisMonth := debtsPaidOff acc;
     ms_extraPaymentApplied := extraPayment + freedUpMinimums |}.

(** The variables of [simulateStrategy] that its loop updates. *)
Record Driver : Type := mkDriver {
  debtStates : list DebtState;
  schedule : list MonthlySimulationState;
  payoffOrder : list PayoffEntry;
  debtInterestPaid : gmap string Q;
  totalInterestPaid : Q;
  totalAmountPaid : Q;
  freedUpMinimums : Q;
  month : nat
}.

(** [debtStates.some((d) => !d.isPaidOff && d.balance > 0)]. *)
Definition hasRemainingDebt (debtStates : list DebtState) : bool :=
  existsb isActive debtStates.

(** [monthState.payments.forEach(...)]: interest tracked per debt id. *)
Definition trackInterest (m : gmap string Q) (p : DebtPayment) : gmap string Q :=
  <[dp_debtId p := default 0 (m !! dp_debtId p) + dp_interestPaid p]> m.

(** One turn of [monthState.debtsPaidOffThisMonth.forEach(...)]: the two
    variables it updates are [freedUpMinimums] and [payoffOrder]. *)
Definition recordPayoff (debtStates : list DebtState)
           (originalBalances : gmap string (Q * string))
           (debtInterestPaid : gmap string Q) (month : nat)
           (st : Q * list PayoffEntry) (debtId : string) : Q * list PayoffEntry :=
  match find (fun d => bool_decide (ds_id d = debtId)) debtStates with
  | Some debt =>
    let original := originalBalances !! debtId in
    (fst st + ds_minimumPayment debt,
     snd st ++
     [ {| po_debtId := debtId;
          po_debtName := from_option snd debtId original;
          po_monthsToPayoff := month;
          po_interestPaid := default 0 (debtInterestPaid !! debtId);
          po_originalBalance := from_option fst 0 original |} ])
  | None => st
  end.

(** The body of [while (month < maxMonths)] after the [break] test. *)
Definition driverStep (strategy : DebtStrategy) (extraMonthlyPayment : Q)
           (originalBalances : gmap string (Q * string)) (st : Driver) : Driver :=
  let month' := S (month st) in
  let monthState :=
    simulateMonth (debtStates st) extraMonthlyPayment strategy month'
                  (totalInterestPaid st) (freedUpMinimums st) in
  let debtInterestPaid' :=
    fold_left trackInterest (ms_payments monthState) (debtInterestPaid st) in
  let '(freed', payoffOrder') :=
    fold_left (recordPayoff (ms_debts monthState) originalBalances debtInterestPaid' month')
              (ms_debtsPaidOffThisMonth monthState)
              (freedUpMinimums st, payoffOrder st) in
  {| debtStates := ms_debts monthState;
     schedule := schedule st ++ [monthState];
     payoffOrder := payoffOrder';
     debtInterestPaid := debtInterestPaid';
     totalInterestPaid := ms_totalInterestPaid monthState;
     totalAmountPaid := totalAmountPaid st + ms_totalPayment monthState;
     freedUpMinimums := freed';
     month := month' |}.

(** [while (month < maxMonths) { if (!hasRemainingDebt) break; ... }]: the
    counter starts at 0 and goes up by one each turn, so [maxMonths - month]
    turns remain at most; [remaining] counts them down. *)
Fixpoint driverLoop (strategy : DebtStrategy) (extraMonthlyPayment : Q)
         (originalBalances : gmap string (Q * string))
         (remaining : nat) (st : Driver) : Driver :=
  match remaining with
  | O => st
  | S remaining' =>
    if negb (hasRemainingDebt (debtStates st)) then st
    else driverLoop strategy extraMonthlyPayment originalBalances remaining'
                    (driverStep strategy extraMonthlyPayment originalBalances st)
  end.

(** The closing [debtStates.forEach] of [simulateStrategy]: debts not paid
    off in time. *)
Definition recordUnpaid (originalBalances : gmap string (Q * string))
           (debtInterestPaid : gmap string Q) (maxMonths : nat)
           (order : list PayoffEntry) (d : DebtState) : list PayoffEntry :=
  if isActive d
  then order ++
       [ {| po_debtId := ds_id d;
            po_debtName := ds_name d;
            po_monthsToPayoff := maxMonths + 999;
            po_interestPaid := default 0 (debtInterestPaid !! ds_id d);
            po_originalBalance := from_option fst 0 (originalBalances !! ds_id d) |} ]
  else order.

Definition initialDriver (debtStates : list DebtState) : Driver :=
  {| debtStates := debtStates;
     schedule := [];
     payoffOrder := [];
     debtInterestPaid :=
       fold_left (fun m d => <[ds_id d := 0]> m) debtStates (∅ : gmap string Q);
     totalInterestPaid := 0;
     totalAmountPaid := 0;
     freedUpMinimums := 0;
     month := 0 |}.

(** [simulateStrategy(debts, strategy, extraMonthlyPayment, maxMonths)];
    a caller that leaves [maxMonths] out passes
    [Thresholds.DEBT_PAYOFF_MAX_SIMULATION_MONTHS]. *)
Definition simulateStrategy (debts : list DebtAccount) (strategy : DebtStrategy)
           (extraMonthlyPayment : Q) (maxMonths : nat) : StrategySimulationResult :=
  let debtStates0 := imap (fun i d => initializeDebtState d i) debts in
  let originalBalances :=
    fold_left (fun m d => <[ds_id d := (ds_balance d, ds_name d)]> m) debtStates0
              (∅ : gmap string (Q * string)) in
  let totalMinimumPayment :=
    fold_left (fun sum d => sum + ds_minimumPayment d) debtStates0 0 in
  let final :=
    driverLoop strategy extraMonthlyPayment originalBalances maxMonths
               (initialDriver debtStates0) in
  let payoffOrder' :=
    fold_left (recordUnpaid originalBalances (debtInterestPaid final) maxMonths)
              (debtStates final) (payoffOrder final) in
  {| sr_strategy := strategy;
     sr_totalMonths := month final;
     sr_totalInterestPaid := Num.roundCents (totalInterestPaid final);
     sr_totalAmountPaid := Num.roundCents (totalAmountPaid final);
     sr_monthlyPaymentRequired := totalMinimumPayment + extraMonthlyPayment;
     sr_schedule := schedule final;
     sr_payoffOrder := payoffOrder' |}.

(** [results.find((r) => r.strategy === s)]. *)
Definition findStrategy (s : DebtStrategy) (results : list StrategySimulationResult)
  : option StrategySimulationResult :=
  find (fun r => bool_decide (sr_strategy r = s)) results.

(** [hasQuickSnowballWins] of [compareStrategies]. *)
Definition hasQuickSnowballWins (snowballResult avalancheResult : option StrategySimulationResult)
  : bool :=
  match snowballResult, avalancheResult with
  | Some s, Some _ =>
    match sr_payoffOrder s with
    | [] => false
    | first :: _ => (po_monthsToPayoff first <=? 3)%nat
    end
  | _, _ => false
  end.

(** [interestDifferential] of [compareStrategies]. *)
Definition interestDifferential (avalancheResult snowballResult : option StrategySimulationResult)
  : Q :=
  match avalancheResult, snowballResult with
  | Some a, Some s => sr_totalInterestPaid s - sr_totalInterestPaid a
  | _, _ => 0
  end.

(** [compareStrategies(debts, extraMonthlyPayment, maxMonths)], with the
    same default for [maxMonths]. *)
Definition compareStrategies (debts : list DebtAccount) (extraMonthlyPayment : Q)
           (maxMonths : nat) : StrategyComparison :=
  let strategies := [avalanche; snowball; hybrid; minimum_only] in
  let results :=
    map (fun strategy =>
           simulateStrategy debts strategy
             (if bool_decide (strategy = minimum_only) then 0 else extraMonthlyPayment)
             maxMonths)
        strategies in
  let minInterest := Num.minList (map sr_totalInterestPaid results) in
  let maxInterest := Num.maxList (map sr_totalInterestPaid results) in
  let minMonths :=
    match map sr_totalMonths results with
    | [] => O
    | m :: rest => fold_left Nat.min rest m
    end in
  let minimumOnlyResult := findStrategy minimum_only results in
  let savingsVsMinimum :=
    match minimumOnlyResult with
    | Some r => sr_totalInterestPaid r - minInterest
    | None => 0
    end in
  let avalancheResult := findStrategy avalanche results in
  let snowballResult := findStrategy snowball results in
  let quick := hasQuickSnowballWins snowballResult avalancheResult in
  let differential := interestDifferential avalancheResult snowballResult in
  let recommendedStrategy :=
    if (500 <? differential) || negb quick then avalanche
    else if quick && (differential <? 200) then snowball
    else hybrid in
  let timeSavedMonths :=
    match minimumOnlyResult with
    | Some r => (Z.of_nat (sr_totalMonths r) - Z.of_nat minMonths)%Z
    | None => 0%Z
    end in
  {| sc_strategies := results;
     sc_recommendedStrategy := recommendedStrategy;
     sc_savingsVsMinimum := Num.roundCents savingsVsMinimum;
     sc_savingsVsWorst := Num.roundCents (maxInterest - minInterest);
     sc_timeSavedMonths := timeSavedMonths |}.

(** The two debts that [DebtInsights] singles out:
    [{ id, name, apr, balance }] and [{ id, name, balance }]. *)
Record HighestAPRDebt : Type := mkHighestAPRDebt {
  ha_id : string;
  ha_name : string;
  ha_apr : Q;
  ha_balance : Q
}.

Record LowestBalanceDebt : Type := mkLowestBalanceDebt {
  lb_id : string;
  lb_name : string;
  lb_balance : Q
}.

(** [DebtInsights], without the rendered [debtFreeDate]; [di_quickWins]
    holds the payoff entries whose sentences the source renders. *)
Record DebtInsights : Type := mkDebtInsights {
  di_totalDebt : Q;
  di_averageAPR : Q;
  di_highestAPRDebt : option HighestAPRDebt;
  di_lowestBalanceDebt : option LowestBalanceDebt;
  di_quickWins : list PayoffEntry;
  di_potentialInterestSavings : Q;
  di_monthlyMinimumRequired : Q
}.

(** [xs.reduce((best, d) => (better(d, best) ? d : best))] on a list that
    may be empty: [null] when it is. *)
Definition reduceBest (better : DebtAccount -> DebtAccount -> bool)
           (xs : list DebtAccount) : option DebtAccount :=
  match xs with
  | [] => None
  | first :: rest => Some (fold_left (fun best d => if better d best then d else best) rest first)
  end.

(** [generateDebtInsights(debts, comparison)]. *)
Definition generateDebtInsights (debts : list DebtAccount) (comparison : StrategyComparison)
  : DebtInsights :=
  let activeDebts := filter (fun d => (0 <? da_balance d) = true) debts in
  let totalDebt := fold_left (fun sum d => sum + da_balance d) activeDebts 0 in
  let weightedAPRSum :=
    fold_left (fun sum d => sum + da_apr d * da_balance d) activeDebts 0 in
  let averageAPR := if 0 <? totalDebt then weightedAPRSum / totalDebt else 0 in
  let highestAPRDebt := reduceBest (fun d max => da_apr max <? da_apr d) activeDebts in
  let lowestBalanceDebt :=
    reduceBest (fun d min => da_balance d <? da_balance min) activeDebts in
  let recommendedResult := findStrategy (sc_recommendedStrategy comparison)
                                        (sc_strategies comparison) in
  let quickWins :=
    match recommendedResult with
    | Some r => filter (fun p => (po_monthsToPayoff p <= 3)%nat) (sr_payoffOrder r)
    | None => []
    end in
  let monthlyMinimumRequired :=
    fold_left (fun sum d => sum + default (calculateMinimumPayment d) (da_minimum_payment d))
              activeDebts 0 in
  {| di_totalDebt := Num.roundCents totalDebt;
     di_averageAPR := Num.roundCents averageAPR;
     di_highestAPRDebt :=
       (fun d => {| ha_id := default "unknown" (da_id d);
                    ha_name := default (DebtType_to_string (da_type d)) (da_name d);
                    ha_apr := da_apr d;
                    ha_balance := da_balance d |}) <$> highestAPRDebt;
     di_lowestBalanceDebt :=
       (fun d => {| lb_id := default "unknown" (da_id d);
                    lb_name := default (DebtType_to_string (da_type d)) (da_name d);
                    lb_balance := da_balance d |}) <$> lowestBalanceDebt;
     di_quickWins := quickWins;
     di_potentialInterestSavings := sc_savingsVsMinimum comparison;
     di_monthlyMinimumRequired := Num.roundCents monthlyMinimumRequired |}.

End DebtSimulator.

(* ===================================================================== *)
(** * core/affordability/affordTypes.ts and the request types             *)
(* ===================================================================== *)

Module AffordTypes.

Inductive PaymentMethod : Type :=
  | pm_cash | pm_debit | pm_credit_card | pm_buy_now_pay_later
  | pm_financing | pm_savings | pm_mixed.

(** [purchase.financing_terms]: [term_months] is a positive integer. *)
Record FinancingTerms : Type := mkFinancingTerms {
  ft_apr : Q;
  ft_term_months : positive;
  ft_down_payment : option Q
}.

(** [PurchaseRequest]: the fields the core reads. *)
Record PurchaseRequest : Type := mkPurchaseRequest {
  amount : Q;
  payment_method : PaymentMethod;
  financing_terms : option FinancingTerms
}.

(** [UserFinancialProfile]: the fields the core reads. *)
Record UserFinancialProfile : Type := mkUserFinancialProfile {
  monthly_income : Q;
  monthly_fixed_expenses : Q;
  cash_balance : Q;
  savings_balance : option Q;
  emergency_fund : option Q;
  debts : list DebtAccount
}.

Record AffordabilityMetrics : Type := mkAffordabilityMetrics {
  monthlyIncome : Q;
  monthlyExpenses : Q;
  monthlyDebtPayments : Q;
  monthlyCashflow : Q;
  liquidAssets : Q;
  totalDebt : Q;
  debtToIncomeRatio : Q;
  creditUtilization : Q;
  emergencyFundMonths : Q;
  savingsRate : Q
}.

Record PurchaseImpact : Type := mkPurchaseImpact {
  projectedCashBalance : Q;
  monthsOfBufferRemaining : Q;
  newMonthlyCashflow : option Q;
  newDebtToIncomeRatio : option Q;
  creditUtilizationChange : option Q;
  bufferConsumptionPercent : Q;
  purchaseToIncomeRatio : Q
}.

Inductive DecisionOutcome : Type := YES | CONDITIONAL | DEFER | NO.
Inductive RiskLevel : Type := LOW | MODERATE | HIGH | CRITICAL.

Global Instance DecisionOutcome_eq_dec : EqDecision DecisionOutcome.
Proof. solve_decision. Defined.

(** [RuleResult], without the rendered [explanation] and the diagnostic
    [data]. *)
Record RuleResult : Type := mkRuleResult {
  ruleId : string;
  passed : bool;
  reasonCodes : list string;
  weight : Q
}.

Record RuleEvaluationResult : Type := mkRuleEvaluationResult {
  rules : list RuleResult;
  passCount : nat;
  failCount : nat;
  weightedScore : Q;
  allReasonCodes : list string;
  suggestedDecision : DecisionOutcome;
  suggestedRiskLevel : RiskLevel
}.

(** [AffordabilityCalculation], without the rendered [recommendations] and
    [alternatives]. *)
Record AffordabilityCalculation : Type := mkAffordabilityCalculation {
  ac_metrics : AffordabilityMetrics;
  ac_impact : PurchaseImpact;
  ac_ruleEvaluation : RuleEvaluationResult;
  ac_decision : DecisionOutcome;
  ac_confidence : Q;
  ac_riskLevel : RiskLevel;
  ac_reasonCodes : list string
}.

End AffordTypes.

(* ===================================================================== *)
(** * core/affordability/affordRules.ts                                   *)
(* ===================================================================== *)

Module AffordRules.

Import AffordTypes Thresholds.

Definition RuleFunction : Type := AffordabilityMetrics -> PurchaseImpact -> Q -> RuleResult.

Definition sufficientBufferRule : RuleFunction := fun metrics impact _ =>
  let passed :=
    AFFORDABILITY_MINIMUM_POST_PURCHASE_BUFFER_MONTHS <=? monthsOfBufferRemaining impact in
  {| ruleId := "SUFFICIENT_BUFFER";
     passed := passed;
     reasonCodes := if passed then ["HEALTHY_BUFFER"] else ["INSUFFICIENT_BUFFER"];
     weight := 25 # 100 |}.

Definition positiveCashflowRule : RuleFunction := fun metrics impact _ =>
  let effectiveCashflow := default (monthlyCashflow metrics) (newMonthlyCashflow impact) in
  let passed := 0 <? effectiveCashflow in
  {| ruleId := "POSITIVE_CASHFLOW";
     passed := passed;
     reasonCodes := if passed then ["POSITIVE_CASHFLOW"] else ["NEGATIVE_CASHFLOW"];
     weight := 20 # 100 |}.

Definition debtToIncomeRule : RuleFunction := fun metrics impact _ =>
  let effectiveDTI := default (debtToIncomeRatio metrics) (newDebtToIncomeRatio impact) in
  let passed := effectiveDTI <=? DEBT_TO_INCOME_ACCEPTABLE in
  let reasonCodes :=
    if effectiveDTI <=? DEBT_TO_INCOME_GOOD then ["ACCEPTABLE_DEBT_TO_INCOME"]
    else if effectiveDTI <=? DEBT_TO_INCOME_ACCEPTABLE then ["ACCEPTABLE_DEBT_TO_INCOME"]
    else ["HIGH_DEBT_TO_INCOME"] in
  {| ruleId := "DEBT_TO_INCOME";
     passed := passed;
     reasonCodes := reasonCodes;
     weight := 15 # 100 |}.

Definition creditUtilizationRule : RuleFunction := fun metrics impact _ =>
  match creditUtilizationChange impact with
  | None =>
    {| ruleId := "CREDIT_UTILIZATION"; passed := true; reasonCodes := []; weight := 0 |}
  | Some change =>
    let newUtilization := creditUtilization metrics + change in
    let passed := newUtilization <=? CREDIT_UTILIZATION_GOOD in
    {| ruleId := "CREDIT_UTILIZATION";
       passed := passed;
       reasonCodes :=
         if passed then ["LOW_CREDIT_UTILIZATION"] else ["HIGH_CREDIT_UTILIZATION"];
       weight := 10 # 100 |}
  end.

Definition emergencyFundRule : RuleFunction := fun metrics _ _ =>
  let passed := EMERGENCY_FUND_MINIMUM_MONTHS <=? emergencyFundMonths metrics in
  {| ruleId := "EMERGENCY_FUND";
     passed := passed;
     reasonCodes :=
       if passed then ["EMERGENCY_FUND_ADEQUATE"] else ["EMERGENCY_FUND_INADEQUATE"];
     weight := 15 # 100 |}.

Definition purchaseSizeRule : RuleFunction := fun metrics impact purchaseAmount =>
  let ratio := purchaseToIncomeRatio impact in
  let '(passed, reasonCodes) :=
    if ratio <=? AFFORDABILITY_SMALL_PURCHASE_THRESHOLD
    then (true, ["AFFORDABLE_PURCHASE"])
    else if ratio <=? AFFORDABILITY_LARGE_PURCHASE_THRESHOLD
    then (true, ["AFFORDABLE_PURCHASE"])
    else if ratio <=? AFFORDABILITY_MAJOR_PURCHASE_THRESHOLD
    then
      let passed := EMERGENCY_FUND_MINIMUM_MONTHS <=? emergencyFundMonths metrics in
      (passed,
       if passed then ["AFFORDABLE_PURCHASE"; "PURCHASE_STRAINS_BUDGET"]
       else ["PURCHASE_STRAINS_BUDGET"])
    else (false, ["UNAFFORDABLE_PURCHASE"]) in
  {| ruleId := "PURCHASE_SIZE";
     passed := passed;
     reasonCodes := reasonCodes;
     weight := 10 # 100 |}.

Definition bufferConsumptionRule : RuleFunction := fun metrics impact _ =>
  let consumption := bufferConsumptionPercent impact in
  let passed := consumption <=? AFFORDABILITY_MAX_BUFFER_CONSUMPTION in
  {| ruleId := "BUFFER_CONSUMPTION";
     passed := passed;
     reasonCodes := if passed then ["SAVINGS_HEALTHY"] else ["SAVINGS_DEPLETED"];
     weight := 5 # 100 |}.

Definition luxuryWhileInDebtRule : RuleFunction := fun metrics _ _ =>
  if debtToIncomeRatio metrics <=? DEBT_TO_INCOME_GOOD
  then {| ruleId := "LUXURY_WHILE_IN_DEBT"; passed := true; reasonCodes := []; weight := 0 |}
  else
    {| ruleId := "LUXURY_WHILE_IN_DEBT";
       passed := true;
       reasonCodes := if 0 <? totalDebt metrics then ["LUXURY_WHILE_IN_DEBT"] else [];
       weight := 5 # 100 |}.

Definition ALL_RULES : list RuleFunction :=
  [ sufficientBufferRule; positiveCashflowRule; debtToIncomeRule;
    creditUtilizationRule; emergencyFundRule; purchaseSizeRule;
    bufferConsumptionRule; luxuryWhileInDebtRule ].

(** [[...new Set(codes)]]: the first occurrence of each code, in order. *)
Fixpoint dedupe (seen codes : list string) : list string :=
  match codes with
  | [] => []
  | c :: rest =>
    if bool_decide (c ∈ seen) then dedupe seen rest else c :: dedupe (c :: seen) rest
  end.

(** [evaluateAffordabilityRules(metrics, impact, purchaseAmount)]. *)
Definition evaluateAffordabilityRules (metrics : AffordabilityMetrics)
           (impact : PurchaseImpact) (purchaseAmount : Q) : RuleEvaluationResult :=
  let results := map (fun rule : RuleFunction => rule metrics impact purchaseAmount) ALL_RULES in
  let applicableRules := filter (fun r => (0 <? weight r) = true) results in
  let totalWeight := fold_left (fun sum r => sum + weight r) applicableRules 0 in
  let weightedSum :=
    fold_left (fun sum r => sum + (if passed r then weight r else 0)) applicableRules 0 in
  let weightedScore := if 0 <? totalWeight then weightedSum / totalWeight else 0 in
  let allReasonCodes := flat_map reasonCodes results in
  let passCount := length (filter (fun r => passed r = true) applicableRules) in
  let failCount := length (filter (fun r => passed r = false) applicableRules) in
  let suggestedDecision :=
    if (85 # 100) <=? weightedScore then YES
    else if (60 # 100) <=? weightedScore then CONDITIONAL
    else if (40 # 100) <=? weightedScore then DEFER
    else NO in
  let suggestedRiskLevel :=
    if (85 # 100) <=? weightedScore then LOW
    else if (60 # 100) <=? weightedScore then MODERATE
    else if (40 # 100) <=? weightedScore then HIGH
    else CRITICAL in
  {| rules := results;
     passCount := passCount;
     failCount := failCount;
     weightedScore := weightedScore;
     allReasonCodes := dedupe [] allReasonCodes;
     suggestedDecision := suggestedDecision;
     suggestedRiskLevel := suggestedRiskLevel |}.

(** [getFailedRuleRecommendations(results)].  The [default] case of its
    [switch] returns the rendered [r.explanation], which [RuleResult]
    leaves out: [explanation] stands for it.  The threshold in the
    EMERGENCY_FUND sentence is rendered at its default, 3. *)
Definition getFailedRuleRecommendations (explanation : RuleResult -> string)
           (results : list RuleResult) : list string :=
  map (fun r =>
         if bool_decide (ruleId r = "SUFFICIENT_BUFFER")
         then "Build up your emergency buffer before making this purchase"
         else if bool_decide (ruleId r = "POSITIVE_CASHFLOW")
         then "Reduce monthly expenses or increase income first"
         else if bool_decide (ruleId r = "DEBT_TO_INCOME")
         then "Pay down existing debt before taking on new obligations"
         else if bool_decide (ruleId r = "CREDIT_UTILIZATION")
         then "Pay down credit card balances to improve utilization"
         else if bool_decide (ruleId r = "EMERGENCY_FUND")
         then "Build emergency fund to 3 months of expenses"
         else if bool_decide (ruleId r = "PURCHASE_SIZE")
         then "Consider saving up for this purchase over time"
         else if bool_decide (ruleId r = "BUFFER_CONSUMPTION")
         then "This purchase consumes too much of your safety net"
         else explanation r)
      (filter (fun r => (negb (passed r) && (0 <? weight r)) = true) results).

End AffordRules.

(* ===================================================================== *)
(** * core/affordability/affordCalculator.ts                              *)
(* ===================================================================== *)

Module AffordCalculator.

Import AffordTypes AffordRules Thresholds.

(** The amortization expression that the calculator writes out three
    times: [b * (r * Math.pow(1 + r, n)) / (Math.pow(1 + r, n) - 1)]. *)
Definition amortization (balance monthlyRate : Q) (termMonths : positive) : Q :=
  balance * (monthlyRate * (1 + monthlyRate) ^ (Z.pos termMonths))
  / ((1 + monthlyRate) ^ (Z.pos termMonths) - 1).

(** [calculateMinimumPayment(debt)] of the calculator. *)
Definition calculateMinimumPayment (debt : DebtAccount) : option Q :=
  match da_minimum_payment debt with
  | Some m => Some m
  | None =>
    match da_type debt with
    | credit_card =>
      Some (Qmax (Money.toDisplayDollars
                    (Money.multiply (da_balance debt)
                                    DEBT_PAYOFF_MIN_CREDIT_CARD_PAYMENT_PERCENT))
                 DEBT_PAYOFF_MIN_PAYMENT_FLOOR)
    | personal_loan | auto_loan | student_loan =>
      let termMonths : positive :=
        match da_type debt with student_loan => 120 | _ => 60 end%positive in
      let monthlyRate := da_apr debt / 100 / 12 in
      if monthlyRate =? 0
      then q ← Money.divide (da_balance debt) (inject_Z (Z.pos termMonths));
           Some (Money.toDisplayDollars q)
      else Some (Num.roundCents (amortization (da_balance debt) monthlyRate termMonths))
    | mortgage =>
      let mortgageMonths : positive := 360%positive in
      let mortgageRate := da_apr debt / 100 / 12 in
      if mortgageRate =? 0
      then q ← Money.divide (da_balance debt) (inject_Z (Z.pos mortgageMonths));
           Some (Money.toDisplayDollars q)
      else Some (Num.roundCents (amortization (da_balance debt) mortgageRate mortgageMonths))
    | _ =>
      Some (Qmax (Money.toDisplayDollars (Money.multiply (da_balance debt) (3 # 100)))
                 DEBT_PAYOFF_MIN_PAYMENT_FLOOR)
    end
  end.

(** [d.type === 'credit_card'], as a boolean. *)
Definition isCreditCard (d : DebtAccount) : bool :=
  match da_type d with credit_card => true | _ => false end.

(** [calculateCreditUtilization(debts)]. *)
Definition calculateCreditUtilization (debts : list DebtAccount) : option Q :=
  let creditCards :=
    filter (fun d => (isCreditCard d &&
                      match da_credit_limit d with
                      | Some l => 0 <? l
                      | None => false
                      end) = true) debts in
  match creditCards with
  | [] => Some 0
  | _ =>
    let totalBalance := Money.sum (map da_balance creditCards) in
    let totalLimit := Money.sum (map (fun d => default 0 (da_credit_limit d)) creditCards) in
    if Money.isZero totalLimit then Some 0
    else q ← Money.divide totalBalance totalLimit; Some (Money.toDisplayDollars q)
  end.

(** [profile.debts.reduce((total, debt) => total + calculateMinimumPayment(debt), 0)]. *)
Fixpoint sumMinimumPayments (total : Q) (debts : list DebtAccount) : option Q :=
  match debts with
  | [] => Some total
  | debt :: rest =>
    m ← calculateMinimumPayment debt; sumMinimumPayments (total + m) rest
  end.

(** [calculateMetrics(profile)]. *)
Definition calculateMetrics (profile : UserFinancialProfile) : option AffordabilityMetrics :=
  let monthlyIncome := monthly_income profile in
  let monthlyExpenses := monthly_fixed_expenses profile in
  monthlyDebtPayments ← sumMinimumPayments 0 (debts profile);
  let monthlyCashflow :=
    Money.toDisplayDollars
      (Money.subtract monthlyIncome [monthlyExpenses; monthlyDebtPayments]) in
  let liquidAssets :=
    Money.toDisplayDollars
      (Money.add [cash_balance profile; default 0 (savings_balance profile);
                  default 0 (emergency_fund profile)]) in
  let totalDebt := Money.toDisplayDollars (Money.sum (map da_balance (debts profile))) in
  let annualDebtPayments := monthlyDebtPayments * 12 in
  let annualIncome := monthlyIncome * 12 in
  let debtToIncomeRatio :=
    if 0 <? annualIncome then annualDebtPayments / annualIncome else 0 in
  creditUtilization ← calculateCreditUtilization (debts profile);
  let monthlyEssentialExpenses := monthlyExpenses + monthlyDebtPayments in
  let emergencyFundMonths :=
    if 0 <? monthlyEssentialExpenses then liquidAssets / monthlyEssentialExpenses else 0 in
  let savingsRate :=
    if 0 <? monthlyIncome then Qmax 0 (monthlyCashflow / monthlyIncome) else 0 in
  Some {| monthlyIncome := monthlyIncome;
          monthlyExpenses := monthlyExpenses;
          monthlyDebtPayments := monthlyDebtPayments;
          monthlyCashflow := monthlyCashflow;
          liquidAssets := liquidAssets;
          totalDebt := totalDebt;
          debtToIncomeRatio := debtToIncomeRatio;
          creditUtilization := creditUtilization;
          emergencyFundMonths := emergencyFundMonths;
          savingsRate := savingsRate |}.

(** The four variables that the [switch (purchase.payment_method)] of
    [calculatePurchaseImpact] assigns: [projectedCashBalance],
    [newMonthlyCashflow], [newDebtToIncomeRatio], [creditUtilizationChange]. *)
Definition methodImpact (metrics : AffordabilityMetrics) (purchase : PurchaseRequest)
           (profile : UserFinancialProfile)
  : option (Q * option Q * option Q * option Q) :=
  let purchaseAmount := amount purchase in
  match payment_method purchase with
  | pm_cash | pm_debit =>
    Some (Money.toDisplayDollars (Money.subtract (liquidAssets metrics) [purchaseAmount]),
          None, None, None)
  | pm_credit_card =>
    let projectedCashBalance := liquidAssets metrics in
    let creditCards :=
      filter (fun d => (isCreditCard d && bool_decide (is_Some (da_credit_limit d))) = true)
             (debts profile) in
    let totalCreditLimit :=
      Money.sum (map (fun d => default 0 (da_credit_limit d)) creditCards) in
    creditUtilizationChange ←
      (if negb (Money.isZero totalCreditLimit)
       then q ← Money.divide purchaseAmount totalCreditLimit;
            Some (Some (Money.toDisplayDollars q))
       else Some None);
    let newMinPayment := Qmax (purchaseAmount * (2 # 100)) 25 in
    let newMonthlyCashflow := monthlyCashflow metrics - newMinPayment in
    let newAnnualDebtPayments := (monthlyDebtPayments metrics + newMinPayment) * 12 in
    let annualIncome := monthlyIncome metrics * 12 in
    let newDebtToIncomeRatio :=
      if 0 <? annualIncome then newAnnualDebtPayments / annualIncome else 0 in
    Some (projectedCashBalance, Some newMonthlyCashflow, Some newDebtToIncomeRatio,
          creditUtilizationChange)
  | pm_buy_now_pay_later =>
    quarter ← Money.divide purchaseAmount 4;
    let projectedCashBalance :=
      Money.toDisplayDollars (Money.subtract (liquidAssets metrics) [quarter]) in
    let bnplMonthlyPayment := purchaseAmount / 2 in
    Some (projectedCashBalance, Some (monthlyCashflow metrics - bnplMonthlyPayment),
          None, None)
  | pm_financing =>
    let projectedCashBalance :=
      Money.toDisplayDollars
        (Money.subtract (liquidAssets metrics)
                        [default 0 (financing_terms purchase ≫= ft_down_payment)]) in
    match financing_terms purchase with
    | Some terms =>
      let down_payment := default 0 (ft_down_payment terms) in
      let financedAmount := purchaseAmount - down_payment in
      let monthlyRate := ft_apr terms / 100 / 12 in
      let monthlyPayment :=
        if monthlyRate =? 0
        then financedAmount / inject_Z (Z.pos (ft_term_months terms))
        else amortization financedAmount monthlyRate (ft_term_months terms) in
      let newMonthlyCashflow := monthlyCashflow metrics - monthlyPayment in
      let newAnnualPayments := (monthlyDebtPayments metrics + monthlyPayment) * 12 in
      let newDebtToIncomeRatio :=
        if 0 <? monthlyIncome metrics * 12
        then newAnnualPayments / (monthlyIncome metrics * 12) else 0 in
      Some (projectedCashBalance, Some newMonthlyCashflow, Some newDebtToIncomeRatio, None)
    | None => Some (projectedCashBalance, None, None, None)
    end
  | pm_savings =>
    Some (Money.toDisplayDollars (Money.subtract (liquidAssets metrics) [purchaseAmount]),
          None, None, None)
  | pm_mixed =>
    half ← Money.divide purchaseAmount 2;
    Some (Money.toDisplayDollars (Money.subtract (liquidAssets metrics) [half]),
          None, None, None)
  end.

(** [calculatePurchaseImpact(metrics, purchase, profile)]. *)
Definition calculatePurchaseImpact (metrics : AffordabilityMetrics)
           (purchase : PurchaseRequest) (profile : UserFinancialProfile)
  : option PurchaseImpact :=
  let purchaseAmount := amount purchase in
  '(projectedCashBalance, newMonthlyCashflow, newDebtToIncomeRatio, creditUtilizationChange)
    ← methodImpact metrics purchase profile;
  let monthlyEssentials := monthlyExpenses metrics + monthlyDebtPayments metrics in
  let monthsOfBufferRemaining :=
    if 0 <? monthlyEssentials then Qmax 0 (projectedCashBalance / monthlyEssentials) else 0 in
  let bufferConsumptionPercent :=
    if 0 <? liquidAssets metrics
    then Qmax 0 (1 - projectedCashBalance / liquidAssets metrics) else 1 in
  let purchaseToIncomeRatio :=
    if 0 <? monthlyIncome metrics then purchaseAmount / monthlyIncome metrics else 1 in
  Some {| projectedCashBalance := projectedCashBalance;
          monthsOfBufferRemaining := monthsOfBufferRemaining;
          newMonthlyCashflow := newMonthlyCashflow;
          newDebtToIncomeRatio := newDebtToIncomeRatio;
          creditUtilizationChange := creditUtilizationChange;
          bufferConsumptionPercent := bufferConsumptionPercent;
          purchaseToIncomeRatio := purchaseToIncomeRatio |}.

(** Steps 4 and 5 of [calculateAffordability]: the assignments to
    [finalDecision] and to [confidence], in program order. *)
Definition finalDecisionOf (metrics : AffordabilityMetrics) (impact : PurchaseImpact)
           (ruleEvaluation : RuleEvaluationResult) : DecisionOutcome :=
  let finalDecision := suggestedDecision ruleEvaluation in
  let finalDecision :=
    if projectedCashBalance impact <? 0 then NO else finalDecision in
  let finalDecision :=
    if monthsOfBufferRemaining impact <? (1 # 2) then NO else finalDecision in
  let finalDecision :=
    if bool_decide (finalDecision = YES) && (emergencyFundMonths metrics <? 2)
    then CONDITIONAL else finalDecision in
  finalDecision.

Definition confidenceOf (impact : PurchaseImpact) (ruleEvaluation : RuleEvaluationResult)
           (finalDecision : DecisionOutcome) : Q :=
  let confidence := weightedScore ruleEvaluation in
  let confidence :=
    if (monthsOfBufferRemaining impact <? 1) && negb (bool_decide (finalDecision = NO))
    then confidence * (8 # 10) else confidence in
  Qmax 0 (Qmin 1 confidence).

(** [calculateAffordability(profile, purchase)]. *)
Definition calculateAffordability (profile : UserFinancialProfile)
           (purchase : PurchaseRequest) : option AffordabilityCalculation :=
  metrics ← calculateMetrics profile;
  impact ← calculatePurchaseImpact metrics purchase profile;
  let ruleEvaluation := evaluateAffordabilityRules metrics impact (amount purchase) in
  let finalDecision := finalDecisionOf metrics impact ruleEvaluation in
  let confidence := confidenceOf impact ruleEvaluation finalDecision in
  Some {| ac_metrics := metrics;
          ac_impact := impact;
          ac_ruleEvaluation := ruleEvaluation;
          ac_decision := finalDecision;
          ac_confidence := confidence;
          ac_riskLevel := suggestedRiskLevel ruleEvaluation;
          ac_reasonCodes := allReasonCodes ruleEvaluation |}.

(** A number of months before it is rendered as [`${n} months`]:
    [Math.ceil] of a quotient, which is not a finite number when the
    divisor is zero. *)
Inductive Timeline : Type := months (n : Z) | notFinite.

(** An alternative: [strategy], [savings?] and [timeline?], without the
    rendered [description]. *)
Record Alternative : Type := mkAlternative {
  alt_strategy : string;
  alt_savings : option Q;
  alt_timeline : option Timeline
}.

(** [generateAlternatives(metrics, impact, purchase, decision)]. *)
Definition generateAlternatives (metrics : AffordabilityMetrics) (impact : PurchaseImpact)
           (purchase : PurchaseRequest) (decision : DecisionOutcome) : list Alternative :=
  let alternatives : list Alternative := [] in
  if bool_decide (decision = YES) then alternatives
  else
    let purchaseAmount := amount purchase in
    let alternatives :=
      if 0 <? monthlyCashflow metrics
      then
        let monthsToSave := Qceiling (purchaseAmount / monthlyCashflow metrics) in
        if (monthsToSave <=? 12)%Z
        then alternatives ++
             [ {| alt_strategy := "delay_and_save";
                  alt_savings := None;
                  alt_timeline := Some (months monthsToSave) |} ]
        else alternatives
      else alternatives in
    let affordableAmount :=
      Qmin (liquidAssets metrics * (25 # 100)) (purchaseAmount * (5 # 10)) in
    let alternatives :=
      if purchaseAmount * (3 # 10) <=? affordableAmount
      then alternatives ++
           [ {| alt_strategy := "reduced_purchase";
                alt_savings := Some (purchaseAmount - affordableAmount);
                alt_timeline := None |} ]
      else alternatives in
    let alternatives :=
      if (0 <? totalDebt metrics) && bool_decide (is_Some (newDebtToIncomeRatio impact))
      then
        let debtToPayDown := Qmin (totalDebt metrics * (2 # 10)) purchaseAmount in
        alternatives ++
        [ {| alt_strategy := "debt_first";
             alt_savings := None;
             alt_timeline :=
               Some (if monthlyCashflow metrics =? 0 then notFinite
                     else months (Qceiling (debtToPayDown / monthlyCashflow metrics))) |} ]
      else alternatives in
    let alternatives :=
      match payment_method purchase with
      | pm_cash | pm_credit_card =>
        alternatives ++
        [ {| alt_strategy := "0%_financing"; alt_savings := None; alt_timeline := None |} ]
      | _ => alternatives
      end in
    let alternatives :=
      alternatives ++
      [ {| alt_strategy := "boost_income"; alt_savings := None; alt_timeline := None |} ] in
    take 5 alternatives.

(** Steps 6 and 7 of [calculateAffordability]: the [recommendations] and
    the [alternatives] of its result, which [AffordabilityCalculation]
    leaves out. *)
Definition calculateAdvice (explanation : RuleResult -> string)
           (profile : UserFinancialProfile) (purchase : PurchaseRequest)
  : option (list string * list Alternative) :=
  metrics ← calculateMetrics profile;
  impact ← calculatePurchaseImpact metrics purchase profile;
  let ruleEvaluation := evaluateAffordabilityRules metrics impact (amount purchase) in
  let finalDecision := finalDecisionOf metrics impact ruleEvaluation in
  let recommendations :=
    if bool_decide (finalDecision = YES) then []
    else getFailedRuleRecommendations explanation (rules ruleEvaluation) in
  let alternatives := generateAlternatives metrics impact purchase finalDecision in
  Some (recommendations, alternatives).

End AffordCalculator.

(* ===================================================================== *)
(** * utils/validation.ts and config/limits.ts                            *)
(* ===================================================================== *)

Module Validation.

Import AffordTypes.

Definition MAX_PURCHASE_AMOUNT : Q := 10000000.

(** [ValidationError], without the rendered [message]. *)
Record ValidationError : Type := mkValidationError {
  field : string;
  code : string
}.

(** [sanitizeMoney(amount, maxAmount)] and [sanitizePercentage(percentage)].
    A number of the model is finite, so the guard [!Number.isFinite] is
    never taken. *)
Definition sanitizeMoney (amount maxAmount : Q) : Q :=
  let sanitized := Qmax 0 amount in
  let capped := Qmin sanitized maxAmount in
  Num.roundCents capped.

Definition sanitizePercentage (percentage : Q) : Q :=
  let sanitized := Qmax 0 (Qmin 100 percentage) in
  Num.roundCents sanitized.

(** [isValidAPR(apr)] and [isValidConfidence(confidence)] on a number. *)
Definition isValidAPR (apr : Q) : bool := (0 <=? apr) && (apr <=? 100).
Definition isValidConfidence (confidence : Q) : bool :=
  (0 <=? confidence) && (confidence <=? 1).

(** [limitArray(array, maxLength)] for a length that is a natural number. *)
Definition limitArray {T : Type} (array : list T) (maxLength : nat) : list T :=
  take maxLength array.

(** [deduplicateBy(array, keyFn)]: the [filter] callback reads and updates
    the set [seen]. *)
Fixpoint deduplicateLoop {T : Type} (keyFn : T -> string) (seen : gset string)
         (array : list T) : list T :=
  match array with
  | [] => []
  | item :: rest =>
    let key := keyFn item in
    if bool_decide (key ∈ seen) then deduplicateLoop keyFn seen rest
    else item :: deduplicateLoop keyFn ({[key]} ∪ seen) rest
  end.

Definition deduplicateBy {T : Type} (array : list T) (keyFn : T -> string) : list T :=
  deduplicateLoop keyFn ∅ array.

(** [validateIncomeCoversExpenses(monthlyIncome, monthlyExpenses)]. *)
Definition validateIncomeCoversExpenses (monthlyIncome monthlyExpenses : Q) : bool :=
  monthlyExpenses <=? monthlyIncome.

(** The truthiness of an optional number: present and not zero. *)
Definition truthy (x : option Q) : bool :=
  match x with
  | Some v => negb (v =? 0)
  | None => false
  end.

(** [validateDebtAccount(debt)]. *)
Definition validateDebtAccount (debt : DebtAccount) : list ValidationError :=
  let errors : list ValidationError := [] in
  let errors :=
    if truthy (da_minimum_payment debt) &&
       (da_balance debt <? default 0 (da_minimum_payment debt))
    then errors ++ [ {| field := "minimum_payment"; code := "invalid_minimum_payment" |} ]
    else errors in
  let errors :=
    if match da_type debt with credit_card => true | _ => false end &&
       truthy (da_credit_limit debt) &&
       (default 0 (da_credit_limit debt) <? da_balance debt)
    then errors ++ [ {| field := "credit_limit"; code := "invalid_credit_limit" |} ]
    else errors in
  errors.

(** [validateProfileConsistency(profile)]. *)
Definition validateProfileConsistency (profile : UserFinancialProfile)
  : list ValidationError :=
  let debtErrors :=
    concat (imap (fun index debt =>
                    map (fun err =>
                           {| field := "debts[" +:+ pretty index +:+ "]." +:+ field err;
                              code := code err |})
                        (validateDebtAccount debt))
                 (debts profile)) in
  let totalMinPayments :=
    fold_left (fun sum d => sum + default 0 (da_minimum_payment d)) (debts profile) 0 in
  let availableForDebt := monthly_income profile - monthly_fixed_expenses profile in
  if (availableForDebt <? totalMinPayments) && (0 <? availableForDebt)
  then debtErrors ++ [ {| field := "debts"; code := "insufficient_income_for_debt" |} ]
  else debtErrors.

End Validation.

(* ===================================================================== *)
(** * utils/idempotency.ts                                                *)
(* ===================================================================== *)

Module Idempotency.

(** [IDEMPOTENCY_TTL_MS] of config/constants.ts, at its default. *)
Definition IDEMPOTENCY_TTL_MS : Z := 600000.

Section Cache.

(** The request bodies and the response payloads, and [hashBody]: the
    SHA-256 digest of the serialised body. *)
Context {Body Payload : Type}.
Variable hashBody : Body -> string.

Record CachedResponse : Type := mkCachedResponse {
  bodyHash : string;
  payload : Payload;
  statusCode : Z;
  expiresAt : Z
}.

(** What [getIdempotentResponse] returns: [{ statusCode, payload }],
    [{ conflict: true }] or [null]. *)
Inductive Lookup : Type :=
  | replay (statusCode : Z) (payload : Payload)
  | conflict
  | null.

(** [!key]: the key is [undefined] or the empty string. *)
Definition noKey (key : option string) : bool :=
  match key with
  | Some k => bool_decide (k = EmptyString)
  | None => true
  end.

(** [getIdempotentResponse(key, body)] at the time [now = Date.now()], on
    the module's [cache]: the result and the cache it leaves. *)
Definition getIdempotentResponse (now : Z) (cache : gmap string CachedResponse)
           (key : option string) (body : Body)
  : Lookup * gmap string CachedResponse :=
  if noKey key then (null, cache)
  else
    let k := default EmptyString key in
    match cache !! k with
    | None => (null, cache)
    | Some cached =>
      if (expiresAt cached <? now)%Z then (null, delete k cache)
      else if negb (bool_decide (bodyHash cached = hashBody body)) then (conflict, cache)
      else (replay (statusCode cached) (payload cached), cache)
    end.

(** [storeIdempotentResponse(key, body, statusCode, payload)] at the time
    [now]: the cache it leaves. *)
Definition storeIdempotentResponse (now : Z) (cache : gmap string CachedResponse)
           (key : option string) (body : Body) (statusCode : Z) (payload : Payload)
  : gmap string CachedResponse :=
  if noKey key then cache
  else
    <[default EmptyString key :=
        {| bodyHash := hashBody body;
           payload := payload;
           statusCode := statusCode;
           expiresAt := (now + IDEMPOTENCY_TTL_MS)%Z |}]> cache.

End Cache.

End Idempotency.

(* ===================================================================== *)
(** * Loop summaries, statements of the specification, example inputs     *)
(* ===================================================================== *)

Module Summary.

Import PayoffStrategies DebtSimulator.

(** What the loop of [simulateMonth] pushes on [updatedDebts] for one debt. *)
Definition stepDebt (extraAllocations : gmap string Q) (debt : DebtState) : DebtState :=
  if ds_isPaidOff debt || (ds_balance debt <=? 0)
  then {| ds_id := ds_id debt; ds_name := ds_name debt; ds_type := ds_type debt;
          ds_balance := 0; ds_apr := ds_apr debt;
          ds_minimumPayment := ds_minimumPayment debt;
          ds_creditLimit := ds_creditLimit debt; ds_isPaidOff := true |}
  else
    let r := payDebt debt (default 0 (extraAllocations !! ds_id debt)) in
    {| ds_id := ds_id debt; ds_name := ds_name debt; ds_type := ds_type debt;
       ds_balance := dp_remainingBalance (fst r); ds_apr := ds_apr debt;
       ds_minimumPayment := ds_minimumPayment debt;
       ds_creditLimit := ds_creditLimit debt; ds_isPaidOff := snd r |}.

(** What the loop pushes on [payments] for one debt: nothing for a debt
    that is paid off. *)
Definition stepPayment (extraAllocations : gmap string Q) (debt : DebtState)
  : option DebtPayment :=
  if ds_isPaidOff debt || (ds_balance debt <=? 0) then None
  else Some (fst (payDebt debt (default 0 (extraAllocations !! ds_id debt)))).

(** The allocation [simulateMonth] computes before its loop. *)
Definition monthAllocations (debts : list DebtState) (extraPayment : Q)
           (strategy : DebtStrategy) (freedUpMinimums : Q) : gmap string Q :=
  allocateExtraPayments debts (getStrategySorter strategy debts)
                        extraPayment freedUpMinimums.

(** Consecutive months, each with its own parameters (extra payment,
    strategy, month number, interest so far, freed minimums), every month
    starting from the array the month before left: the states recorded. *)
Fixpoint runMonths (params : list (Q * DebtStrategy * nat * Q * Q))
         (debts : list DebtState) : list MonthlySimulationState :=
  match params with
  | [] => []
  | (extraPayment, strategy, month, totalInterestSoFar, freedUpMinimums) :: rest =>
    let state := simulateMonth debts extraPayment strategy month
                               totalInterestSoFar freedUpMinimums in
    state :: runMonths rest (ms_debts state)
  end.

(** The array of debt states when the loop of [simulateStrategy] ends. *)
Definition finalDebtStates (debts : list DebtAccount) (strategy : DebtStrategy)
           (extraMonthlyPayment : Q) (maxMonths : nat) : list DebtState :=
  let debtStates0 := imap (fun i d => initializeDebtState d i) debts in
  let originalBalances :=
    fold_left (fun m d => <[ds_id d := (ds_balance d, ds_name d)]> m) debtStates0
              (∅ : gmap string (Q * string)) in
  debtStates (driverLoop strategy extraMonthlyPayment originalBalances maxMonths
                         (initialDriver debtStates0)).

(** The invariant of a debt state: the balance is not negative, and a debt
    that is paid off has balance exactly 0. *)
Definition settledOrOwing (d : DebtState) : Prop :=
  0 <= ds_balance d /\ (ds_isPaidOff d = true -> ds_balance d = 0).

(** A debt whose APR is [rate]. *)
Definition atRate (rate : Q) (d : DebtState) : Prop := ds_apr d == rate.

End Summary.

Module Spec.

Import PayoffStrategies DebtSimulator Summary.

(** ** The monthly step, as the specification words it *)

(** The formulas of the specification for one active debt, without any
    rounding: interest, desired and actual payment, interest and principal
    paid, new balance. *)
Definition paymentAsSpecified (extra : Q) (d : DebtState) (p : DebtPayment) : Prop :=
  let interest := ds_balance d * (ds_apr d / 100 / 12) in
  let desired := ds_minimumPayment d + extra in
  let actual := Qmin desired (ds_balance d + interest) in
  let interestPaid := Qmin interest actual in
  dp_paymentAmount p == actual /\
  dp_interestPaid p == interestPaid /\
  dp_principalPaid p == actual - interestPaid /\
  dp_remainingBalance p == Qmax 0 (ds_balance d + interest - actual).

(** The new balance with the roundings of the code: interest, balance
    with interest and the difference are each rounded to cents. *)
Definition newBalanceRounded (extra : Q) (d : DebtState) : Q :=
  let interest := Money.toDisplayDollars (ds_balance d * (ds_apr d / 100 / 12)) in
  let withInterest := Money.toDisplayDollars (ds_balance d + interest) in
  let actual := Qmin (ds_minimumPayment d + extra) withInterest in
  Qmax 0 (Money.toDisplayDollars (withInterest - actual)).

(** The formulas with those roundings; the recorded remaining balance is
    zero once the debt counts as paid off. *)
Definition paymentRounded (extra : Q) (d : DebtState) (p : DebtPayment) : Prop :=
  let interest := Money.toDisplayDollars (ds_balance d * (ds_apr d / 100 / 12)) in
  let withInterest := Money.toDisplayDollars (ds_balance d + interest) in
  let desired := ds_minimumPayment d + extra in
  let actual := Qmin desired withInterest in
  let interestPaid := Qmin interest actual in
  dp_debtId p = ds_id d /\
  dp_paymentAmount p == actual /\
  dp_interestPaid p == interestPaid /\
  dp_principalPaid p == actual - interestPaid /\
  dp_remainingBalance p ==
    (if newBalanceRounded extra d <=? (1 # 100) then 0 else newBalanceRounded extra d).

(** The updated state of a debt that was active: paid off exactly when the
    new balance is at most one cent, and then with balance zero. *)
Definition stateRounded (extra : Q) (d d' : DebtState) : Prop :=
  (ds_isPaidOff d' = true <-> newBalanceRounded extra d <= 1 # 100) /\
  ds_balance d' ==
    (if newBalanceRounded extra d <=? (1 # 100) then 0 else newBalanceRounded extra d).

(** All active debts of [debts], each with the payment recorded for it. *)
Definition monthPaymentsSatisfy (R : Q -> DebtState -> DebtPayment -> Prop)
           (debts : list DebtState) (extraPayment : Q) (strategy : DebtStrategy)
           (month : nat) (totalInterestSoFar freedUpMinimums : Q) : Prop :=
  let alloc := monthAllocations debts extraPayment strategy freedUpMinimums in
  Forall2 (fun d p => R (default 0 (alloc !! ds_id d)) d p)
          (filter (fun d => isActive d = true) debts)
          (ms_payments (simulateMonth debts extraPayment strategy month
                                      totalInterestSoFar freedUpMinimums)).

(** ** The minimum-payment estimate, as the specification words it *)

(** Amortized payment for monthly rate [r = APR/100/12] and term [n]:
    [balance / n] if [r == 0], else
    [balance * r * (1+r)^n / ((1+r)^n - 1)] rounded to cents. *)
Definition amortizedAsSpecified (balance apr : Q) (n : positive) : Q :=
  let r := apr / 100 / 12 in
  if r =? 0 then balance / inject_Z (Z.pos n)
  else Num.roundCents (balance * r * (1 + r) ^ (Z.pos n) / ((1 + r) ^ (Z.pos n) - 1)).

(** The per-type reference definition; a supplied minimum is used verbatim. *)
Definition minimumPaymentAsSpecified (debt : DebtAccount) : Q :=
  match da_minimum_payment debt with
  | Some m => m
  | None =>
    match da_type debt with
    | credit_card => Qmax ((2 # 100) * da_balance debt) 25
    | mortgage => amortizedAsSpecified (da_balance debt) (da_apr debt) 360
    | auto_loan | personal_loan => amortizedAsSpecified (da_balance debt) (da_apr debt) 60
    | student_loan => amortizedAsSpecified (da_balance debt) (da_apr debt) 120
    | _ => Qmax ((3 # 100) * da_balance debt) 25
    end
  end.

(** The same table with the roundings of the affordability calculator: the
    percentage of the balance and the zero-rate quotient are rounded to
    cents as well. *)
Definition amortizedAllRounded (balance apr : Q) (n : positive) : Q :=
  let r := apr / 100 / 12 in
  if r =? 0 then Money.toDisplayDollars (balance / inject_Z (Z.pos n))
  else Num.roundCents (balance * r * (1 + r) ^ (Z.pos n) / ((1 + r) ^ (Z.pos n) - 1)).

Definition minimumPaymentAllRounded (debt : DebtAccount) : Q :=
  match da_minimum_payment debt with
  | Some m => m
  | None =>
    match da_type debt with
    | credit_card => Qmax (Money.toDisplayDollars ((2 # 100) * da_balance debt)) 25
    | mortgage => amortizedAllRounded (da_balance debt) (da_apr debt) 360
    | auto_loan | personal_loan => amortizedAllRounded (da_balance debt) (da_apr debt) 60
    | student_loan => amortizedAllRounded (da_balance debt) (da_apr debt) 120
    | _ => Qmax (Money.toDisplayDollars ((3 # 100) * da_balance debt)) 25
    end
  end.

(** The minimum payment the simulator resolves for an account, and the one
    the calculator resolves. *)
Definition simulatorMinimum (debt : DebtAccount) : Q :=
  ds_minimumPayment (initializeDebtState debt 0).

Definition minimumPaymentClaim (debt : DebtAccount) : Prop :=
  simulatorMinimum debt == minimumPaymentAsSpecified debt /\
  exists v, AffordCalculator.calculateMinimumPayment debt = Some v /\
            v == minimumPaymentAsSpecified debt.

(** ** The extra-payment allocation, as the specification words it *)

(** Only the top-priority debt of the month receives surplus, capped at its
    balance; no other debt of the priority order is allocated anything. *)
Definition singleTargetClaim (debts : list DebtState) (extraPayment : Q)
           (strategy : DebtStrategy) (freedUpMinimums : Q) : Prop :=
  let alloc := monthAllocations debts extraPayment strategy freedUpMinimums in
  match getStrategySorter strategy debts with
  | [] => True
  | top :: others =>
    default 0 (alloc !! ds_id top) <= ds_balance top /\
    Forall (fun d => default 0 (alloc !! ds_id d) == 0) others
  end.

(** What the code allocates to the debt at position [k] of the priority
    order: what is left of the budget after the balances of the debts in
    front of it, capped at its own balance. *)
Definition waterfallShare (sortedDebts : list DebtState) (budget : Q) (k : nat)
           (d : DebtState) : Q :=
  Qmin (ds_balance d)
       (Qmax 0 (budget - Num.sumList (map ds_balance (take k sortedDebts)))).

(** ** Avalanche against snowball, as the specification words it *)

Definition avalancheNeverCostsMore (debts : list DebtAccount) (extraMonthlyPayment : Q)
           (maxMonths : nat) : Prop :=
  sr_totalInterestPaid (simulateStrategy debts avalanche extraMonthlyPayment maxMonths) <=
  sr_totalInterestPaid (simulateStrategy debts snowball extraMonthlyPayment maxMonths).

(** ** The recommendation, as the specification words it *)

(** Snowball's first payoff is within 3 months. *)
Definition firstPayoffWithin3 (snowballResult : StrategySimulationResult) : bool :=
  match sr_payoffOrder snowballResult with
  | [] => false
  | first :: _ => (po_monthsToPayoff first <=? 3)%nat
  end.

(** Avalanche if snowball's interest minus avalanche's exceeds 500 or
    snowball's first payoff is not within 3 months; otherwise snowball if
    the first payoff is within 3 months and the differential is below 200;
    otherwise hybrid. *)
Definition recommendationAsSpecified
           (avalancheResult snowballResult : StrategySimulationResult) : DebtStrategy :=
  let differential :=
    sr_totalInterestPaid snowballResult - sr_totalInterestPaid avalancheResult in
  if (500 <? differential) || negb (firstPayoffWithin3 snowballResult) then avalanche
  else if firstPayoffWithin3 snowballResult && (differential <? 200) then snowball
  else hybrid.

(** ** The affordability decision, as the specification words it *)

Import AffordTypes AffordRules AffordCalculator.

(** [weightedScore = sum of the weights of the rules that passed / sum of
    the weights of the applicable rules], zero-weight results excluded. *)
Definition weightedScoreAsSpecified (results : list RuleResult) : Q :=
  let applicable := filter (fun r => (weight r =? 0) = false) results in
  Num.sumList (map weight (filter (fun r => passed r = true) applicable))
  / Num.sumList (map weight applicable).

(** Score to decision: at least 0.85 YES, at least 0.60 CONDITIONAL, at
    least 0.40 DEFER, else NO. *)
Definition thresholdDecision (score : Q) : DecisionOutcome :=
  if (85 # 100) <=? score then YES
  else if (60 # 100) <=? score then CONDITIONAL
  else if (40 # 100) <=? score then DEFER
  else NO.

(** The threshold decision adjusted by the overrides, in their order. *)
Definition decisionAsSpecified (metrics : AffordabilityMetrics) (impact : PurchaseImpact)
           (score : Q) : DecisionOutcome :=
  if projectedCashBalance impact <? 0 then NO
  else if monthsOfBufferRemaining impact <? (1 # 2) then NO
  else match thresholdDecision score with
       | YES => if emergencyFundMonths metrics <? 2 then CONDITIONAL else YES
       | decision => decision
       end.

(** The score, times 0.8 when less than one month of buffer remains and
    the decision is not NO, clamped to [0, 1]. *)
Definition confidenceAsSpecified (impact : PurchaseImpact) (score : Q)
           (decision : DecisionOutcome) : Q :=
  Num.clamp01
    (match decision with
     | NO => score
     | _ => if monthsOfBufferRemaining impact <? 1 then score * (8 # 10) else score
     end).

(** ** Liquid assets and the purchase that exceeds them *)

(** [liquidAssets = cash + savings + emergencyFund], as the calculator
    displays it. *)
Definition liquidAssetsOf (profile : UserFinancialProfile) : Q :=
  Money.toDisplayDollars
    (cash_balance profile + default 0 (savings_balance profile)
     + default 0 (emergency_fund profile)).

Definition exceedsLiquidAssetsClaim (profile : UserFinancialProfile)
           (purchase : PurchaseRequest) : Prop :=
  liquidAssetsOf profile < amount purchase ->
  exists result,
    calculateAffordability profile purchase = Some result /\
    ac_decision result = NO /\
    projectedCashBalance (ac_impact result) < 0.

(** The payment methods that take the whole amount out of liquid assets. *)
Definition paidFromLiquidAssets (method : PaymentMethod) : bool :=
  match method with
  | pm_cash | pm_debit | pm_savings => true
  | _ => false
  end.

(** ** Divisions and their zero denominators *)

(** The credit limit total that [calculateCreditUtilization] divides by, and
    the one that the credit-card branch of [calculatePurchaseImpact]
    divides by. *)
Definition utilizationLimitTotal (debts : list DebtAccount) : Q :=
  Money.sum
    (map (fun d => default 0 (da_credit_limit d))
         (filter (fun d => (isCreditCard d &&
                            match da_credit_limit d with
                            | Some l => 0 <? l
                            | None => false
                            end) = true) debts)).

Definition purchaseLimitTotal (debts : list DebtAccount) : Q :=
  Money.sum
    (map (fun d => default 0 (da_credit_limit d))
         (filter (fun d => (isCreditCard d && bool_decide (is_Some (da_credit_limit d))) = true)
                 debts)).

(** No division raises, and on a zero denominator each guarded division
    yields its default: 0 for the ratios of the metrics and for the buffer
    months, [ratioDefault] for the purchase-to-income ratio,
    [consumptionDefault] for the buffer consumption, [changeDefault] for
    the utilization change of a credit-card purchase. *)
Definition guardedDivisions (ratioDefault consumptionDefault : Q)
           (changeDefault : option Q)
           (profile : UserFinancialProfile) (purchase : PurchaseRequest) : Prop :=
  exists metrics impact,
    calculateMetrics profile = Some metrics /\
    calculatePurchaseImpact metrics purchase profile = Some impact /\
    (monthly_income profile == 0 ->
       debtToIncomeRatio metrics == 0 /\ savingsRate metrics == 0 /\
       purchaseToIncomeRatio impact == ratioDefault /\
       (forall dti, newDebtToIncomeRatio impact = Some dti -> dti == 0)) /\
    (monthlyExpenses metrics + monthlyDebtPayments metrics == 0 ->
       emergencyFundMonths metrics == 0 /\ monthsOfBufferRemaining impact == 0) /\
    (liquidAssets metrics == 0 -> bufferConsumptionPercent impact == consumptionDefault) /\
    (utilizationLimitTotal (debts profile) == 0 -> creditUtilization metrics == 0) /\
    (payment_method purchase = pm_credit_card ->
     purchaseLimitTotal (debts profile) == 0 ->
     creditUtilizationChange impact = changeDefault).

End Spec.

Module Examples.

(** One debt of 100.00 at 1% APR with a minimum payment of 10.00. *)
Definition smallLoan : DebtState :=
  {| ds_id := "loan"; ds_name := "Loan"; ds_type := personal_loan;
     ds_balance := 100; ds_apr := 1; ds_minimumPayment := 10;
     ds_creditLimit := None; ds_isPaidOff := false |}.

(** A medical bill of 1000.50 at 10% APR, no minimum payment given. *)
Definition medicalBill : DebtAccount :=
  {| da_id := None; da_type := medical_debt; da_balance := 2001 # 2; da_apr := 10;
     da_minimum_payment := None; da_credit_limit := None; da_name := None |}.

(** A car loan of 100.00 at 0% APR, no minimum payment given. *)
Definition carLoan : DebtAccount :=
  {| da_id := None; da_type := auto_loan; da_balance := 100; da_apr := 0;
     da_minimum_payment := None; da_credit_limit := None; da_name := None |}.

(** A credit card owing 5000.00 at 20% APR, no minimum payment given. *)
Definition creditCard5000 : DebtAccount :=
  {| da_id := None; da_type := credit_card; da_balance := 5000; da_apr := 20;
     da_minimum_payment := None; da_credit_limit := None; da_name := None |}.

(** Two active debts: 100.00 at 20% APR and 1000.00 at 10% APR. *)
Definition cardA : DebtState :=
  {| ds_id := "a"; ds_name := "A"; ds_type := credit_card;
     ds_balance := 100; ds_apr := 20; ds_minimumPayment := 25;
     ds_creditLimit := None; ds_isPaidOff := false |}.

Definition cardB : DebtState :=
  {| ds_id := "b"; ds_name := "B"; ds_type := credit_card;
     ds_balance := 1000; ds_apr := 10; ds_minimumPayment := 25;
     ds_creditLimit := None; ds_isPaidOff := false |}.

(** The debts of the repository's simulator tests. *)
Definition testDebts : list DebtAccount :=
  [ {| da_id := Some "cc1"; da_type := credit_card; da_balance := 5000;
       da_apr := 2499 # 100; da_minimum_payment := Some 100;
       da_credit_limit := Some 10000; da_name := Some "High Interest Card" |};
    {| da_id := Some "cc2"; da_type := credit_card; da_balance := 500;
       da_apr := 1899 # 100; da_minimum_payment := Some 25;
       da_credit_limit := Some 3000; da_name := Some "Low Balance Card" |};
    {| da_id := Some "loan1"; da_type := personal_loan; da_balance := 8000;
       da_apr := 12; da_minimum_payment := Some 200;
       da_credit_limit := None; da_name := Some "Personal Loan" |} ].

Definition testStates : list DebtState :=
  imap (fun i d => DebtSimulator.initializeDebtState d i) testDebts.

(** Two cards that both amortize: 200.00 at 24% APR with a minimum payment
    of 25.00, and 500.00 at 30% APR with a minimum payment of 200.00. *)
Definition twoCards : list DebtAccount :=
  [ {| da_id := Some "a"; da_type := credit_card; da_balance := 200; da_apr := 24;
       da_minimum_payment := Some 25; da_credit_limit := None; da_name := Some "A" |};
    {| da_id := Some "b"; da_type := credit_card; da_balance := 500; da_apr := 30;
       da_minimum_payment := Some 200; da_credit_limit := None; da_name := Some "B" |} ].

(** A card of 20000.00 at 30% APR whose minimum payment of 100.00 does not
    cover its monthly interest of 500.00, and a loan of 12000.00 at 1% APR
    with a minimum payment equal to its monthly interest of 10.00. *)
Definition underwater : list DebtAccount :=
  [ {| da_id := Some "a"; da_type := credit_card; da_balance := 20000; da_apr := 30;
       da_minimum_payment := Some 100; da_credit_limit := None; da_name := Some "A" |};
    {| da_id := Some "b"; da_type := personal_loan; da_balance := 12000; da_apr := 1;
       da_minimum_payment := Some 10; da_credit_limit := None; da_name := Some "B" |} ].

(** Two loans at the same 12% APR. *)
Definition sameRate : list DebtAccount :=
  [ {| da_id := Some "x"; da_type := personal_loan; da_balance := 3000; da_apr := 12;
       da_minimum_payment := Some 100; da_credit_limit := None; da_name := None |};
    {| da_id := Some "y"; da_type := auto_loan; da_balance := 1000; da_apr := 12;
       da_minimum_payment := Some 50; da_credit_limit := None; da_name := None |} ].

(** The profile of the repository's tests: 6000 of income, 3000 of fixed
    expenses, 20000 of liquid assets, one credit card. *)
Definition healthyProfile : AffordTypes.UserFinancialProfile :=
  {| AffordTypes.monthly_income := 6000;
     AffordTypes.monthly_fixed_expenses := 3000;
     AffordTypes.cash_balance := 15000;
     AffordTypes.savings_balance := Some 5000;
     AffordTypes.emergency_fund := None;
     AffordTypes.debts :=
       [ {| da_id := None; da_type := credit_card; da_balance := 2000;
            da_apr := 1899 # 100; da_minimum_payment := Some 50;
            da_credit_limit := Some 10000; da_name := None |} ] |}.

(** The same household without income. *)
Definition noIncomeProfile : AffordTypes.UserFinancialProfile :=
  {| AffordTypes.monthly_income := 0;
     AffordTypes.monthly_fixed_expenses := 3000;
     AffordTypes.cash_balance := 15000;
     AffordTypes.savings_balance := Some 5000;
     AffordTypes.emergency_fund := None;
     AffordTypes.debts := [] |}.

(** 100000.00 on a credit card, 100000.00 in cash, 50.00 by debit. *)
Definition hugeCardPurchase : AffordTypes.PurchaseRequest :=
  {| AffordTypes.amount := 100000; AffordTypes.payment_method := AffordTypes.pm_credit_card;
     AffordTypes.financing_terms := None |}.

Definition hugeCashPurchase : AffordTypes.PurchaseRequest :=
  {| AffordTypes.amount := 100000; AffordTypes.payment_method := AffordTypes.pm_cash;
     AffordTypes.financing_terms := None |}.

Definition smallPurchase : AffordTypes.PurchaseRequest :=
  {| AffordTypes.amount := 50; AffordTypes.payment_method := AffordTypes.pm_debit;
     AffordTypes.financing_terms := None |}.

End Examples.

(* ===================================================================== *)
(** * Orders, invariants and further example inputs                       *)
(* ===================================================================== *)

Module Behaviour.

Import PayoffStrategies DebtSimulator.

(** [a] may stand in front of [b] in the avalanche order: a higher APR,
    or the same APR and a balance that is not larger. *)
Definition avalancheOrder (a b : DebtState) : Prop :=
  ds_apr b < ds_apr a \/ (ds_apr a == ds_apr b /\ ds_balance a <= ds_balance b).

(** [a] may stand in front of [b] in the snowball order: a smaller
    balance, or the same balance and an APR that is not lower. *)
Definition snowballOrder (a b : DebtState) : Prop :=
  ds_balance a < ds_balance b \/ (ds_balance a == ds_balance b /\ ds_apr b <= ds_apr a).

(** What a simulation never changes in a debt: everything but the balance
    and the paid-off flag. *)
Definition sameAccount (d d' : DebtState) : Prop :=
  ds_id d' = ds_id d /\ ds_name d' = ds_name d /\ ds_type d' = ds_type d /\
  ds_apr d' = ds_apr d /\ ds_minimumPayment d' = ds_minimumPayment d /\
  ds_creditLimit d' = ds_creditLimit d.

(** The debt states a simulation starts from. *)
Definition initialStates (debts : list DebtAccount) : list DebtState :=
  imap (fun i d => initializeDebtState d i) debts.

(** Input as the request schema admits it, as far as the simulation reads
    it: an APR and a supplied minimum payment that are not negative. *)
Definition admissible (d : DebtAccount) : Prop :=
  0 <= da_apr d /\ forall m, da_minimum_payment d = Some m -> 0 <= m.

(** What [validateDebtAccount] checks of a debt: a supplied minimum payment
    other than zero does not exceed the balance, and on a credit card a
    supplied credit limit other than zero is not below the balance. *)
Definition debtConsistent (d : DebtAccount) : Prop :=
  (forall m, da_minimum_payment d = Some m -> ~ m == 0 -> m <= da_balance d) /\
  (da_type d = credit_card ->
   forall l, da_credit_limit d = Some l -> ~ l == 0 -> da_balance d <= l).

(** ** Further example inputs *)

(** Three active debts with the same balance and different APRs. *)
Definition evenBalances : list DebtState :=
  [ {| ds_id := "p"; ds_name := "P"; ds_type := personal_loan;
       ds_balance := 1000; ds_apr := 8; ds_minimumPayment := 50;
       ds_creditLimit := None; ds_isPaidOff := false |};
    {| ds_id := "q"; ds_name := "Q"; ds_type := credit_card;
       ds_balance := 1000; ds_apr := 22; ds_minimumPayment := 30;
       ds_creditLimit := Some 5000; ds_isPaidOff := false |};
    {| ds_id := "r"; ds_name := "R"; ds_type := auto_loan;
       ds_balance := 1000; ds_apr := 15; ds_minimumPayment := 40;
       ds_creditLimit := None; ds_isPaidOff := false |} ].

(** Three debts without ids. *)
Definition anonymousDebts : list DebtAccount :=
  [ {| da_id := None; da_type := medical_debt; da_balance := 1200; da_apr := 0;
       da_minimum_payment := Some 100; da_credit_limit := None; da_name := None |};
    {| da_id := None; da_type := auto_loan; da_balance := 9000; da_apr := 6;
       da_minimum_payment := None; da_credit_limit := None; da_name := None |};
    {| da_id := None; da_type := credit_card; da_balance := 700; da_apr := 21;
       da_minimum_payment := Some 35; da_credit_limit := Some 2000; da_name := None |} ].

(** A household with 500 of monthly cashflow, 8000 of liquid assets and
    12000 of debt, and the impact of a 3000 purchase on a credit card. *)
Definition strainedMetrics : AffordTypes.AffordabilityMetrics :=
  {| AffordTypes.monthlyIncome := 4000;
     AffordTypes.monthlyExpenses := 3000;
     AffordTypes.monthlyDebtPayments := 500;
     AffordTypes.monthlyCashflow := 500;
     AffordTypes.liquidAssets := 8000;
     AffordTypes.totalDebt := 12000;
     AffordTypes.debtToIncomeRatio := 125 # 1000;
     AffordTypes.creditUtilization := 40 # 100;
     AffordTypes.emergencyFundMonths := 8000 # 3500;
     AffordTypes.savingsRate := 125 # 1000 |}.

Definition strainedImpact : AffordTypes.PurchaseImpact :=
  {| AffordTypes.projectedCashBalance := 8000;
     AffordTypes.monthsOfBufferRemaining := 8000 # 3500;
     AffordTypes.newMonthlyCashflow := Some 440;
     AffordTypes.newDebtToIncomeRatio := Some (14 # 100);
     AffordTypes.creditUtilizationChange := Some (30 # 100);
     AffordTypes.bufferConsumptionPercent := 0;
     AffordTypes.purchaseToIncomeRatio := 75 # 100 |}.

Definition cardPurchase3000 : AffordTypes.PurchaseRequest :=
  {| AffordTypes.amount := 3000;
     AffordTypes.payment_method := AffordTypes.pm_credit_card;
     AffordTypes.financing_terms := None |}.

End Behaviour.

(* ===================================================================== *)
(** * Facts about numbers                                                 *)
(* ===================================================================== *)

Lemma leb_reflect (x y : Q) : reflect (x <= y) (x <=? y).
Proof.
  unfold Num.leb. destruct (Qle_bool x y) eqn:E; constructor.
  - by apply Qle_bool_iff.
  - intros H. apply Qle_bool_iff in H. congruence.
Qed.

Lemma ltb_reflect (x y : Q) : reflect (x < y) (x <? y).
Proof.
  unfold Num.ltb. destruct (Qle_bool y x) eqn:E; constructor; simpl.
  - apply Qle_bool_iff in E. by apply Qle_not_lt.
  - apply Qnot_le_lt. intros H. apply Qle_bool_iff in H. congruence.
Qed.

Lemma eqb_reflect (x y : Q) : reflect (x == y) (x =? y).
Proof.
  unfold Num.eqb. destruct (Qeq_bool x y) eqn:E; constructor.
  - by apply Qeq_bool_iff.
  - intros H. apply Qeq_bool_iff in H. congruence.
Qed.

Lemma Qeq_of_eq (x y : Q) : x = y -> x == y.
Proof. by intros ->. Qed.

Lemma ltb_negb_leb (x y : Q) : (x <? y) = negb (y <=? x).
Proof. reflexivity. Qed.

Lemma isActive_guard (d : DebtState) :
  (ds_isPaidOff d || (ds_balance d <=? 0)) = negb (isActive d).
Proof.
  unfold isActive. rewrite ltb_negb_leb. by destruct (ds_isPaidOff d), (ds_balance d <=? 0).
Qed.

Lemma Qmax_0_nonneg (x : Q) : 0 <= Qmax 0 x.
Proof. apply Q.le_max_l. Qed.

(** Rounded amounts: an integer number of cents, read back as dollars. *)
Lemma cents_nonneg (x : Q) : 0 <= x -> 0 <= inject_Z (Qfloor x) / 100.
Proof.
  intros Hx.
  assert (0 <= Qfloor x)%Z as Hz.
  { rewrite <- (Qfloor_Z 0). by apply Qfloor_resp_le. }
  apply Qle_shift_div_l; [reflexivity|].
  rewrite Qmult_0_l. change 0 with (inject_Z 0). by rewrite <- Zle_Qle.
Qed.

Lemma cents_nonpos (x : Q) : x <= 0 -> inject_Z (Qfloor x) / 100 <= 0.
Proof.
  intros Hx.
  assert (Qfloor x <= 0)%Z as Hz.
  { rewrite <- (Qfloor_Z 0). by apply Qfloor_resp_le. }
  apply Qle_shift_div_r; [reflexivity|].
  rewrite Qmult_0_l. change 0 with (inject_Z 0). by rewrite <- Zle_Qle.
Qed.

Lemma cents_positive (x : Q) : 1 <= x -> 1 # 100 <= inject_Z (Qfloor x) / 100.
Proof.
  intros Hx.
  assert (1 <= Qfloor x)%Z as Hz.
  { rewrite <- (Qfloor_Z 1). by apply Qfloor_resp_le. }
  apply Qle_shift_div_l; [reflexivity|].
  assert ((1 # 100) * 100 == inject_Z 1) as E by reflexivity.
  rewrite E. by rewrite <- Zle_Qle.
Qed.

(** [toDisplayDollars] keeps the sign and does not round a half cent or
    more below zero up to zero. *)
Lemma toDisplayDollars_nonneg (x : Q) : 0 <= x -> 0 <= Money.toDisplayDollars x.
Proof.
  intros Hx. unfold Money.toDisplayDollars.
  destruct (leb_reflect 0 x) as [_|N]; [|contradiction].
  rewrite Qred_correct. apply cents_nonneg. lra.
Qed.

Lemma toDisplayDollars_nonpos (x : Q) : x <= 0 -> Money.toDisplayDollars x <= 0.
Proof.
  intros Hx. unfold Money.toDisplayDollars.
  destruct (leb_reflect 0 x) as [P|N]; rewrite Qred_correct.
  - assert (x == 0) as E by lra.
    assert (x * 100 + (1 # 2) == 1 # 2) as E' by (rewrite E; reflexivity).
    rewrite E'. vm_compute. discriminate.
  - pose proof (cents_nonneg (- x * 100 + (1 # 2))) as H. lra.
Qed.

Lemma toDisplayDollars_negative (x : Q) :
  x <= - (1 # 200) -> Money.toDisplayDollars x < 0.
Proof.
  intros Hx. unfold Money.toDisplayDollars.
  destruct (leb_reflect 0 x) as [P|N]; [lra|]. rewrite Qred_correct.
  pose proof (cents_positive (- x * 100 + (1 # 2))) as H. lra.
Qed.

(* ===================================================================== *)
(** * The monthly step: what the loop computes                            *)
(* ===================================================================== *)

Section MonthLoop.

Import PayoffStrategies DebtSimulator Summary.

Opaque payDebt.

Variable alloc : gmap string Q.

Lemma processDebt_updatedDebts acc d :
  updatedDebts (processDebt alloc acc d) = updatedDebts acc ++ [stepDebt alloc d].
Proof.
  unfold processDebt, stepDebt.
  destruct (ds_isPaidOff d || (ds_balance d <=? 0)); [done|].
  by destruct (payDebt d (default 0 (alloc !! ds_id d))).
Qed.

Lemma processDebt_payments acc d :
  payments (processDebt alloc acc d) = payments acc ++ option_list (stepPayment alloc d).
Proof.
  unfold processDebt, stepPayment.
  destruct (ds_isPaidOff d || (ds_balance d <=? 0)); simpl; [by rewrite app_nil_r|].
  by destruct (payDebt d (default 0 (alloc !! ds_id d))).
Qed.

Lemma processDebt_debtsPaidOff acc d :
  debtsPaidOff (processDebt alloc acc d) =
  debtsPaidOff acc ++
  (if isActive d && ds_isPaidOff (stepDebt alloc d) then [ds_id d] else []).
Proof.
  unfold processDebt, stepDebt. rewrite isActive_guard.
  destruct (payDebt d (default 0 (alloc !! ds_id d))) as [p b].
  destruct (isActive d), b; simpl; rewrite ?app_nil_r; done.
Qed.

Lemma loop_updatedDebts debts acc :
  updatedDebts (fold_left (processDebt alloc) debts acc) =
  updatedDebts acc ++ map (stepDebt alloc) debts.
Proof.
  revert acc. induction debts as [|d debts IH]; intros acc; simpl.
  - by rewrite app_nil_r.
  - rewrite IH, processDebt_updatedDebts, <- app_assoc. done.
Qed.

Lemma loop_payments debts acc :
  payments (fold_left (processDebt alloc) debts acc) =
  payments acc ++ omap (stepPayment alloc) debts.
Proof.
  revert acc. induction debts as [|d debts IH]; intros acc; simpl.
  - by rewrite app_nil_r.
  - rewrite IH, processDebt_payments, <- app_assoc. f_equal.
    by destruct (stepPayment alloc d).
Qed.

Lemma loop_debtsPaidOff debts acc :
  debtsPaidOff (fold_left (processDebt alloc) debts acc) =
  debtsPaidOff acc ++
  map ds_id (filter (fun d => (isActive d && ds_isPaidOff (stepDebt alloc d)) = true) debts).
Proof.
  revert acc. induction debts as [|d debts IH]; intros acc; simpl.
  - by rewrite app_nil_r.
  - rewrite IH, processDebt_debtsPaidOff, <- app_assoc. f_equal.
    rewrite filter_cons. destruct (isActive d && ds_isPaidOff (stepDebt alloc d)) eqn:E.
    + rewrite decide_True by done. done.
    + rewrite decide_False by (by intros ?). done.
Qed.

(** The payments of a month are the payments of its active debts, in the
    order of the array. *)
Lemma omap_stepPayment debts :
  omap (stepPayment alloc) debts =
  map (fun d => fst (payDebt d (default 0 (alloc !! ds_id d))))
      (filter (fun d => isActive d = true) debts).
Proof.
  induction debts as [|d debts IH]; [done|]. simpl. rewrite filter_cons.
  unfold stepPayment at 1. rewrite isActive_guard.
  destruct (isActive d) eqn:E; simpl.
  - f_equal. apply IH.
  - apply IH.
Qed.

Transparent payDebt.

End MonthLoop.

Lemma simulateMonth_debts debts extra strategy month tot freed :
  ms_debts (DebtSimulator.simulateMonth debts extra strategy month tot freed) =
  map (Summary.stepDebt (Summary.monthAllocations debts extra strategy freed)) debts.
Proof. unfold DebtSimulator.simulateMonth. simpl. by rewrite loop_updatedDebts. Qed.

Lemma simulateMonth_payments debts extra strategy month tot freed :
  ms_payments (DebtSimulator.simulateMonth debts extra strategy month tot freed) =
  map (fun d => fst (DebtSimulator.payDebt d
         (default 0 (Summary.monthAllocations debts extra strategy freed !! ds_id d))))
      (filter (fun d => isActive d = true) debts).
Proof.
  unfold DebtSimulator.simulateMonth. simpl.
  by rewrite loop_payments, omap_stepPayment.
Qed.

Lemma simulateMonth_debtsPaidOff debts extra strategy month tot freed :
  ms_debtsPaidOffThisMonth (DebtSimulator.simulateMonth debts extra strategy month tot freed) =
  map ds_id
      (filter (fun d => (isActive d &&
                         ds_isPaidOff (Summary.stepDebt
                           (Summary.monthAllocations debts extra strategy freed) d)) = true)
              debts).
Proof. unfold DebtSimulator.simulateMonth. simpl. by rewrite loop_debtsPaidOff. Qed.

(* ===================================================================== *)
(** * The repository's tests, replayed on the model                       *)
(* ===================================================================== *)

(** [sortByAvalanche]: cc1 (24.99%), cc2 (18.99%), loan1 (12%). *)
Example test_sort_avalanche :
  map ds_id (PayoffStrategies.sortByAvalanche Examples.testStates) = ["cc1"; "cc2"; "loan1"].
Proof. reflexivity. Qed.

(** [sortBySnowball]: cc2 (500), cc1 (5000), loan1 (8000). *)
Example test_sort_snowball :
  map ds_id (PayoffStrategies.sortBySnowball Examples.testStates) = ["cc2"; "cc1"; "loan1"].
Proof. reflexivity. Qed.

Example test_sort_hybrid_length :
  length (PayoffStrategies.sortByHybrid Examples.testStates) = 3%nat.
Proof. reflexivity. Qed.

(** An empty debt array: no month, no interest, no schedule. *)
Example test_empty_debts :
  let result := DebtSimulator.simulateStrategy [] avalanche 200 360 in
  sr_totalMonths result = 0%nat /\ sr_totalInterestPaid result == 0 /\
  sr_schedule result = [].
Proof. vm_compute. repeat split. Qed.

(** Avalanche with 200.00 of extra: three payoffs, 32 months, and the first
    month charges cc1 104.13 of interest. *)
Example test_avalanche_200 :
  let result := DebtSimulator.simulateStrategy Examples.testDebts avalanche 200 360 in
  sr_totalMonths result = 32%nat /\
  map po_debtId (sr_payoffOrder result) = ["cc1"; "cc2"; "loan1"] /\
  (dp_interestPaid <$> (head (sr_schedule result) ≫= fun m => head (ms_payments m)))
  = Some (10413 # 100).
Proof. vm_compute. repeat split. Qed.

(** The month cap is respected. *)
Example test_max_months :
  length (sr_schedule
            (DebtSimulator.simulateStrategy Examples.testDebts minimum_only 0 24)) = 24%nat.
Proof. vm_compute. reflexivity. Qed.

(** Four strategies are compared; on the test debts avalanche pays 3037.43
    of interest and snowball 3081.21. *)
Example test_compare :
  let comparison := DebtSimulator.compareStrategies Examples.testDebts 200 360 in
  map sr_strategy (sc_strategies comparison) = [avalanche; snowball; hybrid; minimum_only] /\
  map (fun r => Qred (sr_totalInterestPaid r)) (take 2 (sc_strategies comparison))
  = [303743 # 100; 308121 # 100].
Proof. vm_compute. repeat split. Qed.

(** With 50000.00 of extra the allocation to cc1 is capped at its balance
    of 5000.00, its minimum payment of 100.00 is below the first month's
    interest of 104.13, and 4.13 remains after month one: the simulation
    takes two months. *)
Example test_very_high_extra :
  let result := DebtSimulator.simulateStrategy Examples.testDebts avalanche 50000 360 in
  sr_totalMonths result = 2%nat /\
  map po_monthsToPayoff (sr_payoffOrder result) = [1; 1; 2]%nat.
Proof. vm_compute. repeat split. Qed.

(** [calculateMetrics] on the healthy profile: cashflow 2950, liquid assets
    20000, credit utilization 0.2. *)
Example test_metrics :
  (fun m => (AffordTypes.monthlyCashflow m, AffordTypes.liquidAssets m,
             AffordTypes.creditUtilization m))
    <$> AffordCalculator.calculateMetrics Examples.healthyProfile
  = Some (2950, 20000, 1 # 5).
Proof. reflexivity. Qed.

(** A small purchase by a healthy household: YES with confidence 1; a
    purchase of 100000.00 in cash: NO with a projected balance of -80000. *)
Example test_decisions :
  (fun r => (AffordTypes.ac_decision r, AffordTypes.ac_confidence r))
    <$> AffordCalculator.calculateAffordability Examples.healthyProfile Examples.smallPurchase
  = Some (AffordTypes.YES, 1) /\
  (fun r => (AffordTypes.ac_decision r,
             AffordTypes.projectedCashBalance (AffordTypes.ac_impact r)))
    <$> AffordCalculator.calculateAffordability Examples.healthyProfile
                                                Examples.hugeCashPurchase
  = Some (AffordTypes.NO, - (80000)).
Proof. vm_compute. repeat split. Qed.

(* ===================================================================== *)
(** * The monthly step: the recorded payments (C1)                        *)
(* ===================================================================== *)

Global Instance toDisplayDollars_comp : Proper (Qeq ==> eq) Money.toDisplayDollars.
Proof.
  intros x y E. unfold Money.toDisplayDollars, Num.leb.
  rewrite (Qleb_comp 0 0 (Qeq_refl 0) x y E).
  destruct (Qle_bool 0 y); apply Qred_complete; by rewrite E.
Qed.

Lemma add_pair (a b : Q) : Money.add [a; b] == a + b.
Proof. unfold Money.add, Money.money. simpl. ring. Qed.

Lemma subtract_one (a b : Q) : Money.subtract a [b] = a - b.
Proof. reflexivity. Qed.

(** The payment computed for an active debt, field by field. *)
Lemma payDebt_rounded (d : DebtState) (extra : Q) :
  Spec.paymentRounded extra d (fst (DebtSimulator.payDebt d extra)) /\
  snd (DebtSimulator.payDebt d extra) = (Spec.newBalanceRounded extra d <=? (1 # 100)).
Proof.
  unfold Spec.paymentRounded, Spec.newBalanceRounded, DebtSimulator.payDebt.
  cbn [fst snd dp_debtId dp_paymentAmount dp_interestPaid dp_principalPaid
       dp_remainingBalance].
  rewrite subtract_one. unfold Money.multiply.
  rewrite (toDisplayDollars_comp _ _ (add_pair (ds_balance d) _)).
  repeat split; reflexivity.
Qed.



(* ===================================================================== *)
(** * The minimum-payment estimators (C2)                                 *)
(* ===================================================================== *)

Global Instance roundCents_comp : Proper (Qeq ==> eq) Num.roundCents.
Proof.
  intros x y E. unfold Num.roundCents, Num.mathRound.
  apply Qred_complete. by rewrite E.
Qed.

Lemma roundCents_0 (x : Q) : x == 0 -> Num.roundCents x == 0.
Proof. intros E. by rewrite (roundCents_comp _ _ E). Qed.

Lemma leb_comp (x x' y y' : Q) : x == x' -> y == y' -> (x <=? y) = (x' <=? y').
Proof. intros E1 E2. unfold Num.leb. by rewrite E1, E2. Qed.

Lemma ltb_comp (x x' y y' : Q) : x == x' -> y == y' -> (x <? y) = (x' <? y').
Proof. intros E1 E2. unfold Num.ltb. by rewrite E1, E2. Qed.

(** The amortization formula divides by [(1 + r)^n - 1].  The division is
    not guarded by the source; for a positive monthly rate, the only case
    that reaches it on validated input (APR between 0 and 100), the
    denominator is positive. *)
Lemma amortization_denominator_positive (r : Q) (n : positive) :
  0 < r -> 0 < (1 + r) ^ (Z.pos n) - 1.
Proof.
  intros Hr. induction n as [|n IH] using Pos.peano_ind.
  - simpl. lra.
  - rewrite Pos2Z.inj_succ. unfold Z.succ.
    rewrite Qpower_plus by lra.
    assert ((1 + r) ^ 1 == 1 + r) as E by (simpl; reflexivity).
    rewrite E. nra.
Qed.

(** The amortized payment of the simulator agrees with the reference
    definition on balances that are not negative. *)
Lemma calculateAmortizedPayment_spec (balance apr : Q) (n : positive) :
  0 <= balance ->
  DebtSimulator.calculateAmortizedPayment balance apr n ==
  Spec.amortizedAsSpecified balance apr n.
Proof.
  intros Hb. unfold DebtSimulator.calculateAmortizedPayment, Spec.amortizedAsSpecified.
  destruct (leb_reflect balance 0) as [Hle|Hgt].
  - assert (balance == 0) as E by lra.
    destruct (eqb_reflect (apr / 100 / 12) 0).
    + rewrite E. reflexivity.
    + symmetry. apply roundCents_0. rewrite E. unfold Qdiv. ring.
  - destruct (eqb_reflect (apr / 100 / 12) 0); [reflexivity|].
    apply Qeq_of_eq, roundCents_comp. unfold Qdiv. ring.
Qed.

(** The amortized payment of the calculator rounds in both branches. *)
Lemma calculator_amortized (balance apr : Q) (n : positive) :
  (if apr / 100 / 12 =? 0
   then q ← Money.divide balance (inject_Z (Z.pos n)); Some (Money.toDisplayDollars q)
   else Some (Num.roundCents (AffordCalculator.amortization balance (apr / 100 / 12) n)))
  = Some (Spec.amortizedAllRounded balance apr n).
Proof.
  unfold Spec.amortizedAllRounded, AffordCalculator.amortization.
  destruct (apr / 100 / 12 =? 0).
  - unfold Money.divide. by destruct (eqb_reflect (inject_Z (Z.pos n)) 0) as [E|_].
  - f_equal. apply roundCents_comp. unfold Qdiv. ring.
Qed.

(** The calculator's estimate, for every account. *)
Lemma calculator_minimum_rounded (debt : DebtAccount) :
  AffordCalculator.calculateMinimumPayment debt = Some (Spec.minimumPaymentAllRounded debt).
Proof.
  unfold AffordCalculator.calculateMinimumPayment, Spec.minimumPaymentAllRounded,
    Money.multiply, Thresholds.DEBT_PAYOFF_MIN_PAYMENT_FLOOR,
    Thresholds.DEBT_PAYOFF_MIN_CREDIT_CARD_PAYMENT_PERCENT.
  destruct (da_minimum_payment debt) as [m|]; [reflexivity|].
  destruct (da_type debt); try apply calculator_amortized;
    f_equal; f_equal; apply toDisplayDollars_comp; ring.
Qed.

(** The slip of the simulator's credit-card estimate: [Math.max] takes the
    balance itself as a third argument, so the estimate is the whole
    balance as soon as the balance reaches the 25.00 floor. *)
Lemma simulator_credit_card_minimum :
  Spec.simulatorMinimum Examples.creditCard5000 == 5000 /\
  Spec.minimumPaymentAsSpecified Examples.creditCard5000 == 100.
Proof. split; vm_compute; reflexivity. Qed.




(** For the car loan the two estimators differ by the rounding: 100/60
    against 1.67. *)
Lemma car_loan_estimates :
  Spec.simulatorMinimum Examples.carLoan == 100 / 60 /\
  AffordCalculator.calculateMinimumPayment Examples.carLoan = Some (167 # 100).
Proof. split; [vm_compute; reflexivity | reflexivity]. Qed.

(* ===================================================================== *)
(** * The extra-payment allocation (C3)                                   *)
(* ===================================================================== *)

Lemma fold_left_Qplus (l : list Q) (a : Q) :
  fold_left Qplus l a == a + fold_left Qplus l 0.
Proof.
  revert a. induction l as [|x l IH]; intros a; simpl.
  - ring.
  - rewrite (IH (a + x)), (IH (0 + x)). ring.
Qed.

Lemma sumList_cons (x : Q) (l : list Q) : Num.sumList (x :: l) == x + Num.sumList l.
Proof. unfold Num.sumList. simpl. rewrite fold_left_Qplus. ring. Qed.

Lemma isActive_balance (d : DebtState) : isActive d = true -> 0 < ds_balance d.
Proof.
  unfold isActive. intros H. apply andb_prop in H as [_ H].
  by destruct (ltb_reflect 0 (ds_balance d)).
Qed.

Lemma isActive_not_paid (d : DebtState) : isActive d = true -> ds_isPaidOff d = false.
Proof.
  unfold isActive. intros H. apply andb_prop in H as [H _]. by destruct (ds_isPaidOff d).
Qed.

Lemma sumList_active_nonneg (l : list DebtState) :
  Forall (fun d => isActive d = true) l -> 0 <= Num.sumList (map ds_balance l).
Proof.
  induction 1 as [|d l Hd _ IH]; simpl.
  - vm_compute. discriminate.
  - rewrite sumList_cons. apply isActive_balance in Hd. lra.
Qed.

Section Allocation.

Import PayoffStrategies.

(** The loop writes only at the ids of the debts it walks over. *)
Lemma allocateLoop_other (sorted : list DebtState) (R : Q) (m : gmap string Q) (i : string) :
  i ∉ map ds_id sorted -> allocateLoop sorted R m !! i = m !! i.
Proof.
  revert R m. induction sorted as [|d sorted IH]; intros R m Hi; simpl; [done|].
  apply not_elem_of_cons in Hi as [Hne Hi].
  destruct (R <=? 0); [done|].
  destruct (ds_isPaidOff d || (ds_balance d <=? 0)); [by apply IH|].
  destruct (Qmin R (ds_balance d) <? ds_balance d).
  - by rewrite lookup_insert_ne.
  - rewrite IH by done. by rewrite lookup_insert_ne.
Qed.

Lemma waterfallShare_exhausted (sorted : list DebtState) (R : Q) (k : nat) (d : DebtState) :
  0 < ds_balance d ->
  R - Num.sumList (map ds_balance (take k sorted)) <= 0 ->
  Spec.waterfallShare sorted R k d == 0.
Proof.
  intros Hb Hr. unfold Spec.waterfallShare.
  rewrite (Q.max_l 0 _ Hr). apply Q.min_r. lra.
Qed.

(** The closed form of the loop, from any budget [R] and any allocation
    map that holds nothing yet for the debts still to be walked over. *)
Lemma allocateLoop_waterfall (sorted : list DebtState) :
  forall (R : Q) (m : gmap string Q),
    NoDup (map ds_id sorted) ->
    Forall (fun d => isActive d = true) sorted ->
    Forall (fun d => default 0 (m !! ds_id d) == 0) sorted ->
    forall (k : nat) (d : DebtState),
      sorted !! k = Some d ->
      default 0 (allocateLoop sorted R m !! ds_id d) == Spec.waterfallShare sorted R k d.
Proof.
  induction sorted as [|d0 rest IH]; intros R m Hnd Hact Hzero k d Hk; [done|].
  pose proof (isActive_balance _ (Forall_lookup_1 _ _ _ _ Hact Hk)) as Hb.
  pose proof (Forall_lookup_1 _ _ _ _ Hzero Hk) as Hz. simpl in Hz.
  assert (0 <= Num.sumList (map ds_balance (take k (d0 :: rest)))) as Hsum.
  { by apply sumList_active_nonneg, Forall_take. }
  change (map ds_id (d0 :: rest)) with (ds_id d0 :: map ds_id rest) in Hnd.
  apply NoDup_cons in Hnd as [Hfresh Hnd].
  apply Forall_cons in Hact as [Hact0 Hact].
  apply Forall_cons in Hzero as [Hzero0 Hzero].
  pose proof (isActive_balance _ Hact0) as Hb0.
  simpl allocateLoop.
  destruct (leb_reflect R 0) as [HR|HR].
  { (* the budget is used up: nothing is written *)
    rewrite waterfallShare_exhausted by (done || lra). exact Hz. }
  rewrite isActive_guard, Hact0. simpl negb. cbv iota.
  assert (forall d', d' ∈ rest -> ds_id d' <> ds_id d0) as Hne.
  { intros d' Hin E. apply Hfresh. rewrite <- E. by apply list_elem_of_fmap_2. }
  destruct (ltb_reflect (Qmin R (ds_balance d0)) (ds_balance d0)) as [Hpart|Hfull].
  - (* the debt in front is not fully covered: the walk stops here *)
    assert (R < ds_balance d0) as HRb.
    { destruct (Q.min_spec R (ds_balance d0)) as [[? E]|[? E]]; rewrite E in Hpart; lra. }
    destruct k as [|k]; simpl in Hk.
    + injection Hk as <-. rewrite lookup_insert_eq. simpl.
      unfold Spec.waterfallShare. simpl take. simpl map.
      assert (R - Num.sumList [] == R) as E by (unfold Num.sumList; simpl; ring).
      rewrite E, (Q.max_r 0 R) by lra. apply Q.min_comm.
    + assert (d ∈ rest) as Hin by by apply list_elem_of_lookup_2 in Hk.
      rewrite lookup_insert_ne by (intros E; by apply (Hne d Hin)).
      rewrite waterfallShare_exhausted.
      * exact Hz.
      * done.
      * simpl take. simpl map. rewrite sumList_cons.
        pose proof (sumList_active_nonneg (take k rest) (Forall_take _ _ _ Hact)). lra.
  - (* the debt in front is fully covered: the rest of the budget moves on *)
    assert (ds_balance d0 <= R) as HRb.
    { destruct (Q.min_spec R (ds_balance d0)) as [[? E]|[? E]]; rewrite E in Hfull; lra. }
    assert (Qmin R (ds_balance d0) == ds_balance d0) as Emin by (apply Q.min_r; lra).
    destruct k as [|k]; simpl in Hk.
    + injection Hk as <-.
      rewrite allocateLoop_other by done. rewrite lookup_insert_eq. simpl.
      unfold Spec.waterfallShare. simpl take. simpl map.
      assert (R - Num.sumList [] == R) as E by (unfold Num.sumList; simpl; ring).
      rewrite E, (Q.max_r 0 R) by lra. rewrite Emin. symmetry. apply Q.min_l. lra.
    + assert (d ∈ rest) as Hin by by apply list_elem_of_lookup_2 in Hk.
      rewrite (IH (R - Qmin R (ds_balance d0)) _ Hnd Hact) with (k := k) by
        (try done; apply Forall_forall; intros d' Hd';
         rewrite lookup_insert_ne by (intros E; by apply (Hne d' Hd'));
         by apply (proj1 (Forall_forall _ _) Hzero)).
      unfold Spec.waterfallShare. simpl take. simpl map.
      rewrite sumList_cons, Emin.
      assert (R - ds_balance d0 - Num.sumList (map ds_balance (take k rest)) ==
              R - (ds_balance d0 + Num.sumList (map ds_balance (take k rest)))) as E by ring.
      by rewrite E.
Qed.

End Allocation.

Lemma initial_allocations_zero (debts : list DebtState) (m : gmap string Q) (i : string) :
  default 0 (m !! i) = 0 ->
  default 0 (fold_left (fun m d => <[ds_id d := 0]> m) debts m !! i) = 0.
Proof.
  revert m. induction debts as [|d debts IH]; intros m Hm; simpl; [done|].
  apply IH. destruct (decide (ds_id d = i)) as [->|Hne].
  - by rewrite lookup_insert_eq.
  - by rewrite lookup_insert_ne.
Qed.

(** C3, the claim as the specification states it, fails: with 300.00 of
    extra and a top-priority debt of 100.00, the debt next in priority is
    allocated the remaining 200.00 in the same month. *)
Lemma C3_counterexample :
  ~ Spec.singleTargetClaim [Examples.cardA; Examples.cardB] 300 avalanche 0.
Proof.
  unfold Spec.singleTargetClaim. intros H. vm_compute in H.
  destruct H as [_ H]. inversion H as [|? ? Hb _]. discriminate.
Qed.

(** C3, amended: the allocation walks the priority order and gives each
    active debt what is left of the budget (user extra plus freed
    minimums) after the balances of the debts in front of it, capped at its
    own balance.  The top-priority debt receives min(budget, balance); when
    the budget exceeds that balance, the overflow goes to the debts next in
    priority within the same month. *)
Theorem C3_allocation_waterfall
        (debts sortedDebts : list DebtState) (extraPayment freedUpMinimums : Q)
        (k : nat) (d : DebtState) :
  NoDup (map ds_id sortedDebts) ->
  Forall (fun d => isActive d = true) sortedDebts ->
  sortedDebts !! k = Some d ->
  let alloc :=
    PayoffStrategies.allocateExtraPayments debts sortedDebts extraPayment freedUpMinimums in
  default 0 (alloc !! ds_id d) ==
    Spec.waterfallShare sortedDebts (extraPayment + freedUpMinimums) k d /\
  default 0 (alloc !! ds_id d) <= ds_balance d.
Proof.
  intros Hnd Hact Hk alloc.
  assert (default 0 (alloc !! ds_id d) ==
          Spec.waterfallShare sortedDebts (extraPayment + freedUpMinimums) k d) as E.
  { apply allocateLoop_waterfall; try done.
    apply Forall_forall. intros d' _. apply Qeq_of_eq, initial_allocations_zero.
    by rewrite lookup_empty. }
  split; [exact E|]. rewrite E. apply Q.le_min_l.
Qed.

Lemma C3_allocation_witness :
  NoDup (map ds_id [Examples.cardA; Examples.cardB]) /\
  Forall (fun d => isActive d = true) [Examples.cardA; Examples.cardB] /\
  [Examples.cardA; Examples.cardB] !! 1%nat = Some Examples.cardB /\
  (let alloc :=
     PayoffStrategies.allocateExtraPayments
       [Examples.cardA; Examples.cardB] [Examples.cardA; Examples.cardB] 300 0 in
   default 0 (alloc !! ds_id Examples.cardB) ==
     Spec.waterfallShare [Examples.cardA; Examples.cardB] (300 + 0) 1 Examples.cardB /\
   default 0 (alloc !! ds_id Examples.cardB) <= ds_balance Examples.cardB).
Proof.
  assert (NoDup (map ds_id [Examples.cardA; Examples.cardB])) as H1.
  { apply (bool_decide_unpack _). vm_compute. exact I. }
  assert (Forall (fun d => isActive d = true) [Examples.cardA; Examples.cardB]) as H2.
  { repeat constructor. }
  assert ([Examples.cardA; Examples.cardB] !! 1%nat = Some Examples.cardB) as H3
    by reflexivity.
  exact (conj H1 (conj H2 (conj H3
    (C3_allocation_waterfall [Examples.cardA; Examples.cardB]
       [Examples.cardA; Examples.cardB] 300 0 1 Examples.cardB H1 H2 H3)))).
Defined.

(** Each sorter returns the active debts of the array, reordered: with
    distinct ids in the array, the priority order of every strategy meets
    the conditions of the closed form. *)
Section Sorters.

Import PayoffStrategies.

Lemma insertSorted_Permutation {A : Type} (cmp : A -> A -> Q) (x : A) (l : list A) :
  insertSorted cmp x l ≡ₚ x :: l.
Proof.
  induction l as [|y l IH]; simpl; [done|].
  destruct (0 <? cmp x y); [|done]. rewrite IH. apply Permutation_swap.
Qed.

Lemma jsSort_Permutation {A : Type} (cmp : A -> A -> Q) (l : list A) :
  jsSort cmp l ≡ₚ l.
Proof.
  induction l as [|x l IH]; simpl; [done|].
  fold (jsSort cmp l). by rewrite insertSorted_Permutation, IH.
Qed.

Lemma sorter_Permutation (strategy : DebtStrategy) (debts : list DebtState) :
  getStrategySorter strategy debts ≡ₚ filter (fun d => isActive d = true) debts.
Proof.
  destruct strategy; simpl.
  - apply jsSort_Permutation.
  - apply jsSort_Permutation.
  - unfold sortByHybrid.
    destruct (filter (fun d => isActive d = true) debts) as [|d0 active] eqn:E; [done|].
    rewrite <- E. clear E.
    set (score := fun debt : DebtState => _).
    change (map fst (jsSort ?c ?l)) with (fst <$> jsSort c l).
    rewrite jsSort_Permutation.
    change (fst <$> map score ?l) with (map fst (map score l)).
    rewrite map_map. simpl. by rewrite map_id.
  - done.
Qed.

Lemma sorter_priority_order (strategy : DebtStrategy) (debts : list DebtState) :
  NoDup (map ds_id debts) ->
  NoDup (map ds_id (getStrategySorter strategy debts)) /\
  Forall (fun d => isActive d = true) (getStrategySorter strategy debts).
Proof.
  intros Hnd. split.
  - change (map ds_id ?l) with (ds_id <$> l).
    rewrite (sorter_Permutation strategy debts).
    apply (sublist_NoDup _ (ds_id <$> debts)); [exact Hnd|].
    apply (fmap_sublist ds_id), sublist_filter.
  - rewrite (sorter_Permutation strategy debts).
    apply Forall_forall. intros d Hd. by apply list_elem_of_filter in Hd as [Hd _].
Qed.

(** The allocation of a simulated month, in closed form. *)
Lemma monthAllocations_waterfall
      (debts : list DebtState) (extraPayment : Q) (strategy : DebtStrategy)
      (freedUpMinimums : Q) (k : nat) (d : DebtState) :
  NoDup (map ds_id debts) ->
  getStrategySorter strategy debts !! k = Some d ->
  default 0 (Summary.monthAllocations debts extraPayment strategy freedUpMinimums !! ds_id d)
  == Spec.waterfallShare (getStrategySorter strategy debts)
                         (extraPayment + freedUpMinimums) k d.
Proof.
  intros Hnd Hk. destruct (sorter_priority_order strategy debts Hnd) as [H1 H2].
  unfold Summary.monthAllocations, allocateExtraPayments.
  apply allocateLoop_waterfall; try done.
  apply Forall_forall. intros d' _. apply Qeq_of_eq, initial_allocations_zero.
  by rewrite lookup_empty.
Qed.

End Sorters.

(** In the example the second debt receives 200.00. *)
Lemma allocation_overflow_example :
  default 0 (PayoffStrategies.allocateExtraPayments
               [Examples.cardA; Examples.cardB] [Examples.cardA; Examples.cardB] 300 0
             !! "b") == 200.
Proof. vm_compute. reflexivity. Qed.

(* ===================================================================== *)
(** * Avalanche against snowball (C4)                                     *)
(* ===================================================================== *)

Section SortExt.

Import PayoffStrategies.

Context {A : Type} (P : A -> Prop) (cmp1 cmp2 : A -> A -> Q).
Hypothesis same_sign : forall x y, P x -> P y -> (0 <? cmp1 x y) = (0 <? cmp2 x y).

Lemma insertSorted_Forall (cmp : A -> A -> Q) (x : A) (l : list A) :
  P x -> Forall P l -> Forall P (insertSorted cmp x l).
Proof.
  intros Hx. induction 1 as [|y l Hy Hl IH]; simpl.
  - by repeat constructor.
  - destruct (0 <? cmp x y); by repeat constructor.
Qed.

Lemma jsSort_Forall (cmp : A -> A -> Q) (l : list A) :
  Forall P l -> Forall P (jsSort cmp l).
Proof.
  induction 1 as [|x l Hx Hl IH]; simpl; [constructor|].
  by apply insertSorted_Forall.
Qed.

Lemma insertSorted_ext (x : A) (l : list A) :
  P x -> Forall P l -> insertSorted cmp1 x l = insertSorted cmp2 x l.
Proof.
  intros Hx. induction 1 as [|y l Hy Hl IH]; simpl; [done|].
  rewrite (same_sign x y Hx Hy), IH. done.
Qed.

(** The sorted list depends on the comparator only through the sign it
    returns. *)
Lemma jsSort_ext (l : list A) : Forall P l -> jsSort cmp1 l = jsSort cmp2 l.
Proof.
  induction 1 as [|x l Hx Hl IH]; simpl; [done|].
  fold (jsSort cmp1 l). fold (jsSort cmp2 l). rewrite IH.
  apply insertSorted_ext; [done|]. by apply jsSort_Forall.
Qed.

End SortExt.

Section SameRate.

Import PayoffStrategies DebtSimulator Summary.

Variable rate : Q.

Local Abbreviation atRate := (Summary.atRate rate).

Lemma filter_Forall {A : Type} (P Q : A -> Prop) `{forall x, Decision (Q x)} (l : list A) :
  Forall P l -> Forall P (filter Q l).
Proof.
  intros Hl. apply Forall_forall. intros x Hx.
  apply list_elem_of_filter in Hx as [_ Hx]. by apply (proj1 (Forall_forall _ _) Hl).
Qed.

Lemma comparators_same_sign (a b : DebtState) :
  atRate a -> atRate b -> (0 <? avalancheCmp a b) = (0 <? snowballCmp a b).
Proof.
  unfold Summary.atRate, avalancheCmp, snowballCmp. intros Ha Hb.
  destruct (eqb_reflect (ds_apr b) (ds_apr a)) as [_|N]; [|exfalso; apply N; by rewrite Ha, Hb].
  simpl negb. cbv iota.
  destruct (eqb_reflect (ds_balance a) (ds_balance b)) as [E|_]; [|done].
  simpl negb. cbv iota. apply ltb_comp; [reflexivity|]. rewrite E, Ha, Hb. ring.
Qed.

Lemma sorters_agree (debts : list DebtState) :
  Forall atRate debts -> sortByAvalanche debts = sortBySnowball debts.
Proof.
  intros H. unfold sortByAvalanche, sortBySnowball.
  apply (jsSort_ext atRate); [apply comparators_same_sign|].
  by apply filter_Forall.
Qed.

Lemma simulateMonth_agree debts extra month tot freed :
  Forall atRate debts ->
  simulateMonth debts extra avalanche month tot freed =
  simulateMonth debts extra snowball month tot freed.
Proof.
  intros H. unfold simulateMonth. cbn [getStrategySorter].
  by rewrite (sorters_agree debts H).
Qed.

Lemma driverStep_debtStates strategy extra ob st :
  debtStates (driverStep strategy extra ob st) =
  ms_debts (simulateMonth (debtStates st) extra strategy (S (month st))
                          (totalInterestPaid st) (freedUpMinimums st)).
Proof. unfold driverStep. by destruct (fold_left _ _ _). Qed.

Lemma stepDebt_apr alloc d : ds_apr (stepDebt alloc d) = ds_apr d.
Proof. unfold stepDebt. by destruct (ds_isPaidOff d || (ds_balance d <=? 0)). Qed.

Lemma driverStep_atRate strategy extra ob st :
  Forall atRate (debtStates st) ->
  Forall atRate (debtStates (driverStep strategy extra ob st)).
Proof.
  intros H. rewrite driverStep_debtStates, simulateMonth_debts.
  apply Forall_fmap. eapply Forall_impl; [exact H|].
  intros d Hd. unfold Summary.atRate, compose in *. by rewrite stepDebt_apr.
Qed.

Lemma driverStep_agree extra ob st :
  Forall atRate (debtStates st) ->
  driverStep avalanche extra ob st = driverStep snowball extra ob st.
Proof. intros H. unfold driverStep. by rewrite (simulateMonth_agree _ _ _ _ _ H). Qed.

Lemma driverLoop_agree extra ob remaining st :
  Forall atRate (debtStates st) ->
  driverLoop avalanche extra ob remaining st = driverLoop snowball extra ob remaining st.
Proof.
  revert st. induction remaining as [|n IH]; intros st H; simpl; [done|].
  destruct (hasRemainingDebt (debtStates st)); simpl; [|done].
  rewrite (driverStep_agree _ _ _ H). apply IH. by apply driverStep_atRate.
Qed.

Lemma initial_atRate (debts : list DebtAccount) :
  Forall (fun d => da_apr d == rate) debts ->
  Forall atRate (imap (fun i d => initializeDebtState d i) debts).
Proof.
  intros H. apply Forall_lookup. intros i d Hi.
  apply list_lookup_imap_Some in Hi as (a & Ha & ->).
  exact (Forall_lookup_1 _ _ _ _ H Ha).
Qed.

Lemma simulateStrategy_agree debts extra maxMonths :
  Forall (fun d => da_apr d == rate) debts ->
  sr_totalInterestPaid (simulateStrategy debts avalanche extra maxMonths) =
  sr_totalInterestPaid (simulateStrategy debts snowball extra maxMonths).
Proof.
  intros H. unfold simulateStrategy. cbn [sr_totalInterestPaid].
  by rewrite (driverLoop_agree extra _ maxMonths
                (initialDriver (imap (fun i d => initializeDebtState d i) debts))
                (initial_atRate debts H)).
Qed.

End SameRate.

(** With 500.00 of extra on the two cards, avalanche allocates the whole
    budget to the 30% card, which needs 312.50 of it; the rest is not
    passed on, and the 24% card runs a second month on its full balance.
    Snowball covers the 200.00 card first and passes 300.00 on.  Both
    strategies finish in two months. *)
Lemma two_cards_totals :
  let av := DebtSimulator.simulateStrategy Examples.twoCards avalanche 500 360 in
  let sn := DebtSimulator.simulateStrategy Examples.twoCards snowball 500 360 in
  sr_totalMonths av = 2%nat /\ sr_totalInterestPaid av == 2008 # 100 /\
  sr_totalMonths sn = 2%nat /\ sr_totalInterestPaid sn == 1681 # 100.
Proof. vm_compute. repeat split. Qed.

Lemma two_cards_first_month :
  let states := imap (fun i d => DebtSimulator.initializeDebtState d i) Examples.twoCards in
  let av := Summary.monthAllocations states 500 avalanche 0 in
  let sn := Summary.monthAllocations states 500 snowball 0 in
  (av !! "a" = Some 0 /\ av !! "b" = Some 500) /\
  (sn !! "a" = Some 200 /\ sn !! "b" = Some 300).
Proof. vm_compute. repeat split. Qed.

(** When the payment on the highest-rate debt does not cover its interest,
    every extra dollar sent to it by avalanche is recorded as interest
    paid, while snowball sends it to principal of the other debt: 120.00
    against 110.00 after one month, 43200.00 against 39003.82 at the cap
    of 360 months. *)
Lemma underwater_totals :
  sr_totalInterestPaid (DebtSimulator.simulateStrategy Examples.underwater avalanche 10 1)
    == 120 /\
  sr_totalInterestPaid (DebtSimulator.simulateStrategy Examples.underwater snowball 10 1)
    == 110 /\
  sr_totalInterestPaid (DebtSimulator.simulateStrategy Examples.underwater avalanche 10 360)
    == 43200 /\
  sr_totalInterestPaid (DebtSimulator.simulateStrategy Examples.underwater snowball 10 360)
    == 3900382 # 100.
Proof. vm_compute. repeat split. Qed.




(* ===================================================================== *)
(** * The affordability calculator returns for every input               *)
(* ===================================================================== *)

Section Calculator.

Import AffordTypes AffordRules AffordCalculator.

Lemma sumMinimumPayments_total (debts : list DebtAccount) (total : Q) :
  is_Some (sumMinimumPayments total debts).
Proof.
  revert total. induction debts as [|d debts IH]; intros total; simpl; [by eexists|].
  rewrite calculator_minimum_rounded. simpl. apply IH.
Qed.

Lemma divide_nonzero (a d : Q) : ~ d == 0 -> Money.divide a d = Some (a / d).
Proof. intros H. unfold Money.divide. by destruct (eqb_reflect d 0). Qed.

Lemma calculateCreditUtilization_total (debts : list DebtAccount) :
  exists cu, calculateCreditUtilization debts = Some cu /\
             (Spec.utilizationLimitTotal debts == 0 -> cu == 0).
Proof.
  unfold calculateCreditUtilization, Spec.utilizationLimitTotal.
  destruct (filter _ debts) as [|c cards] eqn:E.
  - exists 0. split; [done|]. intros _. reflexivity.
  - unfold Money.isZero.
    destruct (eqb_reflect (Money.sum (map (fun d => default 0 (da_credit_limit d)) (c :: cards))) 0)
      as [Z|NZ].
    + exists 0. split; [done|]. intros _. reflexivity.
    + rewrite divide_nonzero by done. simpl. eexists. split; [done|]. intros Z. contradiction.
Qed.

Lemma add_triple (a b c : Q) : Money.add [a; b; c] == a + b + c.
Proof. unfold Money.add, Money.money. simpl. ring. Qed.

(** [calculateMetrics] returns for every profile, and its guards give 0. *)
Lemma calculateMetrics_total (profile : UserFinancialProfile) :
  exists metrics,
    calculateMetrics profile = Some metrics /\
    monthlyIncome metrics = monthly_income profile /\
    liquidAssets metrics = Spec.liquidAssetsOf profile /\
    (monthly_income profile == 0 ->
       debtToIncomeRatio metrics == 0 /\ savingsRate metrics == 0) /\
    (monthlyExpenses metrics + monthlyDebtPayments metrics == 0 ->
       emergencyFundMonths metrics == 0) /\
    (Spec.utilizationLimitTotal (debts profile) == 0 -> creditUtilization metrics == 0).
Proof.
  unfold calculateMetrics.
  destruct (sumMinimumPayments_total (debts profile) 0) as [dp ->].
  destruct (calculateCreditUtilization_total (debts profile)) as (cu & -> & Hcu).
  simpl. eexists. split; [reflexivity|].
  cbn [monthlyIncome liquidAssets debtToIncomeRatio savingsRate monthlyExpenses
       monthlyDebtPayments emergencyFundMonths creditUtilization].
  split; [reflexivity|]. split.
  { unfold Spec.liquidAssetsOf. apply toDisplayDollars_comp, add_triple. }
  split; [|split; [|exact Hcu]].
  - intros Hz. split.
    + destruct (ltb_reflect 0 (monthly_income profile * 12)); [lra|reflexivity].
    + destruct (ltb_reflect 0 (monthly_income profile)); [lra|reflexivity].
  - intros Hz.
    destruct (ltb_reflect 0 (monthly_fixed_expenses profile + dp)); [lra|reflexivity].
Qed.

(** The [switch] of [calculatePurchaseImpact] returns for every payment
    method. *)
Lemma methodImpact_total (metrics : AffordabilityMetrics) (purchase : PurchaseRequest)
      (profile : UserFinancialProfile) :
  exists projected cashflow dti change,
    methodImpact metrics purchase profile = Some (projected, cashflow, dti, change) /\
    (Spec.paidFromLiquidAssets (payment_method purchase) = true ->
       projected = Money.toDisplayDollars (liquidAssets metrics - amount purchase)) /\
    (payment_method purchase = pm_credit_card ->
       projected = liquidAssets metrics /\
       (Spec.purchaseLimitTotal (debts profile) == 0 -> change = None)) /\
    (monthlyIncome metrics == 0 -> forall r, dti = Some r -> r == 0).
Proof.
  unfold methodImpact.
  destruct (payment_method purchase) eqn:Hm; simpl.
  - (* cash *) do 4 eexists. split; [reflexivity|]. repeat split; try done.
  - (* debit *) do 4 eexists. split; [reflexivity|]. repeat split; try done.
  - (* credit card *)
    fold (Spec.purchaseLimitTotal (debts profile)). unfold Money.isZero.
    destruct (eqb_reflect (Spec.purchaseLimitTotal (debts profile)) 0) as [Z|NZ]; simpl.
    + do 4 eexists. split; [reflexivity|]. repeat split; try done.
      intros Hi r [= <-].
      destruct (ltb_reflect 0 (monthlyIncome metrics * 12)); [lra|reflexivity].
    + rewrite divide_nonzero by done. simpl.
      do 4 eexists. split; [reflexivity|]. repeat split; try done.
      intros Hi r [= <-].
      destruct (ltb_reflect 0 (monthlyIncome metrics * 12)); [lra|reflexivity].
  - (* buy now, pay later *)
    do 4 eexists. split; [reflexivity|]. repeat split; try done.
  - (* financing *)
    destruct (financing_terms purchase) as [terms|]; simpl.
    + do 4 eexists. split; [reflexivity|]. repeat split; try done.
      intros Hi r [= <-].
      destruct (ltb_reflect 0 (monthlyIncome metrics * 12)); [lra|reflexivity].
    + do 4 eexists. split; [reflexivity|]. repeat split; try done.
  - (* savings *) do 4 eexists. split; [reflexivity|]. repeat split; try done.
  - (* mixed *)
    do 4 eexists. split; [reflexivity|]. repeat split; try done.
Qed.

(** [calculatePurchaseImpact] returns for every input; its guards give 0
    for the buffer months and 1 for the buffer consumption and the
    purchase-to-income ratio. *)
Lemma calculatePurchaseImpact_total (metrics : AffordabilityMetrics)
      (purchase : PurchaseRequest) (profile : UserFinancialProfile) :
  exists impact,
    calculatePurchaseImpact metrics purchase profile = Some impact /\
    (Spec.paidFromLiquidAssets (payment_method purchase) = true ->
       projectedCashBalance impact =
       Money.toDisplayDollars (liquidAssets metrics - amount purchase)) /\
    (payment_method purchase = pm_credit_card ->
       projectedCashBalance impact = liquidAssets metrics /\
       (Spec.purchaseLimitTotal (debts profile) == 0 ->
        creditUtilizationChange impact = None)) /\
    (monthlyIncome metrics == 0 ->
       purchaseToIncomeRatio impact == 1 /\
       forall r, newDebtToIncomeRatio impact = Some r -> r == 0) /\
    (monthlyExpenses metrics + monthlyDebtPayments metrics == 0 ->
       monthsOfBufferRemaining impact == 0) /\
    (liquidAssets metrics == 0 -> bufferConsumptionPercent impact == 1) /\
    (projectedCashBalance impact <= 0 -> monthsOfBufferRemaining impact == 0).
Proof.
  unfold calculatePurchaseImpact.
  destruct (methodImpact_total metrics purchase profile)
    as (projected & cashflow & dti & change & -> & Hliquid & Hcard & Hdti).
  simpl. eexists. split; [reflexivity|].
  cbn [projectedCashBalance creditUtilizationChange purchaseToIncomeRatio
       newDebtToIncomeRatio monthsOfBufferRemaining bufferConsumptionPercent].
  split; [exact Hliquid|]. split; [exact Hcard|]. split; [|split; [|split]].
  - intros Hz. split; [|by apply Hdti].
    destruct (ltb_reflect 0 (monthlyIncome metrics)); [lra|reflexivity].
  - intros Hz.
    destruct (ltb_reflect 0 (monthlyExpenses metrics + monthlyDebtPayments metrics));
      [lra|reflexivity].
  - intros Hz. destruct (ltb_reflect 0 (liquidAssets metrics)); [lra|reflexivity].
  - intros Hp.
    destruct (ltb_reflect 0 (monthlyExpenses metrics + monthlyDebtPayments metrics))
      as [He|_]; [|reflexivity].
    apply Q.max_l. apply Qle_shift_div_r; [exact He|]. lra.
Qed.

End Calculator.

(* ===================================================================== *)
(** * Score, decision and confidence (C5)                                 *)
(* ===================================================================== *)

Section Decision.

Import AffordTypes AffordRules AffordCalculator.

Lemma fold_left_plus_map {A : Type} (f : A -> Q) (l : list A) (a : Q) :
  fold_left (fun sum r => sum + f r) l a == a + Num.sumList (map f l).
Proof.
  revert a. induction l as [|x l IH]; intros a; simpl.
  - unfold Num.sumList. simpl. ring.
  - rewrite IH, sumList_cons. ring.
Qed.

Lemma sumList_passed (l : list RuleResult) :
  Num.sumList (map (fun r => if passed r then weight r else 0) l) ==
  Num.sumList (map weight (filter (fun r => passed r = true) l)).
Proof.
  induction l as [|r l IH]; [reflexivity|].
  simpl map. rewrite sumList_cons, IH, filter_cons.
  destruct (passed r); simpl.
  - by rewrite sumList_cons.
  - ring.
Qed.

Lemma sumList_nonneg (l : list Q) : Forall (fun x => 0 <= x) l -> 0 <= Num.sumList l.
Proof.
  induction 1 as [|x l Hx _ IH]; [vm_compute; discriminate|].
  rewrite sumList_cons. lra.
Qed.

(** Every rule returns a weight that is not negative, so the zero-weight
    results are the ones whose weight is not positive. *)
Lemma rule_weights_nonneg metrics impact purchaseAmount :
  Forall (fun r => 0 <= weight r)
         (map (fun rule : RuleFunction => rule metrics impact purchaseAmount) ALL_RULES).
Proof.
  unfold ALL_RULES. simpl map.
  repeat apply Forall_cons_2; try apply Forall_nil_2.
  - vm_compute. discriminate.
  - vm_compute. discriminate.
  - vm_compute. discriminate.
  - unfold creditUtilizationRule.
    destruct (creditUtilizationChange impact); vm_compute; discriminate.
  - vm_compute. discriminate.
  - unfold purchaseSizeRule.
    repeat match goal with |- context [if ?b then _ else _] => destruct b end;
      vm_compute; discriminate.
  - vm_compute. discriminate.
  - unfold luxuryWhileInDebtRule.
    destruct (debtToIncomeRatio metrics <=? Thresholds.DEBT_TO_INCOME_GOOD);
      vm_compute; discriminate.
Qed.

Lemma applicable_filters_agree (l : list RuleResult) :
  Forall (fun r => 0 <= weight r) l ->
  filter (fun r => (0 <? weight r) = true) l =
  filter (fun r => (weight r =? 0) = false) l.
Proof.
  induction 1 as [|r l Hr _ IH]; [done|].
  rewrite !filter_cons, IH.
  destruct (ltb_reflect 0 (weight r)), (eqb_reflect (weight r) 0); simpl; try done; lra.
Qed.

Lemma positive_head_weight (r : RuleResult) (rest : list RuleResult) :
  0 < weight r ->
  Forall (fun r => 0 <= weight r) rest ->
  0 < Num.sumList (map weight (filter (fun r => (0 <? weight r) = true) (r :: rest))).
Proof.
  intros Hr Hrest.
  rewrite filter_cons_True by (by destruct (ltb_reflect 0 (weight r))).
  change (map weight (r :: ?l)) with (weight r :: map weight l).
  rewrite sumList_cons.
  assert (0 <= Num.sumList (map weight (filter (fun r => (0 <? weight r) = true) rest))) as H.
  { by apply sumList_nonneg, Forall_fmap, filter_Forall. }
  lra.
Qed.

(** The first rule always applies: the total weight is positive. *)
Lemma total_weight_positive metrics impact purchaseAmount :
  0 < Num.sumList
        (map weight
             (filter (fun r => (0 <? weight r) = true)
                     (map (fun rule : RuleFunction => rule metrics impact purchaseAmount)
                          ALL_RULES))).
Proof.
  pose proof (rule_weights_nonneg metrics impact purchaseAmount) as Hnn.
  unfold ALL_RULES in *.
  change (map ?f (?x :: ?l)) with (f x :: map f l) in *.
  apply Forall_cons in Hnn as [_ Hnn].
  apply positive_head_weight; [reflexivity|exact Hnn].
Qed.

Lemma weightedScore_spec metrics impact purchaseAmount :
  weightedScore (evaluateAffordabilityRules metrics impact purchaseAmount) ==
  Spec.weightedScoreAsSpecified
    (rules (evaluateAffordabilityRules metrics impact purchaseAmount)).
Proof.
  unfold evaluateAffordabilityRules, Spec.weightedScoreAsSpecified.
  cbn [weightedScore rules].
  set (results := map (fun rule : RuleFunction => rule metrics impact purchaseAmount) ALL_RULES).
  rewrite <- (applicable_filters_agree results (rule_weights_nonneg _ _ _)).
  set (applicable := filter (fun r => (0 <? weight r) = true) results).
  pose proof (total_weight_positive metrics impact purchaseAmount) as Hpos.
  fold results in Hpos. fold applicable in Hpos.
  assert (fold_left (fun sum r => sum + weight r) applicable 0 ==
          Num.sumList (map weight applicable)) as Et.
  { rewrite fold_left_plus_map. ring. }
  assert (fold_left (fun sum r => sum + (if passed r then weight r else 0)) applicable 0 ==
          Num.sumList (map weight (filter (fun r => passed r = true) applicable))) as Es.
  { rewrite (fold_left_plus_map (fun r => if passed r then weight r else 0)).
    rewrite sumList_passed. ring. }
  destruct (ltb_reflect 0 (fold_left (fun sum r => sum + weight r) applicable 0)) as [_|N].
  - by rewrite Es, Et.
  - exfalso. apply N. by rewrite Et.
Qed.

Lemma thresholdDecision_comp (x y : Q) :
  x == y -> Spec.thresholdDecision x = Spec.thresholdDecision y.
Proof.
  intros E. unfold Spec.thresholdDecision.
  by rewrite !(leb_comp _ _ x y (Qeq_refl _) E).
Qed.

Lemma suggestedDecision_threshold metrics impact purchaseAmount :
  suggestedDecision (evaluateAffordabilityRules metrics impact purchaseAmount) =
  Spec.thresholdDecision
    (weightedScore (evaluateAffordabilityRules metrics impact purchaseAmount)).
Proof. reflexivity. Qed.

(** The assignments of [calculateAffordability], in program order, against
    the override table of the specification. *)
Lemma finalDecisionOf_spec metrics impact ruleEvaluation :
  finalDecisionOf metrics impact ruleEvaluation =
  if projectedCashBalance impact <? 0 then NO
  else if monthsOfBufferRemaining impact <? (1 # 2) then NO
  else match suggestedDecision ruleEvaluation with
       | YES => if emergencyFundMonths metrics <? 2 then CONDITIONAL else YES
       | decision => decision
       end.
Proof.
  unfold finalDecisionOf.
  destruct (projectedCashBalance impact <? 0),
           (monthsOfBufferRemaining impact <? 1 # 2),
           (suggestedDecision ruleEvaluation),
           (emergencyFundMonths metrics <? 2); reflexivity.
Qed.

Lemma confidenceOf_spec impact ruleEvaluation decision score :
  weightedScore ruleEvaluation == score ->
  confidenceOf impact ruleEvaluation decision ==
  Spec.confidenceAsSpecified impact score decision.
Proof.
  intros E. unfold confidenceOf, Spec.confidenceAsSpecified, Num.clamp01.
  destruct decision, (monthsOfBufferRemaining impact <? 1); simpl; by rewrite E.
Qed.

End Decision.


(* ===================================================================== *)
(** * A purchase beyond liquid assets (C6)                                *)
(* ===================================================================== *)

(** C6, the claim as the specification states it, fails: 100000.00 charged
    to a credit card by a household with 20000.00 of liquid assets leaves
    the projected cash balance at 20000.00, and the decision is
    CONDITIONAL. *)
Lemma C6_counterexample :
  ~ Spec.exceedsLiquidAssetsClaim Examples.healthyProfile Examples.hugeCardPurchase.
Proof.
  intros H. destruct H as (result & Hr & Hd & _).
  { vm_compute. reflexivity. }
  vm_compute in Hr. injection Hr as <-. discriminate Hd.
Qed.

Lemma finalDecisionOf_low_buffer metrics impact ruleEvaluation :
  AffordTypes.monthsOfBufferRemaining impact < 1 # 2 ->
  AffordCalculator.finalDecisionOf metrics impact ruleEvaluation = AffordTypes.NO.
Proof.
  intros H. unfold AffordCalculator.finalDecisionOf.
  destruct (ltb_reflect (AffordTypes.monthsOfBufferRemaining impact) (1 # 2));
    [|contradiction].
  by destruct (AffordTypes.projectedCashBalance impact <? 0).
Qed.

(** C6, amended: for every profile and every purchase paid by cash, debit
    or savings whose amount exceeds the profile's total liquid assets,
    [calculateAffordability] returns decision NO and a projected cash
    balance that is not positive; the projected cash balance is below zero
    as soon as the excess is half a cent or more (so always, when amounts
    are whole cents). *)
Theorem C6_paid_from_liquid_assets
        (profile : AffordTypes.UserFinancialProfile)
        (purchase : AffordTypes.PurchaseRequest) :
  Spec.paidFromLiquidAssets (AffordTypes.payment_method purchase) = true ->
  Spec.liquidAssetsOf profile < AffordTypes.amount purchase ->
  exists result,
    AffordCalculator.calculateAffordability profile purchase = Some result /\
    AffordTypes.ac_decision result = AffordTypes.NO /\
    AffordTypes.projectedCashBalance (AffordTypes.ac_impact result) <= 0 /\
    (Spec.liquidAssetsOf profile + (1 # 200) <= AffordTypes.amount purchase ->
     AffordTypes.projectedCashBalance (AffordTypes.ac_impact result) < 0).
Proof.
  intros Hmethod Hamount. unfold AffordCalculator.calculateAffordability.
  destruct (calculateMetrics_total profile) as (metrics & -> & _ & Hliq & _).
  cbn [mbind option_bind].
  destruct (calculatePurchaseImpact_total metrics purchase profile)
    as (impact & -> & Hproj & _ & _ & _ & _ & Hbuffer).
  cbn [mbind option_bind]. eexists. split; [reflexivity|].
  cbn [AffordTypes.ac_decision AffordTypes.ac_impact].
  assert (AffordTypes.projectedCashBalance impact <= 0) as Hnonpos.
  { rewrite (Hproj Hmethod), Hliq. apply toDisplayDollars_nonpos. lra. }
  split; [|split; [exact Hnonpos|]].
  - apply finalDecisionOf_low_buffer. rewrite (Hbuffer Hnonpos). reflexivity.
  - intros Hhalf. rewrite (Hproj Hmethod), Hliq. apply toDisplayDollars_negative. lra.
Qed.

Lemma C6_paid_from_liquid_assets_witness :
  Spec.paidFromLiquidAssets (AffordTypes.payment_method Examples.hugeCashPurchase) = true /\
  Spec.liquidAssetsOf Examples.healthyProfile < AffordTypes.amount Examples.hugeCashPurchase /\
  exists result,
    AffordCalculator.calculateAffordability Examples.healthyProfile
                                            Examples.hugeCashPurchase = Some result /\
    AffordTypes.ac_decision result = AffordTypes.NO /\
    AffordTypes.projectedCashBalance (AffordTypes.ac_impact result) <= 0 /\
    (Spec.liquidAssetsOf Examples.healthyProfile + (1 # 200)
       <= AffordTypes.amount Examples.hugeCashPurchase ->
     AffordTypes.projectedCashBalance (AffordTypes.ac_impact result) < 0).
Proof.
  assert (Spec.paidFromLiquidAssets
            (AffordTypes.payment_method Examples.hugeCashPurchase) = true) as H1
    by reflexivity.
  assert (Spec.liquidAssetsOf Examples.healthyProfile
          < AffordTypes.amount Examples.hugeCashPurchase) as H2
    by (vm_compute; reflexivity).
  exact (conj H1 (conj H2
    (C6_paid_from_liquid_assets Examples.healthyProfile Examples.hugeCashPurchase H1 H2))).
Defined.

(* ===================================================================== *)
(** * Divisions and their zero denominators (C7)                          *)
(* ===================================================================== *)

(** C7, the claim as the specification states it, fails: with a monthly
    income of zero the purchase-to-income ratio is 1, not 0. *)
Lemma C7_counterexample :
  ~ Spec.guardedDivisions 0 0 (Some 0) Examples.noIncomeProfile Examples.hugeCashPurchase.
Proof.
  intros (metrics & impact & Hm & Hi & Hincome & _).
  vm_compute in Hm. injection Hm as <-.
  vm_compute in Hi. injection Hi as <-.
  destruct Hincome as (_ & _ & Hr & _); [reflexivity|].
  vm_compute in Hr. discriminate.
Qed.

(** C7, amended: no division of the metrics and impact calculations
    raises, and on a zero denominator each guarded division yields its
    default: 0 for the debt-to-income ratio (current and projected), the
    savings rate, the emergency-fund months, the credit utilization and the
    buffer months remaining; 1 for the purchase-to-income ratio (income
    zero) and for the buffer consumption (liquid assets zero); and no
    utilization change at all (null) for a credit-card purchase when the
    credit limit total is zero. *)
Theorem C7_guarded_divisions
        (profile : AffordTypes.UserFinancialProfile)
        (purchase : AffordTypes.PurchaseRequest) :
  Spec.guardedDivisions 1 1 None profile purchase.
Proof.
  destruct (calculateMetrics_total profile)
    as (metrics & Hm & Hinc & _ & Hincome & Hess & Hcu).
  destruct (calculatePurchaseImpact_total metrics purchase profile)
    as (impact & Hi & _ & Hcard & Hincome' & Hess' & Hliq & _).
  exists metrics, impact. split; [exact Hm|]. split; [exact Hi|].
  split; [|split; [|split; [|split]]].
  - intros Hz. destruct (Hincome Hz) as [H1 H2].
    rewrite <- Hinc in Hz. destruct (Hincome' Hz) as [H3 H4]. done.
  - intros Hz. split; [by apply Hess|by apply Hess'].
  - exact Hliq.
  - exact Hcu.
  - intros Hcc Hz. by apply (Hcard Hcc).
Qed.

(* ===================================================================== *)
(** * The invariant of the debt states (C8)                               *)
(* ===================================================================== *)

Section Invariant.

Import PayoffStrategies DebtSimulator Summary.

Lemma stepDebt_settled alloc d : settledOrOwing (stepDebt alloc d).
Proof.
  unfold settledOrOwing, stepDebt.
  destruct (ds_isPaidOff d || (ds_balance d <=? 0)); cbn [ds_balance ds_isPaidOff].
  - split; [apply Qle_refl|done].
  - unfold payDebt. cbn [fst snd dp_remainingBalance].
    match goal with |- context [if ?b then _ else _] => destruct b end.
    + split; [apply Qle_refl|done].
    + split; [apply Qmax_0_nonneg|discriminate].
Qed.

Lemma stepDebt_id alloc d : ds_id (stepDebt alloc d) = ds_id d.
Proof. unfold stepDebt. by destruct (ds_isPaidOff d || (ds_balance d <=? 0)). Qed.

Lemma stepDebt_stays_paid alloc d :
  ds_isPaidOff d = true -> ds_isPaidOff (stepDebt alloc d) = true.
Proof. intros H. unfold stepDebt. by rewrite H. Qed.

(** A debt that is paid off with balance 0 goes through a month unchanged. *)
Lemma stepDebt_paid_fixed alloc d :
  settledOrOwing d -> ds_isPaidOff d = true -> stepDebt alloc d = d.
Proof.
  intros [_ Hz] Hp. specialize (Hz Hp). unfold stepDebt. rewrite Hp. simpl.
  destruct d; simpl in *. by subst.
Qed.

Lemma payments_ids debts extra strategy month tot freed :
  map dp_debtId (ms_payments (simulateMonth debts extra strategy month tot freed)) =
  map ds_id (filter (fun d => isActive d = true) debts).
Proof. rewrite simulateMonth_payments, map_map. reflexivity. Qed.

Lemma active_sublist_unpaid (l : list DebtState) :
  filter (fun d => isActive d = true) l `sublist_of`
  filter (fun d => ds_isPaidOff d = false) l.
Proof.
  induction l as [|d l IH]; [done|]. rewrite !filter_cons.
  destruct (decide (isActive d = true)) as [Ha|Hn].
  - rewrite decide_True by (by apply isActive_not_paid). by constructor.
  - destruct (decide (ds_isPaidOff d = false)); [by constructor|done].
Qed.

Lemma unpaid_after_month alloc (l : list DebtState) :
  map ds_id (filter (fun d => ds_isPaidOff d = false) (map (stepDebt alloc) l))
  `sublist_of` map ds_id (filter (fun d => ds_isPaidOff d = false) l).
Proof.
  induction l as [|d l IH]; [done|].
  change (map (stepDebt alloc) (d :: l)) with (stepDebt alloc d :: map (stepDebt alloc) l).
  rewrite !filter_cons.
  destruct (decide (ds_isPaidOff (stepDebt alloc d) = false)) as [Hs|Hs].
  - rewrite decide_True.
    + simpl. rewrite stepDebt_id. by constructor.
    + destruct (ds_isPaidOff d) eqn:E; [|done].
      by rewrite (stepDebt_stays_paid alloc d E) in Hs.
  - destruct (decide (ds_isPaidOff d = false)); [|done]. simpl. by constructor.
Qed.

Lemma paid_unchanged_trans (l1 l2 l3 : list DebtState) :
  Forall2 (fun d d' => ds_isPaidOff d = true -> d' = d) l1 l2 ->
  Forall2 (fun d d' => ds_isPaidOff d = true -> d' = d) l2 l3 ->
  Forall2 (fun d d' => ds_isPaidOff d = true -> d' = d) l1 l3.
Proof.
  intros H12. revert l3. induction H12 as [|a b l1 l2 Hab _ IH]; intros l3 H23.
  - by inversion H23.
  - inversion H23 as [|? c ? l3' Hbc H23' E1 E2]; subst. constructor; [|by apply IH].
    intros Hp. specialize (Hab Hp). subst b. by apply Hbc.
Qed.

(** From any array that satisfies the invariant, through any number of
    months. *)
Lemma runMonths_invariant (params : list (Q * DebtStrategy * nat * Q * Q)) :
  forall debts : list DebtState,
    Forall settledOrOwing debts ->
    Forall (fun state =>
              Forall settledOrOwing (ms_debts state) /\
              Forall2 (fun d d' => ds_isPaidOff d = true -> d' = d) debts (ms_debts state) /\
              map dp_debtId (ms_payments state) `sublist_of`
              map ds_id (filter (fun d => ds_isPaidOff d = false) debts))
           (runMonths params debts).
Proof.
  induction params as [|[[[[extra strategy] month] tot] freed] params IH];
    intros debts Hinv; [constructor|].
  simpl runMonths.
  set (state := simulateMonth debts extra strategy month tot freed).
  assert (Forall settledOrOwing (ms_debts state)) as Hinv'.
  { subst state. rewrite simulateMonth_debts. apply Forall_fmap, Forall_forall.
    intros d _. apply stepDebt_settled. }
  assert (Forall2 (fun d d' => ds_isPaidOff d = true -> d' = d) debts (ms_debts state)) as Hkeep.
  { subst state. rewrite simulateMonth_debts.
    apply Forall2_fmap_r, Forall_Forall2_diag.
    eapply Forall_impl; [exact Hinv|]. intros d Hd Hp. by apply stepDebt_paid_fixed. }
  constructor.
  - split; [exact Hinv'|]. split; [exact Hkeep|].
    subst state. rewrite payments_ids. apply (fmap_sublist ds_id), active_sublist_unpaid.
  - eapply Forall_impl; [apply (IH (ms_debts state) Hinv')|].
    intros later (H1 & H2 & H3). split; [exact H1|]. split.
    + by apply (paid_unchanged_trans _ _ _ Hkeep).
    + etrans; [exact H3|]. subst state. rewrite simulateMonth_debts.
      apply unpaid_after_month.
Qed.

End Invariant.

(** C8: in the state that a monthly step produces every debt has a balance
    that is not negative and every paid-off debt has balance exactly 0; in
    every later month, whatever its parameters, the invariant holds again,
    each paid-off debt is carried over unchanged, and the payments recorded
    belong to debts that were not paid off (their ids are a sublist of the
    ids of the debts not yet paid off): a paid-off debt accrues no interest
    and receives no further payment entry. *)
Theorem C8_month_invariant
        (debts : list DebtState) (extraPayment : Q) (strategy : DebtStrategy)
        (month : nat) (totalInterestSoFar freedUpMinimums : Q)
        (later : list (Q * DebtStrategy * nat * Q * Q)) :
  let first := DebtSimulator.simulateMonth debts extraPayment strategy month
                                           totalInterestSoFar freedUpMinimums in
  Forall Summary.settledOrOwing (ms_debts first) /\
  Forall (fun state =>
            Forall Summary.settledOrOwing (ms_debts state) /\
            Forall2 (fun d d' => ds_isPaidOff d = true -> d' = d)
                    (ms_debts first) (ms_debts state) /\
            map dp_debtId (ms_payments state) `sublist_of`
            map ds_id (filter (fun d => ds_isPaidOff d = false) (ms_debts first)))
         (Summary.runMonths later (ms_debts first)).
Proof.
  intros first.
  assert (Forall Summary.settledOrOwing (ms_debts first)) as Hinv.
  { subst first. rewrite simulateMonth_debts. apply Forall_fmap, Forall_forall.
    intros d _. apply stepDebt_settled. }
  split; [exact Hinv|]. by apply runMonths_invariant.
Qed.

(* ===================================================================== *)
(** * The recommendation of the comparator (C9)                           *)
(* ===================================================================== *)

Lemma simulateStrategy_strategy debts strategy extra maxMonths :
  sr_strategy (DebtSimulator.simulateStrategy debts strategy extra maxMonths) = strategy.
Proof. reflexivity. Qed.

Lemma findStrategy_head (s : DebtStrategy) (r : StrategySimulationResult)
      (rest : list StrategySimulationResult) :
  sr_strategy r = s -> DebtSimulator.findStrategy s (r :: rest) = Some r.
Proof.
  intros E. unfold DebtSimulator.findStrategy. simpl.
  by rewrite bool_decide_eq_true_2.
Qed.

Lemma findStrategy_tail (s : DebtStrategy) (r : StrategySimulationResult)
      (rest : list StrategySimulationResult) :
  sr_strategy r <> s ->
  DebtSimulator.findStrategy s (r :: rest) = DebtSimulator.findStrategy s rest.
Proof.
  intros E. unfold DebtSimulator.findStrategy. simpl.
  by rewrite bool_decide_eq_false_2.
Qed.


(* ===================================================================== *)
(** * The driver and its month cap (C10)                                  *)
(* ===================================================================== *)

Section Driver.

Import PayoffStrategies DebtSimulator Summary.

Variables (strategy : DebtStrategy) (extra : Q) (ob : gmap string (Q * string)).

Lemma driverStep_month st : month (driverStep strategy extra ob st) = S (month st).
Proof. unfold driverStep. by destruct (fold_left _ _ _). Qed.

Lemma driverStep_schedule st :
  schedule (driverStep strategy extra ob st) =
  schedule st ++ [simulateMonth (debtStates st) extra strategy (S (month st))
                                (totalInterestPaid st) (freedUpMinimums st)].
Proof. unfold driverStep. by destruct (fold_left _ _ _). Qed.

(** What the loop adds to the schedule in at most [remaining] turns. *)
Lemma driverLoop_spec (remaining : nat) :
  forall st : Driver,
    let fin := driverLoop strategy extra ob remaining st in
    exists new : list MonthlySimulationState,
      schedule fin = schedule st ++ new /\
      month fin = (month st + length new)%nat /\
      (length new <= remaining)%nat /\
      map ms_month new = seq (S (month st)) (length new) /\
      (hasRemainingDebt (debtStates fin) = false \/ length new = remaining) /\
      (new <> [] -> hasRemainingDebt (debtStates st) = true) /\
      (forall i state, new !! i = Some state -> (S i < length new)%nat ->
                       hasRemainingDebt (ms_debts state) = true) /\
      debtStates fin = default (debtStates st) (ms_debts <$> last new).
Proof.
  induction remaining as [|n IH]; intros st; simpl.
  - exists []. rewrite app_nil_r.
    split; [done|]. split; [simpl; lia|]. split; [simpl; lia|]. split; [done|].
    split; [by right|]. split; [done|]. split; [by intros i s Hi|]. done.
  - destruct (hasRemainingDebt (debtStates st)) eqn:Hrem; simpl.
    + destruct (IH (driverStep strategy extra ob st))
        as (new & Hs & Hm & Hl & Hseq & Hend & Hne & Hmid & Hlast).
      set (state := simulateMonth (debtStates st) extra strategy (S (month st))
                                  (totalInterestPaid st) (freedUpMinimums st)) in *.
      exists (state :: new).
      rewrite driverStep_schedule in Hs. rewrite driverStep_month in Hm, Hseq.
      rewrite driverStep_debtStates in Hne, Hlast. fold state in Hs, Hne, Hlast.
      repeat split.
      * rewrite Hs, <- app_assoc. done.
      * rewrite Hm. simpl. lia.
      * simpl. lia.
      * simpl. by rewrite Hseq.
      * destruct Hend as [Hend|Hend]; [by left|right; simpl; lia].
      * intros i s Hi Hlt. destruct i as [|i]; simpl in Hi.
        -- injection Hi as <-. apply Hne. intros ->. simpl in Hlt. lia.
        -- apply (Hmid i s Hi). simpl in Hlt. lia.
      * rewrite Hlast. destruct new as [|s new]; [done|]. rewrite last_cons_cons.
        destruct (last (s :: new)) eqn:E; [done|]. by apply last_None in E.
    + exists []. rewrite app_nil_r.
      split; [done|]. split; [simpl; lia|]. split; [simpl; lia|]. split; [done|].
      split; [by left|]. split; [done|]. split; [by intros i s Hi|]. done.
Qed.

(** The closing loop appends one sentinel entry per debt still active. *)
Lemma fold_recordUnpaid (dip : gmap string Q) (maxMonths : nat)
      (l : list DebtState) (order : list PayoffEntry) :
  fold_left (recordUnpaid ob dip maxMonths) l order =
  order ++
  map (fun d => {| po_debtId := ds_id d;
                   po_debtName := ds_name d;
                   po_monthsToPayoff := maxMonths + 999;
                   po_interestPaid := default 0 (dip !! ds_id d);
                   po_originalBalance := from_option fst 0 (ob !! ds_id d) |})
      (filter (fun d => isActive d = true) l).
Proof.
  revert order. induction l as [|d l IH]; intros order; simpl.
  - by rewrite app_nil_r.
  - rewrite IH, filter_cons. unfold recordUnpaid.
    destruct (isActive d) eqn:E; simpl.
    + by rewrite <- app_assoc.
    + done.
Qed.

End Driver.


(* ===================================================================== *)
(** * Further properties of the code                                      *)
(* ===================================================================== *)

(** ** The two roundings to cents *)

Lemma Qfloor_half (z : Z) : Qfloor (inject_Z z + (1 # 2)) = z.
Proof.
  pose proof (Qfloor_le (inject_Z z + (1 # 2))) as H1.
  pose proof (Qlt_floor (inject_Z z + (1 # 2))) as H2.
  set (f := Qfloor (inject_Z z + (1 # 2))) in *.
  rewrite inject_Z_plus in H2. change (inject_Z 1) with 1 in H2.
  assert (f <= z)%Z.
  { apply Znot_gt_le. intros C.
    assert (z + 1 <= f)%Z as C' by lia.
    rewrite Zle_Qle, inject_Z_plus in C'.
    change (inject_Z 1) with 1 in C'. lra. }
  assert (z <= f)%Z.
  { apply Znot_gt_le. intros C.
    assert (f + 1 <= z)%Z as C' by lia.
    rewrite Zle_Qle, inject_Z_plus in C'. change (inject_Z 1) with 1 in C'. lra. }
  lia.
Qed.

Lemma roundCents_eq (x : Q) :
  Num.roundCents x == inject_Z (Qfloor (x * 100 + (1 # 2))) / 100.
Proof. unfold Num.roundCents, Num.mathRound. apply Qred_correct. Qed.

Lemma roundCents_bounds (x : Q) :
  x - (1 # 200) < Num.roundCents x /\ Num.roundCents x <= x + (1 # 200).
Proof.
  rewrite roundCents_eq.
  pose proof (Qfloor_le (x * 100 + (1 # 2))) as H1.
  pose proof (Qlt_floor (x * 100 + (1 # 2))) as H2.
  rewrite inject_Z_plus in H2. change (inject_Z 1) with 1 in H2.
  split.
  - apply Qlt_shift_div_l; [reflexivity|]. lra.
  - apply Qle_shift_div_r; [reflexivity|]. lra.
Qed.

Lemma roundCents_mono (x y : Q) : x <= y -> Num.roundCents x <= Num.roundCents y.
Proof.
  intros H. rewrite !roundCents_eq.
  apply Qmult_le_compat_r; [|vm_compute; discriminate].
  rewrite <- Zle_Qle. apply Qfloor_resp_le. lra.
Qed.

Lemma roundCents_nonneg (x : Q) : 0 <= x -> 0 <= Num.roundCents x.
Proof. intros H. rewrite roundCents_eq. apply cents_nonneg. lra. Qed.

(** A whole number of cents is a fixed point of the rounding. *)
Lemma roundCents_cents (z : Z) (x : Q) :
  x == inject_Z z / 100 -> Num.roundCents x = Qred (inject_Z z / 100).
Proof.
  intros E. unfold Num.roundCents, Num.mathRound. apply Qred_complete.
  assert (x * 100 + (1 # 2) == inject_Z z + (1 # 2)) as E' by (rewrite E; field).
  by rewrite E', Qfloor_half.
Qed.

Lemma roundCents_idem (x : Q) : Num.roundCents (Num.roundCents x) = Num.roundCents x.
Proof.
  rewrite (roundCents_cents (Num.mathRound (x * 100))); [done|].
  unfold Num.roundCents. apply Qred_correct.
Qed.

(** [toDisplayDollars] rounds the magnitude as [Math.round] does. *)
Lemma toDisplayDollars_roundCents (x : Q) :
  Money.toDisplayDollars x ==
  if 0 <=? x then Num.roundCents x else - Num.roundCents (- x).
Proof.
  unfold Money.toDisplayDollars. destruct (0 <=? x); rewrite Qred_correct, roundCents_eq.
  - reflexivity.
  - reflexivity.
Qed.

Lemma toDisplayDollars_bounds (x : Q) :
  x - (1 # 200) <= Money.toDisplayDollars x <= x + (1 # 200).
Proof.
  rewrite toDisplayDollars_roundCents. destruct (0 <=? x).
  - pose proof (roundCents_bounds x). lra.
  - pose proof (roundCents_bounds (- x)). lra.
Qed.

Lemma toDisplayDollars_mono (x y : Q) :
  x <= y -> Money.toDisplayDollars x <= Money.toDisplayDollars y.
Proof.
  intros H. rewrite !toDisplayDollars_roundCents.
  destruct (leb_reflect 0 x) as [Hx|Hx]; destruct (leb_reflect 0 y) as [Hy|Hy].
  - by apply roundCents_mono.
  - lra.
  - pose proof (roundCents_nonneg (- x)). pose proof (roundCents_nonneg y). lra.
  - pose proof (roundCents_mono (- y) (- x)). lra.
Qed.

(** The rounding of a whole number of cents, of either sign. *)
Lemma toDisplayDollars_cents (z : Z) (x : Q) :
  x == inject_Z z / 100 -> Money.toDisplayDollars x = Qred (inject_Z z / 100).
Proof.
  intros E. unfold Money.toDisplayDollars.
  destruct (0 <=? x); apply Qred_complete.
  - assert (x * 100 + (1 # 2) == inject_Z z + (1 # 2)) as E' by (rewrite E; field).
    by rewrite E', Qfloor_half.
  - assert (- x * 100 + (1 # 2) == inject_Z (- z) + (1 # 2)) as E'.
    { rewrite E, inject_Z_opp. field. }
    rewrite E', Qfloor_half, inject_Z_opp. field.
Qed.

Lemma toDisplayDollars_idem (x : Q) :
  Money.toDisplayDollars (Money.toDisplayDollars x) = Money.toDisplayDollars x.
Proof.
  unfold Money.toDisplayDollars at 2 3. destruct (0 <=? x).
  - rewrite (toDisplayDollars_cents (Qfloor (x * 100 + (1 # 2)))).
    + done.
    + apply Qred_correct.
  - rewrite (toDisplayDollars_cents (- Qfloor (- x * 100 + (1 # 2)))).
    + apply Qred_complete. rewrite inject_Z_opp. field.
    + rewrite Qred_correct, inject_Z_opp. field.
Qed.

(** ** payoffStrategies.ts: the priority orders *)

Section SortedOrder.

Import PayoffStrategies.

Context {A : Type} (cmp : A -> A -> Q) (R : A -> A -> Prop).
Hypothesis keep : forall x y, (0 <? cmp x y) = false -> R x y.
Hypothesis swap : forall x y, (0 <? cmp x y) = true -> R y x.
Hypothesis trans : forall x y z, R x y -> R y z -> R x z.

Lemma insertSorted_StronglySorted (x : A) (l : list A) :
  StronglySorted R l -> StronglySorted R (insertSorted cmp x l).
Proof.
  induction 1 as [|y rest Hs IH Hall]; simpl.
  - repeat constructor.
  - destruct (0 <? cmp x y) eqn:E.
    + constructor; [exact IH|].
      apply insertSorted_Forall; [by apply swap | exact Hall].
    + constructor; [by constructor|].
      constructor; [by apply keep|].
      eapply Forall_impl; [exact Hall|].
      intros z Hz. eapply trans; [by apply keep | exact Hz].
Qed.

Lemma jsSort_StronglySorted (l : list A) : StronglySorted R (jsSort cmp l).
Proof.
  induction l as [|x l IH]; simpl; [constructor|].
  by apply insertSorted_StronglySorted.
Qed.

End SortedOrder.

(** The sign test of a comparator, reflected. *)
Ltac sign_of H :=
  match type of H with
  | (0 <? ?e) = _ => destruct (ltb_reflect 0 e) as [L|L]; try discriminate H
  end.

Lemma avalancheOrder_keep (x y : DebtState) :
  (0 <? PayoffStrategies.avalancheCmp x y) = false -> Behaviour.avalancheOrder x y.
Proof.
  unfold PayoffStrategies.avalancheCmp, Behaviour.avalancheOrder. intros H.
  destruct (eqb_reflect (ds_apr y) (ds_apr x)) as [E|E]; simpl in H; sign_of H.
  - right. split; [by symmetry | lra].
  - left. apply Qnot_le_lt. intros C. apply E. lra.
Qed.

Lemma avalancheOrder_swap (x y : DebtState) :
  (0 <? PayoffStrategies.avalancheCmp x y) = true -> Behaviour.avalancheOrder y x.
Proof.
  unfold PayoffStrategies.avalancheCmp, Behaviour.avalancheOrder. intros H.
  destruct (eqb_reflect (ds_apr y) (ds_apr x)) as [E|E]; simpl in H; sign_of H.
  - right. split; [exact E | lra].
  - left. lra.
Qed.

Lemma avalancheOrder_trans (x y z : DebtState) :
  Behaviour.avalancheOrder x y -> Behaviour.avalancheOrder y z ->
  Behaviour.avalancheOrder x z.
Proof.
  unfold Behaviour.avalancheOrder.
  intros [H1|[H1 H1']] [H2|[H2 H2']].
  - left. lra.
  - left. lra.
  - left. lra.
  - right. split; lra.
Qed.

Lemma snowballOrder_keep (x y : DebtState) :
  (0 <? PayoffStrategies.snowballCmp x y) = false -> Behaviour.snowballOrder x y.
Proof.
  unfold PayoffStrategies.snowballCmp, Behaviour.snowballOrder. intros H.
  destruct (eqb_reflect (ds_balance x) (ds_balance y)) as [E|E]; simpl in H; sign_of H.
  - right. split; [exact E | lra].
  - left. apply Qnot_le_lt. intros C. apply E. lra.
Qed.

Lemma snowballOrder_swap (x y : DebtState) :
  (0 <? PayoffStrategies.snowballCmp x y) = true -> Behaviour.snowballOrder y x.
Proof.
  unfold PayoffStrategies.snowballCmp, Behaviour.snowballOrder. intros H.
  destruct (eqb_reflect (ds_balance x) (ds_balance y)) as [E|E]; simpl in H; sign_of H.
  - right. split; [by symmetry | lra].
  - left. lra.
Qed.

Lemma snowballOrder_trans (x y z : DebtState) :
  Behaviour.snowballOrder x y -> Behaviour.snowballOrder y z ->
  Behaviour.snowballOrder x z.
Proof.
  unfold Behaviour.snowballOrder.
  intros [H1|[H1 H1']] [H2|[H2 H2']].
  - left. lra.
  - left. lra.
  - left. lra.
  - right. split; lra.
Qed.

(** X1: [sortByAvalanche] returns exactly the active debts of its input
    (each once, none added), arranged so that every debt has an APR at
    least as high as every debt behind it and, at equal APR, a balance that
    is not larger. *)
Theorem X1_avalanche_sorted (debts : list DebtState) :
  PayoffStrategies.sortByAvalanche debts ≡ₚ filter (fun d => isActive d = true) debts /\
  StronglySorted Behaviour.avalancheOrder (PayoffStrategies.sortByAvalanche debts).
Proof.
  split.
  - apply jsSort_Permutation.
  - apply jsSort_StronglySorted.
    + exact avalancheOrder_keep.
    + exact avalancheOrder_swap.
    + exact avalancheOrder_trans.
Qed.

(** X2: [sortBySnowball] returns exactly the active debts of its input,
    arranged so that every debt has a balance no larger than every debt
    behind it and, at equal balance, an APR that is not lower. *)
Theorem X2_snowball_sorted (debts : list DebtState) :
  PayoffStrategies.sortBySnowball debts ≡ₚ filter (fun d => isActive d = true) debts /\
  StronglySorted Behaviour.snowballOrder (PayoffStrategies.sortBySnowball debts).
Proof.
  split.
  - apply jsSort_Permutation.
  - apply jsSort_StronglySorted.
    + exact snowballOrder_keep.
    + exact snowballOrder_swap.
    + exact snowballOrder_trans.
Qed.

(** [Math.max(...xs)] and [Math.min(...xs)] bound every element. *)
Lemma fold_left_Qmax_ge (l : list Q) :
  forall a, a <= fold_left Qmax l a /\ Forall (fun x => x <= fold_left Qmax l a) l.
Proof.
  induction l as [|y l IH]; intros a; simpl.
  - split; [apply Qle_refl | constructor].
  - destruct (IH (Qmax a y)) as [H1 H2]. split; [|constructor; [|exact H2]].
    + eapply Qle_trans; [apply Q.le_max_l | exact H1].
    + eapply Qle_trans; [apply Q.le_max_r | exact H1].
Qed.

Lemma fold_left_Qmin_le (l : list Q) :
  forall a, fold_left Qmin l a <= a /\ Forall (fun x => fold_left Qmin l a <= x) l.
Proof.
  induction l as [|y l IH]; intros a; simpl.
  - split; [apply Qle_refl | constructor].
  - destruct (IH (Qmin a y)) as [H1 H2]. split; [|constructor; [|exact H2]].
    + eapply Qle_trans; [exact H1 | apply Q.le_min_l].
    + eapply Qle_trans; [exact H1 | apply Q.le_min_r].
Qed.

Lemma maxList_ge (xs : list Q) (x : Q) : x ∈ xs -> x <= Num.maxList xs.
Proof.
  destruct xs as [|a rest]; [by intros ?%elem_of_nil|].
  intros [->|H]%elem_of_cons; simpl.
  - apply fold_left_Qmax_ge.
  - by apply (proj1 (Forall_forall _ _) (proj2 (fold_left_Qmax_ge rest a))).
Qed.

Lemma minList_le (xs : list Q) (x : Q) : x ∈ xs -> Num.minList xs <= x.
Proof.
  destruct xs as [|a rest]; [by intros ?%elem_of_nil|].
  intros [->|H]%elem_of_cons; simpl.
  - apply fold_left_Qmin_le.
  - by apply (proj1 (Forall_forall _ _) (proj2 (fold_left_Qmin_le rest a))).
Qed.

Lemma ltb_scaled (x k d : Q) : 0 < k -> 0 < d -> (0 <? k * x / d) = (0 <? x).
Proof.
  intros Hk Hd.
  destruct (ltb_reflect 0 x) as [L|L]; destruct (ltb_reflect 0 (k * x / d)) as [L'|L'];
    try done; exfalso.
  - apply L'. apply Qlt_shift_div_l; [done|]. nra.
  - assert (k * x / d <= 0); [|lra].
    apply Qle_shift_div_r; [done|]. nra.
Qed.

Section SortMap.

Import PayoffStrategies.

Context {A B : Type} (g : A -> B) (cmpA : A -> A -> Q) (cmpB : B -> B -> Q).
Hypothesis same : forall a b, cmpB (g a) (g b) = cmpA a b.

Lemma insertSorted_map (x : A) (l : list A) :
  insertSorted cmpB (g x) (map g l) = map g (insertSorted cmpA x l).
Proof.
  induction l as [|y l IH]; simpl; [done|].
  rewrite same. destruct (0 <? cmpA x y); simpl; [by rewrite IH | done].
Qed.

(** Sorting decorated elements by the decoration is sorting the elements. *)
Lemma jsSort_map (l : list A) : jsSort cmpB (map g l) = map g (jsSort cmpA l).
Proof.
  induction l as [|x l IH]; simpl; [done|].
  fold (jsSort cmpB (map g l)). fold (jsSort cmpA l).
  rewrite IH. apply insertSorted_map.
Qed.

End SortMap.

Section Hybrid.

Import PayoffStrategies.

Variable debts : list DebtState.

Local Abbreviation active := (filter (fun d => isActive d = true) debts).
Local Abbreviation maxAPR := (Num.maxList (map ds_apr active)).
Local Abbreviation minAPR := (Num.minList (map ds_apr active)).
Local Abbreviation maxBalance := (Num.maxList (map ds_balance active)).
Local Abbreviation minBalance := (Num.minList (map ds_balance active)).

(** The score that [sortByHybrid] attaches to a debt. *)
Local Abbreviation score :=
  (fun debt : DebtState =>
     APR_WEIGHT *
     (if maxAPR =? minAPR then 1 else (ds_apr debt - minAPR) / (maxAPR - minAPR)) +
     BALANCE_WEIGHT *
     (if maxBalance =? minBalance then 1
      else 1 - (ds_balance debt - minBalance) / (maxBalance - minBalance))).

Lemma sortByHybrid_by_score :
  sortByHybrid debts = jsSort (fun a b => score b - score a) active.
Proof.
  unfold sortByHybrid. destruct active as [|d0 rest] eqn:E; [done|].
  rewrite <- E.
  rewrite (jsSort_map (fun debt => (debt, score debt))
                      (fun a b => score b - score a)); [|done].
  rewrite map_map. simpl. apply map_id.
Qed.

Lemma active_apr_bounds (d : DebtState) :
  d ∈ active -> minAPR <= ds_apr d <= maxAPR.
Proof.
  intros H. split; [apply minList_le | apply maxList_ge];
    by apply (list_elem_of_fmap_2 _ active d).
Qed.

Lemma active_balance_bounds (d : DebtState) :
  d ∈ active -> minBalance <= ds_balance d <= maxBalance.
Proof.
  intros H. split; [apply minList_le | apply maxList_ge];
    by apply (list_elem_of_fmap_2 _ active d).
Qed.

Lemma hybrid_as_avalanche (v : Q) :
  Forall (fun d => ds_balance d == v) active ->
  sortByHybrid debts = sortByAvalanche debts.
Proof.
  intros Hv. rewrite sortByHybrid_by_score. unfold sortByAvalanche.
  apply (jsSort_ext (fun d => d ∈ active)); [|by apply Forall_forall].
  intros a b Ha Hb.
  pose proof (proj1 (Forall_forall _ _) Hv a Ha) as Ea.
  pose proof (proj1 (Forall_forall _ _) Hv b Hb) as Eb.
  simpl in Ea, Eb.
  pose proof (active_apr_bounds a Ha) as [La Ua].
  pose proof (active_apr_bounds b Hb) as [Lb Ub].
  unfold avalancheCmp, APR_WEIGHT, BALANCE_WEIGHT.
  set (nb := fun d : DebtState =>
               if maxBalance =? minBalance then 1
               else 1 - (ds_balance d - minBalance) / (maxBalance - minBalance)).
  assert (Ebal : nb b == nb a).
  { unfold nb. destruct (maxBalance =? minBalance); [reflexivity|]. by rewrite Ea, Eb. }
  change (if maxBalance =? minBalance then 1
          else 1 - (ds_balance b - minBalance) / (maxBalance - minBalance)) with (nb b).
  change (if maxBalance =? minBalance then 1
          else 1 - (ds_balance a - minBalance) / (maxBalance - minBalance)) with (nb a).
  destruct (eqb_reflect maxAPR minAPR) as [E|N].
  - destruct (eqb_reflect (ds_apr b) (ds_apr a)) as [_|N]; [|exfalso; apply N; lra].
    simpl negb. cbv iota.
    destruct (ltb_reflect 0 (ds_balance a - ds_balance b)) as [L|_]; [lra|].
    destruct (ltb_reflect 0 ((6 # 10) * 1 + (4 # 10) * nb b - ((6 # 10) * 1 + (4 # 10) * nb a)))
      as [L|_]; [lra|done].
  - assert (Hpos : 0 < maxAPR - minAPR).
    { apply Qnot_le_lt. intros C. apply N. lra. }
    assert (Hdiff : (6 # 10) * ((ds_apr b - minAPR) / (maxAPR - minAPR)) + (4 # 10) * nb b -
                    ((6 # 10) * ((ds_apr a - minAPR) / (maxAPR - minAPR)) + (4 # 10) * nb a)
                    == (6 # 10) * (ds_apr b - ds_apr a) / (maxAPR - minAPR)).
    { rewrite Ebal. field. lra. }
    rewrite (ltb_comp _ 0 _ _ (Qeq_refl 0) Hdiff).
    rewrite ltb_scaled; [|lra|done].
    destruct (eqb_reflect (ds_apr b) (ds_apr a)) as [E|N']; simpl negb; cbv iota; [|done].
    apply ltb_comp; [reflexivity|]. lra.
Qed.

Lemma hybrid_as_snowball (v : Q) :
  Forall (fun d => ds_apr d == v) active ->
  sortByHybrid debts = sortBySnowball debts.
Proof.
  intros Hv. rewrite sortByHybrid_by_score. unfold sortBySnowball.
  apply (jsSort_ext (fun d => d ∈ active)); [|by apply Forall_forall].
  intros a b Ha Hb.
  pose proof (proj1 (Forall_forall _ _) Hv a Ha) as Ea.
  pose proof (proj1 (Forall_forall _ _) Hv b Hb) as Eb.
  simpl in Ea, Eb.
  pose proof (active_balance_bounds a Ha) as [La Ua].
  pose proof (active_balance_bounds b Hb) as [Lb Ub].
  unfold snowballCmp, APR_WEIGHT, BALANCE_WEIGHT.
  set (na := fun d : DebtState =>
               if maxAPR =? minAPR then 1 else (ds_apr d - minAPR) / (maxAPR - minAPR)).
  assert (Eapr : na b == na a).
  { unfold na. destruct (maxAPR =? minAPR); [reflexivity|]. by rewrite Ea, Eb. }
  change (if maxAPR =? minAPR then 1 else (ds_apr b - minAPR) / (maxAPR - minAPR))
    with (na b).
  change (if maxAPR =? minAPR then 1 else (ds_apr a - minAPR) / (maxAPR - minAPR))
    with (na a).
  destruct (eqb_reflect maxBalance minBalance) as [E|N].
  - destruct (eqb_reflect (ds_balance a) (ds_balance b)) as [_|N]; [|exfalso; apply N; lra].
    simpl negb. cbv iota.
    destruct (ltb_reflect 0 (ds_apr b - ds_apr a)) as [L|_]; [lra|].
    destruct (ltb_reflect 0 ((6 # 10) * na b + (4 # 10) * 1 - ((6 # 10) * na a + (4 # 10) * 1)))
      as [L|_]; [lra|done].
  - assert (Hpos : 0 < maxBalance - minBalance).
    { apply Qnot_le_lt. intros C. apply N. lra. }
    assert (Hdiff : (6 # 10) * na b +
                    (4 # 10) * (1 - (ds_balance b - minBalance) / (maxBalance - minBalance)) -
                    ((6 # 10) * na a +
                     (4 # 10) * (1 - (ds_balance a - minBalance) / (maxBalance - minBalance)))
                    == (4 # 10) * (ds_balance a - ds_balance b) / (maxBalance - minBalance)).
    { rewrite Eapr. field. lra. }
    rewrite (ltb_comp _ 0 _ _ (Qeq_refl 0) Hdiff).
    rewrite ltb_scaled; [|lra|done].
    destruct (eqb_reflect (ds_balance a) (ds_balance b)) as [E|N']; simpl negb; cbv iota;
      [|done].
    apply ltb_comp; [reflexivity|]. lra.
Qed.

End Hybrid.

(** X3: the hybrid order degenerates to the two pure orders: on debts
    whose active debts all have the same balance it is the avalanche
    order, and on debts whose active debts all have the same APR it is the
    snowball order. *)
Theorem X3_hybrid_degenerate (debts : list DebtState) (value : Q) :
  (Forall (fun d => ds_balance d == value) (filter (fun d => isActive d = true) debts) ->
   PayoffStrategies.sortByHybrid debts = PayoffStrategies.sortByAvalanche debts) /\
  (Forall (fun d => ds_apr d == value) (filter (fun d => isActive d = true) debts) ->
   PayoffStrategies.sortByHybrid debts = PayoffStrategies.sortBySnowball debts).
Proof.
  split.
  - apply hybrid_as_avalanche.
  - apply hybrid_as_snowball.
Qed.

Lemma X3_hybrid_degenerate_witness :
  Forall (fun d => ds_balance d == 1000)
         (filter (fun d => isActive d = true) Behaviour.evenBalances) /\
  PayoffStrategies.sortByHybrid Behaviour.evenBalances =
  PayoffStrategies.sortByAvalanche Behaviour.evenBalances.
Proof.
  assert (Forall (fun d => ds_balance d == 1000)
                 (filter (fun d => isActive d = true) Behaviour.evenBalances)) as H
    by (repeat constructor).
  exact (conj H (proj1 (X3_hybrid_degenerate Behaviour.evenBalances 1000) H)).
Defined.

(** ** payoffStrategies.ts: the allocation of the extra budget *)

Lemma sumList_map_ext {A : Type} (f g : A -> Q) (l : list A) :
  Forall (fun x => f x == g x) l -> Num.sumList (map f l) == Num.sumList (map g l).
Proof.
  induction 1 as [|x l Hx Hl IH]; [reflexivity|].
  simpl map. rewrite !sumList_cons, Hx, IH. reflexivity.
Qed.

Lemma sumList_map_zero {A : Type} (f : A -> Q) (l : list A) :
  Forall (fun x => f x == 0) l -> Num.sumList (map f l) == 0.
Proof.
  induction 1 as [|x l Hx Hl IH]; [reflexivity|].
  simpl map. rewrite sumList_cons, Hx, IH. reflexivity.
Qed.

Lemma sumList_Permutation (l1 l2 : list Q) :
  l1 ≡ₚ l2 -> Num.sumList l1 == Num.sumList l2.
Proof.
  induction 1 as [|x l1 l2 _ IH|x y l|l1 l2 l3 _ IH1 _ IH2].
  - reflexivity.
  - by rewrite !sumList_cons, IH.
  - rewrite !sumList_cons. ring.
  - by rewrite IH1.
Qed.

Section AllocationTotal.

Import PayoffStrategies.

Lemma allocateLoop_total (sorted : list DebtState) :
  forall (R : Q) (m : gmap string Q),
    NoDup (map ds_id sorted) ->
    Forall (fun d => isActive d = true) sorted ->
    Forall (fun d => default 0 (m !! ds_id d) == 0) sorted ->
    Num.sumList (map (fun d => default 0 (allocateLoop sorted R m !! ds_id d)) sorted)
    == Qmin (Qmax 0 R) (Num.sumList (map ds_balance sorted)).
Proof.
  induction sorted as [|d rest IH]; intros R m Hnd Hact Hzero.
  - simpl. unfold Num.sumList. simpl.
    destruct (Q.min_spec (Qmax 0 R) 0) as [[H ->]|[H ->]]; [|reflexivity].
    pose proof (Q.le_max_l 0 R). lra.
  - change (map ds_id (d :: rest)) with (ds_id d :: map ds_id rest) in Hnd.
    apply NoDup_cons in Hnd as [Hnotin Hnd].
    apply Forall_cons in Hact as [Hd Hact].
    apply Forall_cons in Hzero as [Hzd Hzero].
    pose proof (isActive_balance d Hd) as Hbal.
    pose proof (sumList_active_nonneg rest Hact) as Hrest.
    assert (Hother : forall v : Q,
               Forall (fun d' => default 0 (<[ds_id d := v]> m !! ds_id d') == 0) rest).
    { intros v. apply Forall_forall. intros d' Hd'.
      rewrite lookup_insert_ne.
      - by apply (proj1 (Forall_forall _ _) Hzero).
      - intros E. apply Hnotin. rewrite E. by apply (list_elem_of_fmap_2 ds_id). }
    simpl map. rewrite !sumList_cons. simpl allocateLoop.
    destruct (leb_reflect R 0) as [HR|HR].
    + rewrite Hzd, (sumList_map_zero _ rest Hzero).
      rewrite Q.max_l by done.
      rewrite Q.min_l by lra. ring.
    + rewrite isActive_guard, Hd. simpl negb. cbv iota.
      destruct (ltb_reflect (Qmin R (ds_balance d)) (ds_balance d)) as [Hlt|Hge].
      * rewrite lookup_insert_eq. simpl default.
        rewrite (sumList_map_zero _ rest (Hother _)).
        assert (HRb : R < ds_balance d).
        { destruct (Q.min_spec R (ds_balance d)) as [[? E]|[? E]]; rewrite E in Hlt; lra. }
        rewrite (Q.min_l R) by lra.
        rewrite Q.max_r by lra.
        rewrite Q.min_l by lra. ring.
      * assert (HRb : ds_balance d <= R).
        { destruct (Q.min_spec R (ds_balance d)) as [[? E]|[? E]]; rewrite E in Hge; lra. }
        rewrite allocateLoop_other by done.
        rewrite lookup_insert_eq. simpl default.
        rewrite (IH _ _ Hnd Hact (Hother _)).
        rewrite (Q.min_r R) by done.
        rewrite (Q.max_r 0 R) by lra.
        destruct (Q.min_spec (Qmax 0 (R - ds_balance d))
                             (Num.sumList (map ds_balance rest))) as [[H1 ->]|[H1 ->]];
          destruct (Q.min_spec R (ds_balance d + Num.sumList (map ds_balance rest)))
            as [[H2 ->]|[H2 ->]];
          destruct (Q.max_spec 0 (R - ds_balance d)) as [[H3 E3]|[H3 E3]];
          rewrite ?E3 in *; lra.
Qed.

End AllocationTotal.

(** X4: in a simulated month over debts with distinct ids, the extras
    allocated to the debts of the priority order add up to the smaller of
    the budget (extra payment plus freed minimums, or zero when that is
    negative) and the total balance of the active debts: the allocation
    never hands out more than the budget, and leaves budget unused only
    when every active debt is covered in full. *)
Theorem X4_allocation_total
        (debts : list DebtState) (extraPayment : Q) (strategy : DebtStrategy)
        (freedUpMinimums : Q) :
  NoDup (map ds_id debts) ->
  let alloc := Summary.monthAllocations debts extraPayment strategy freedUpMinimums in
  Num.sumList (map (fun d => default 0 (alloc !! ds_id d))
                   (PayoffStrategies.getStrategySorter strategy debts))
  == Qmin (Qmax 0 (extraPayment + freedUpMinimums))
          (Num.sumList (map ds_balance (filter (fun d => isActive d = true) debts))).
Proof.
  intros Hnd alloc.
  destruct (sorter_priority_order strategy debts Hnd) as [H1 H2].
  unfold alloc, Summary.monthAllocations, PayoffStrategies.allocateExtraPayments.
  rewrite allocateLoop_total; try done.
  - apply Q.min_compat; [reflexivity|].
    apply sumList_Permutation.
    change (map ds_balance ?l) with (ds_balance <$> l).
    by rewrite (sorter_Permutation strategy debts).
  - apply Forall_forall. intros d' _. apply Qeq_of_eq, initial_allocations_zero.
    by rewrite lookup_empty.
Qed.

Lemma X4_allocation_total_witness :
  NoDup (map ds_id [Examples.cardA; Examples.cardB]) /\
  (let alloc := Summary.monthAllocations [Examples.cardA; Examples.cardB] 300 avalanche 0 in
   Num.sumList (map (fun d => default 0 (alloc !! ds_id d))
                    (PayoffStrategies.getStrategySorter avalanche
                       [Examples.cardA; Examples.cardB]))
   == Qmin (Qmax 0 (300 + 0))
           (Num.sumList (map ds_balance
              (filter (fun d => isActive d = true) [Examples.cardA; Examples.cardB])))).
Proof.
  assert (NoDup (map ds_id [Examples.cardA; Examples.cardB])) as H.
  { apply (bool_decide_unpack _). vm_compute. exact I. }
  exact (conj H (X4_allocation_total [Examples.cardA; Examples.cardB] 300 avalanche 0 H)).
Defined.

Section AllocationBounds.

Import PayoffStrategies.

Lemma allocateLoop_bounds (sorted : list DebtState) (B : Q) :
  forall (R : Q) (m : gmap string Q),
    R <= B ->
    map_Forall (fun _ v => 0 <= v <= B) m ->
    map_Forall (fun _ v => 0 <= v <= B) (allocateLoop sorted R m).
Proof.
  induction sorted as [|d rest IH]; intros R m HR Hm; simpl; [done|].
  destruct (leb_reflect R 0) as [H0|H0]; [done|].
  destruct (ds_isPaidOff d || (ds_balance d <=? 0)) eqn:G; [by apply IH|].
  apply orb_false_iff in G as [_ G]. destruct (leb_reflect (ds_balance d) 0) as [|Hb]; [done|].
  assert (Hamount : 0 <= Qmin R (ds_balance d) <= B).
  { destruct (Q.min_spec R (ds_balance d)) as [[? ->]|[? ->]]; lra. }
  destruct (Qmin R (ds_balance d) <? ds_balance d).
  - by apply map_Forall_insert_2.
  - apply IH; [lra|]. by apply map_Forall_insert_2.
Qed.

Lemma allocateLoop_is_Some (sorted : list DebtState) (i : string) :
  forall (R : Q) (m : gmap string Q),
    is_Some (m !! i) -> is_Some (allocateLoop sorted R m !! i).
Proof.
  induction sorted as [|d rest IH]; intros R m Hm; simpl; [done|].
  assert (is_Some (<[ds_id d := Qmin R (ds_balance d)]> m !! i)) as Hm'.
  { destruct (decide (ds_id d = i)) as [->|Hne].
    - rewrite lookup_insert_eq. by eexists.
    - by rewrite lookup_insert_ne. }
  destruct (R <=? 0); [done|].
  destruct (ds_isPaidOff d || (ds_balance d <=? 0)); [by apply IH|].
  destruct (Qmin R (ds_balance d) <? ds_balance d); [done|by apply IH].
Qed.

Lemma initial_allocations_bounds (debts : list DebtState) (B : Q) :
  0 <= B ->
  forall m : gmap string Q,
    map_Forall (fun _ v => 0 <= v <= B) m ->
    map_Forall (fun _ v => 0 <= v <= B) (fold_left (fun m d => <[ds_id d := 0]> m) debts m).
Proof.
  intros HB. induction debts as [|d debts IH]; intros m Hm; simpl; [done|].
  apply IH. apply map_Forall_insert_2; [lra|done].
Qed.

Lemma initial_allocations_is_Some (debts : list DebtState) (i : string) :
  forall m : gmap string Q,
    is_Some (m !! i) \/ i ∈ map ds_id debts ->
    is_Some (fold_left (fun m d => <[ds_id d := 0]> m) debts m !! i).
Proof.
  induction debts as [|d debts IH]; intros m H; simpl.
  - destruct H as [H|H]; [done|]. by apply elem_of_nil in H.
  - apply IH. destruct (decide (ds_id d = i)) as [->|Hne].
    + left. rewrite lookup_insert_eq. by eexists.
    + rewrite lookup_insert_ne by done. destruct H as [H|H]; [by left|].
      right. simpl in H. apply elem_of_cons in H as [H|H]; [by subst|done].
Qed.

End AllocationBounds.

(** X5: whatever the debts, the priority order and the budget,
    [allocateExtraPayments] returns a map that has an entry for every debt
    of the array, and every amount in it lies between zero and the budget
    (zero, when the budget is negative): no debt is ever allocated a
    negative extra or more than the whole budget. *)
Theorem X5_allocation_bounds
        (debts sortedDebts : list DebtState) (extraPayment freedUpMinimums : Q) :
  let alloc :=
    PayoffStrategies.allocateExtraPayments debts sortedDebts extraPayment freedUpMinimums in
  Forall (fun d => is_Some (alloc !! ds_id d)) debts /\
  map_Forall (fun _ amount => 0 <= amount <= Qmax 0 (extraPayment + freedUpMinimums)) alloc.
Proof.
  unfold PayoffStrategies.allocateExtraPayments. split.
  - apply Forall_forall. intros d Hd.
    apply allocateLoop_is_Some, initial_allocations_is_Some. right.
    by apply (list_elem_of_fmap_2 ds_id).
  - apply allocateLoop_bounds; [apply Q.le_max_r|].
    apply initial_allocations_bounds; [apply Q.le_max_l|].
    apply map_Forall_empty.
Qed.

(** ** debtSimulator.ts: one simulated month *)

Lemma sumList_app (l1 l2 : list Q) :
  Num.sumList (l1 ++ l2) == Num.sumList l1 + Num.sumList l2.
Proof.
  induction l1 as [|x l1 IH]; simpl app.
  - unfold Num.sumList at 2. simpl. ring.
  - rewrite !sumList_cons, IH. ring.
Qed.

Lemma omap_cons {A B : Type} (f : A -> option B) (x : A) (l : list A) :
  omap f (x :: l) = option_list (f x) ++ omap f l.
Proof. simpl. by destruct (f x). Qed.

Section MonthTotals.

Import PayoffStrategies DebtSimulator Summary.

Opaque payDebt.

Variable alloc : gmap string Q.

Lemma processDebt_totals acc d :
  totalPaymentThisMonth (processDebt alloc acc d) ==
    totalPaymentThisMonth acc +
    Num.sumList (map dp_paymentAmount (option_list (stepPayment alloc d))) /\
  totalInterestThisMonth (processDebt alloc acc d) ==
    totalInterestThisMonth acc +
    Num.sumList (map dp_interestPaid (option_list (stepPayment alloc d))) /\
  totalPrincipalThisMonth (processDebt alloc acc d) ==
    totalPrincipalThisMonth acc +
    Num.sumList (map dp_principalPaid (option_list (stepPayment alloc d))).
Proof.
  unfold processDebt, stepPayment.
  destruct (ds_isPaidOff d || (ds_balance d <=? 0)); simpl.
  - unfold Num.sumList. simpl. repeat split; ring.
  - destruct (payDebt d (default 0 (alloc !! ds_id d))) as [p b]. simpl.
    unfold Num.sumList. simpl. repeat split; ring.
Qed.

Lemma loop_totals debts :
  forall acc,
    totalPaymentThisMonth (fold_left (processDebt alloc) debts acc) ==
      totalPaymentThisMonth acc +
      Num.sumList (map dp_paymentAmount (omap (stepPayment alloc) debts)) /\
    totalInterestThisMonth (fold_left (processDebt alloc) debts acc) ==
      totalInterestThisMonth acc +
      Num.sumList (map dp_interestPaid (omap (stepPayment alloc) debts)) /\
    totalPrincipalThisMonth (fold_left (processDebt alloc) debts acc) ==
      totalPrincipalThisMonth acc +
      Num.sumList (map dp_principalPaid (omap (stepPayment alloc) debts)).
Proof.
  induction debts as [|d debts IH]; intros acc.
  - unfold Num.sumList. simpl. repeat split; ring.
  - cbn [fold_left].
    destruct (IH (processDebt alloc acc d)) as (H1 & H2 & H3).
    destruct (processDebt_totals acc d) as (P1 & P2 & P3).
    rewrite H1, H2, H3, P1, P2, P3.
    rewrite (omap_cons (stepPayment alloc) d debts), !map_app, !sumList_app.
    repeat split; ring.
Qed.

Transparent payDebt.

End MonthTotals.

(** The running interest total of a month, read off its payments. *)
Lemma simulateMonth_totalInterest
      (debts : list DebtState) (extraPayment : Q) (strategy : DebtStrategy)
      (month : nat) (totalInterestSoFar freedUpMinimums : Q) :
  let state := DebtSimulator.simulateMonth debts extraPayment strategy month
                                           totalInterestSoFar freedUpMinimums in
  ms_totalInterestPaid state =
    Num.roundCents (totalInterestSoFar +
                    Num.sumList (map dp_interestPaid (ms_payments state))).
Proof.
  unfold DebtSimulator.simulateMonth. cbn [ms_totalInterestPaid ms_payments].
  set (alloc := PayoffStrategies.allocateExtraPayments _ _ _ _).
  destruct (loop_totals alloc debts DebtSimulator.emptyMonthAcc) as (_ & H2 & _).
  rewrite loop_payments. simpl app.
  apply roundCents_comp. rewrite H2. simpl. ring.
Qed.


Lemma monthAllocations_nonneg
      (debts : list DebtState) (extraPayment : Q) (strategy : DebtStrategy)
      (freedUpMinimums : Q) (i : string) :
  0 <= default 0 (Summary.monthAllocations debts extraPayment strategy freedUpMinimums !! i).
Proof.
  unfold Summary.monthAllocations, PayoffStrategies.allocateExtraPayments.
  destruct (_ !! i) as [v|] eqn:E; simpl; [|apply Qle_refl].
  eapply (allocateLoop_bounds _ (Qmax 0 (extraPayment + freedUpMinimums))) in E.
  - apply E.
  - apply Q.le_max_r.
  - apply initial_allocations_bounds; [apply Q.le_max_l|]. apply map_Forall_empty.
Qed.

Lemma payDebt_accounting (d : DebtState) (extra : Q) :
  0 <= ds_apr d -> 0 <= ds_minimumPayment d -> 0 <= extra -> 0 < ds_balance d ->
  let p := fst (DebtSimulator.payDebt d extra) in
  dp_paymentAmount p == dp_principalPaid p + dp_interestPaid p /\
  0 <= dp_interestPaid p /\ 0 <= dp_principalPaid p /\
  dp_paymentAmount p <= ds_minimumPayment d + extra /\
  0 <= dp_remainingBalance p.
Proof.
  intros Hapr Hmin Hextra Hbal. unfold DebtSimulator.payDebt. cbn [fst].
  cbn [dp_paymentAmount dp_principalPaid dp_interestPaid dp_remainingBalance].
  unfold Money.multiply. rewrite subtract_one.
  set (ic := Money.toDisplayDollars (ds_balance d * (ds_apr d / 100 / 12))).
  set (bwi := Money.toDisplayDollars (Money.add [ds_balance d; ic])).
  assert (0 <= ic) as Hic.
  { apply toDisplayDollars_nonneg.
    assert (ds_balance d * (ds_apr d / 100 / 12) == ds_balance d * ds_apr d / 1200) as E
      by field.
    rewrite E. apply Qle_shift_div_l; [reflexivity|]. nra. }
  assert (0 <= bwi) as Hbwi.
  { apply toDisplayDollars_nonneg. rewrite add_pair. lra. }
  set (actual := Qmin (ds_minimumPayment d + extra) bwi).
  assert (0 <= actual <= ds_minimumPayment d + extra) as Hact.
  { unfold actual.
    destruct (Q.min_spec (ds_minimumPayment d + extra) bwi) as [[? ->]|[? ->]]; lra. }
  assert (0 <= Qmin ic actual <= actual) as Hint.
  { destruct (Q.min_spec ic actual) as [[? ->]|[? ->]]; lra. }
  split; [ring|]. split; [lra|]. split; [lra|]. split; [lra|].
  destruct (_ <=? _); [apply Qle_refl | apply Qmax_0_nonneg].
Qed.

(** With APRs and minimum payments that are not negative, no payment of
    a month has a negative interest part. *)
Lemma simulateMonth_interest_nonneg
      (debts : list DebtState) (extraPayment : Q) (strategy : DebtStrategy)
      (month : nat) (totalInterestSoFar freedUpMinimums : Q) :
  Forall (fun d => 0 <= ds_apr d /\ 0 <= ds_minimumPayment d) debts ->
  Forall (fun p => 0 <= dp_interestPaid p)
         (ms_payments (DebtSimulator.simulateMonth debts extraPayment strategy month
                                                   totalInterestSoFar freedUpMinimums)).
Proof.
  intros Hall. rewrite simulateMonth_payments.
  apply Forall_fmap, Forall_forall. intros d Hd.
  apply list_elem_of_filter in Hd as [Hact Hd].
  destruct (proj1 (Forall_forall _ _) Hall d Hd) as [Hapr Hmin].
  apply payDebt_accounting; try done.
  - apply monthAllocations_nonneg.
  - by apply isActive_balance.
Qed.

(** X7: in a simulated month over debts whose APR and minimum payment
    are not negative, every recorded payment splits exactly into its
    principal part and its interest part, neither part is negative, the
    payment does not exceed the debt's minimum payment plus the extra
    allocated to it, and the remaining balance is not negative. *)
Theorem X7_month_payment_split
        (debts : list DebtState) (extraPayment : Q) (strategy : DebtStrategy)
        (month : nat) (totalInterestSoFar freedUpMinimums : Q) :
  Forall (fun d => 0 <= ds_apr d /\ 0 <= ds_minimumPayment d) debts ->
  let alloc := Summary.monthAllocations debts extraPayment strategy freedUpMinimums in
  Forall2 (fun d p =>
             dp_debtId p = ds_id d /\
             dp_paymentAmount p == dp_principalPaid p + dp_interestPaid p /\
             0 <= dp_interestPaid p /\ 0 <= dp_principalPaid p /\
             dp_paymentAmount p <= ds_minimumPayment d + default 0 (alloc !! ds_id d) /\
             0 <= dp_remainingBalance p)
          (filter (fun d => isActive d = true) debts)
          (ms_payments (DebtSimulator.simulateMonth debts extraPayment strategy month
                                                    totalInterestSoFar freedUpMinimums)).
Proof.
  intros Hall alloc. rewrite simulateMonth_payments. fold alloc.
  apply Forall2_fmap_r, Forall_Forall2_diag, Forall_forall.
  intros d Hd. apply list_elem_of_filter in Hd as [Hact Hd].
  destruct (proj1 (Forall_forall _ _) Hall d Hd) as [Hapr Hmin].
  split; [done|].
  apply payDebt_accounting; try done.
  - apply monthAllocations_nonneg.
  - by apply isActive_balance.
Qed.

Lemma X7_month_payment_split_witness :
  Forall (fun d => 0 <= ds_apr d /\ 0 <= ds_minimumPayment d)
         [Examples.cardA; Examples.cardB] /\
  (let alloc := Summary.monthAllocations [Examples.cardA; Examples.cardB] 300 avalanche 0 in
   Forall2 (fun d p =>
              dp_debtId p = ds_id d /\
              dp_paymentAmount p == dp_principalPaid p + dp_interestPaid p /\
              0 <= dp_interestPaid p /\ 0 <= dp_principalPaid p /\
              dp_paymentAmount p <= ds_minimumPayment d + default 0 (alloc !! ds_id d) /\
              0 <= dp_remainingBalance p)
           (filter (fun d => isActive d = true) [Examples.cardA; Examples.cardB])
           (ms_payments (DebtSimulator.simulateMonth [Examples.cardA; Examples.cardB]
                                                     300 avalanche 1 0 0))).
Proof.
  assert (Forall (fun d => 0 <= ds_apr d /\ 0 <= ds_minimumPayment d)
                 [Examples.cardA; Examples.cardB]) as H.
  { repeat (constructor; [split; vm_compute; discriminate|]). constructor. }
  exact (conj H (X7_month_payment_split [Examples.cardA; Examples.cardB]
                   300 avalanche 1 0 0 H)).
Defined.

Section Remaining.

Import PayoffStrategies DebtSimulator Summary.

(** After a month a debt is either paid off with balance zero, or still
    owes more than one cent. *)
Lemma stepDebt_cases alloc d :
  (ds_isPaidOff (stepDebt alloc d) = true /\ ds_balance (stepDebt alloc d) = 0) \/
  (ds_isPaidOff (stepDebt alloc d) = false /\ 1 # 100 < ds_balance (stepDebt alloc d)).
Proof.
  unfold stepDebt.
  destruct (ds_isPaidOff d || (ds_balance d <=? 0)); cbn [ds_balance ds_isPaidOff].
  - by left.
  - unfold payDebt. cbn [fst snd dp_remainingBalance].
    match goal with |- context [if ?x <=? ?y then _ else _] =>
      destruct (leb_reflect x y) as [H|H] end.
    + by left.
    + right. split; [done|]. by apply Qnot_le_lt.
Qed.

Lemma remaining_cases (l : list DebtState) :
  Forall (fun d => (ds_isPaidOff d = true /\ ds_balance d = 0) \/
                   (ds_isPaidOff d = false /\ 1 # 100 < ds_balance d)) l ->
  (Num.sumList (map ds_balance l) == 0 /\ hasRemainingDebt l = false) \/
  (1 # 100 < Num.sumList (map ds_balance l) /\ hasRemainingDebt l = true).
Proof.
  induction 1 as [|d l Hd Hl IH]; [by left|].
  simpl map. rewrite sumList_cons. unfold hasRemainingDebt in *. simpl existsb.
  unfold isActive at 1 3.
  destruct Hd as [[-> ->]|[-> Hb]]; simpl negb; simpl andb.
  - destruct IH as [[E ->]|[E ->]]; [left|right]; split; try done; lra.
  - destruct (ltb_reflect 0 (ds_balance d)) as [_|N]; [|lra]. simpl orb.
    right. split; [|done]. destruct IH as [[E _]|[E _]]; lra.
Qed.

End Remaining.

(** X8: the [totalRemainingDebt] that a simulated month reports is never
    negative, and it is zero exactly when no debt of the month's array is
    still active, that is, exactly when the loop of [simulateStrategy]
    stops before its next turn. *)
Theorem X8_remaining_debt_zero
        (debts : list DebtState) (extraPayment : Q) (strategy : DebtStrategy)
        (month : nat) (totalInterestSoFar freedUpMinimums : Q) :
  let state := DebtSimulator.simulateMonth debts extraPayment strategy month
                                           totalInterestSoFar freedUpMinimums in
  0 <= ms_totalRemainingDebt state /\
  (ms_totalRemainingDebt state == 0 <->
   DebtSimulator.hasRemainingDebt (ms_debts state) = false).
Proof.
  intros state.
  assert (ms_totalRemainingDebt state =
          Num.roundCents (Num.sumList (map ds_balance (ms_debts state)))) as ->.
  { unfold state, DebtSimulator.simulateMonth.
    cbn [ms_totalRemainingDebt ms_debts]. apply roundCents_comp.
    rewrite fold_left_plus_map. ring. }
  unfold state. rewrite simulateMonth_debts.
  set (alloc := Summary.monthAllocations _ _ _ _).
  destruct (remaining_cases (map (Summary.stepDebt alloc) debts)) as [[E H]|[E H]].
  - apply Forall_forall. intros d' (d & -> & _)%list_elem_of_fmap_1. apply stepDebt_cases.
  - rewrite (roundCents_comp _ _ E), H. split; [vm_compute; discriminate|]. done.
  - rewrite H.
    pose proof (roundCents_bounds (Num.sumList (map ds_balance (map (Summary.stepDebt alloc) debts)))).
    split; [lra|]. split; [lra|discriminate].
Qed.

(** ** debtSimulator.ts: the whole simulation *)

Section Loop.

Import PayoffStrategies DebtSimulator Summary.

Variables (strategy : DebtStrategy) (extra : Q) (ob : gmap string (Q * string)).

(** A property that every turn of the loop keeps holds when the loop ends. *)
Lemma driverLoop_invariant (I : Driver -> Prop) :
  (forall st, I st -> hasRemainingDebt (debtStates st) = true ->
              I (driverStep strategy extra ob st)) ->
  forall remaining st, I st -> I (driverLoop strategy extra ob remaining st).
Proof.
  intros Hstep. induction remaining as [|n IH]; intros st Hst; simpl; [done|].
  destruct (hasRemainingDebt (debtStates st)) eqn:E; simpl; [|done].
  apply IH. by apply Hstep.
Qed.

Lemma fold_recordPayoff (states : list DebtState) (dip : gmap string Q) (m : nat)
      (ids : list string) :
  forall st : Q * list PayoffEntry,
    exists added,
      snd (fold_left (recordPayoff states ob dip m) ids st) = snd st ++ added /\
      Forall (fun e => po_monthsToPayoff e = m) added.
Proof.
  induction ids as [|i ids IH]; intros st; simpl.
  - exists []. by rewrite app_nil_r.
  - destruct (IH (recordPayoff states ob dip m st i)) as (added & -> & Hadded).
    unfold recordPayoff. destruct (find _ states) as [debt|]; simpl.
    + eexists (_ :: added). rewrite <- app_assoc. split; [reflexivity|].
      by constructor.
    + by exists added.
Qed.

Lemma driverStep_payoffOrder st :
  exists added,
    payoffOrder (driverStep strategy extra ob st) = payoffOrder st ++ added /\
    Forall (fun e => po_monthsToPayoff e = S (month st)) added.
Proof.
  unfold driverStep.
  match goal with |- context [fold_left ?f ?ids ?s] =>
    destruct (fold_recordPayoff
                (ms_debts (simulateMonth (debtStates st) extra strategy (S (month st))
                                         (totalInterestPaid st) (freedUpMinimums st)))
                (fold_left trackInterest
                   (ms_payments (simulateMonth (debtStates st) extra strategy (S (month st))
                                               (totalInterestPaid st) (freedUpMinimums st)))
                   (debtInterestPaid st))
                (S (month st)) ids s) as (added & E & Hadded);
    destruct (fold_left f ids s) as [freed order]
  end.
  simpl in *. by exists added.
Qed.

(** The payoff order grows in month order. *)
Lemma driverLoop_payoffOrder (remaining : nat) (st : Driver) :
  StronglySorted (fun a b => (po_monthsToPayoff a <= po_monthsToPayoff b)%nat)
                 (payoffOrder st) ->
  Forall (fun e => (1 <= po_monthsToPayoff e <= month st)%nat) (payoffOrder st) ->
  let fin := driverLoop strategy extra ob remaining st in
  StronglySorted (fun a b => (po_monthsToPayoff a <= po_monthsToPayoff b)%nat)
                 (payoffOrder fin) /\
  Forall (fun e => (1 <= po_monthsToPayoff e <= month fin)%nat) (payoffOrder fin).
Proof.
  intros H1 H2.
  apply (driverLoop_invariant
           (fun st =>
              StronglySorted (fun a b => (po_monthsToPayoff a <= po_monthsToPayoff b)%nat)
                             (payoffOrder st) /\
              Forall (fun e => (1 <= po_monthsToPayoff e <= month st)%nat) (payoffOrder st)));
    [|done].
  clear. intros st [H1 H2] _.
  destruct (driverStep_payoffOrder st) as (added & -> & Hadded).
  rewrite driverStep_month. split.
  - apply StronglySorted_app_2.
    + intros a b Ha Hb.
      pose proof (proj1 (Forall_forall _ _) H2 a Ha).
      pose proof (proj1 (Forall_forall _ _) Hadded b Hb). simpl in *. lia.
    + done.
    + clear -Hadded. induction Hadded as [|e l He Hl IH]; constructor; [done|].
      eapply Forall_impl; [exact Hl|]. intros b Hb. simpl in *. lia.
  - apply Forall_app. split.
    + eapply Forall_impl; [exact H2|]. intros e He. simpl in *. lia.
    + eapply Forall_impl; [exact Hadded|]. intros e He. simpl in *. lia.
Qed.

End Loop.

Lemma initial_isActive (d : DebtAccount) (i : nat) :
  isActive (DebtSimulator.initializeDebtState d i) = (0 <? da_balance d).
Proof.
  unfold isActive, DebtSimulator.initializeDebtState. cbn [ds_isPaidOff ds_balance].
  rewrite ltb_negb_leb. by destruct (da_balance d <=? 0).
Qed.

Lemma initial_hasRemainingDebt (debts : list DebtAccount) :
  DebtSimulator.hasRemainingDebt
    (imap (fun i d => DebtSimulator.initializeDebtState d i) debts) = false <->
  Forall (fun d => da_balance d <= 0) debts.
Proof.
  unfold DebtSimulator.hasRemainingDebt.
  rewrite <- not_true_iff_false, existsb_exists, Forall_forall. split.
  - intros H d Hd. apply list_elem_of_lookup_1 in Hd as [i Hi].
    destruct (leb_reflect (da_balance d) 0) as [L|L]; [done|]. exfalso. apply H.
    exists (DebtSimulator.initializeDebtState d i). split.
    + apply list_elem_of_In, list_elem_of_lookup. exists i.
      apply list_lookup_imap_Some. by exists d.
    + rewrite initial_isActive, ltb_negb_leb.
      by destruct (leb_reflect (da_balance d) 0).
  - intros H (s & Hs & Hact). apply list_elem_of_In, list_elem_of_lookup_1 in Hs as [i Hi].
    apply list_lookup_imap_Some in Hi as (d & Hd & ->).
    rewrite initial_isActive in Hact. destruct (ltb_reflect 0 (da_balance d)) as [L|]; [|done].
    pose proof (H d (list_elem_of_lookup_2 _ _ _ Hd)). lra.
Qed.

(** X9: with a cap of at least one month, a simulation takes zero months
    exactly when no debt of the input has a positive balance; it then has
    an empty schedule, an empty payoff order, and zero interest and amount
    paid. *)
Theorem X9_nothing_owed
        (debts : list DebtAccount) (strategy : DebtStrategy)
        (extraMonthlyPayment : Q) (maxMonths : nat) :
  (0 < maxMonths)%nat ->
  let result := DebtSimulator.simulateStrategy debts strategy extraMonthlyPayment maxMonths in
  (sr_totalMonths result = 0%nat <-> Forall (fun d => da_balance d <= 0) debts) /\
  (sr_totalMonths result = 0%nat ->
   sr_schedule result = [] /\ sr_payoffOrder result = [] /\
   sr_totalInterestPaid result == 0 /\ sr_totalAmountPaid result == 0).
Proof.
  intros Hmax result. subst result. unfold DebtSimulator.simulateStrategy.
  cbn [sr_totalMonths sr_schedule sr_payoffOrder sr_totalInterestPaid sr_totalAmountPaid].
  set (states0 := imap (fun i d => DebtSimulator.initializeDebtState d i) debts).
  set (ob := fold_left (fun m d => <[ds_id d := (ds_balance d, ds_name d)]> m) states0 ∅).
  rewrite <- initial_hasRemainingDebt. fold states0.
  destruct maxMonths as [|n]; [lia|]. simpl DebtSimulator.driverLoop.
  destruct (DebtSimulator.hasRemainingDebt states0) eqn:Hrem; simpl negb; cbv iota.
  - destruct (driverLoop_spec strategy extraMonthlyPayment ob n
                (DebtSimulator.driverStep strategy extraMonthlyPayment ob
                                          (DebtSimulator.initialDriver states0)))
      as (new & _ & Hm & _).
    rewrite driverStep_month in Hm.
    split; [split; [lia|discriminate]|]. lia.
  - split; [done|]. intros _. simpl.
    rewrite fold_recordUnpaid.
    split; [done|]. split; [|split; reflexivity].
    assert (filter (fun d => isActive d = true) states0 = []) as ->; [|done].
    destruct (filter (fun d => isActive d = true) states0) as [|d l] eqn:E; [done|].
    exfalso.
    assert (d ∈ filter (fun d => isActive d = true) states0) as Hd by (rewrite E; left).
    apply list_elem_of_filter in Hd as [Hact Hd].
    unfold DebtSimulator.hasRemainingDebt in Hrem.
    apply not_true_iff_false in Hrem. apply Hrem, existsb_exists.
    exists d. split; [by apply list_elem_of_In|done].
Qed.

Lemma X9_nothing_owed_witness :
  (0 < 12)%nat /\
  (let result := DebtSimulator.simulateStrategy Examples.testDebts avalanche 200 12 in
   (sr_totalMonths result = 0%nat <-> Forall (fun d => da_balance d <= 0) Examples.testDebts) /\
   (sr_totalMonths result = 0%nat ->
    sr_schedule result = [] /\ sr_payoffOrder result = [] /\
    sr_totalInterestPaid result == 0 /\ sr_totalAmountPaid result == 0)).
Proof.
  assert (0 < 12)%nat as H by lia.
  exact (conj H (X9_nothing_owed Examples.testDebts avalanche 200 12 H)).
Defined.

(** X10: the payoff order of a simulation is chronological: the months to
    payoff never decrease along the list, every debt paid off within the
    simulation has a month between 1 and [totalMonths], and the debts that
    were not paid off come last, with the cap plus 999. *)
Theorem X10_payoff_order_chronological
        (debts : list DebtAccount) (strategy : DebtStrategy)
        (extraMonthlyPayment : Q) (maxMonths : nat) :
  let result := DebtSimulator.simulateStrategy debts strategy extraMonthlyPayment maxMonths in
  StronglySorted (fun a b => (po_monthsToPayoff a <= po_monthsToPayoff b)%nat)
                 (sr_payoffOrder result) /\
  Forall (fun e => (1 <= po_monthsToPayoff e <= sr_totalMonths result)%nat \/
                   po_monthsToPayoff e = (maxMonths + 999)%nat)
         (sr_payoffOrder result).
Proof.
  intros result. subst result. unfold DebtSimulator.simulateStrategy.
  cbn [sr_totalMonths sr_payoffOrder].
  set (states0 := imap (fun i d => DebtSimulator.initializeDebtState d i) debts).
  set (ob := fold_left (fun m d => <[ds_id d := (ds_balance d, ds_name d)]> m) states0 ∅).
  destruct (driverLoop_payoffOrder strategy extraMonthlyPayment ob maxMonths
              (DebtSimulator.initialDriver states0)) as [H1 H2];
    [constructor|constructor|].
  destruct (driverLoop_spec strategy extraMonthlyPayment ob maxMonths
              (DebtSimulator.initialDriver states0)) as (new & _ & Hm & Hl & _).
  set (fin := DebtSimulator.driverLoop strategy extraMonthlyPayment ob maxMonths
                                       (DebtSimulator.initialDriver states0)) in *.
  simpl in Hm. rewrite fold_recordUnpaid. split.
  - apply StronglySorted_app_2; [|done|].
    + intros a b Ha (d & -> & _)%list_elem_of_fmap_1.
      pose proof (proj1 (Forall_forall _ _) H2 a Ha). simpl in *. lia.
    + generalize (filter (fun d => isActive d = true) (DebtSimulator.debtStates fin)).
      intros l. induction l as [|d l IH]; simpl; constructor; [done|].
      apply Forall_forall. intros b (d' & -> & _)%list_elem_of_fmap_1. simpl. lia.
  - apply Forall_app. split.
    + eapply Forall_impl; [exact H2|]. intros e He. by left.
    + apply Forall_forall. intros b (d' & -> & _)%list_elem_of_fmap_1. by right.
Qed.

Section Accounts.

Import PayoffStrategies DebtSimulator Summary Behaviour.

Variables (strategy : DebtStrategy) (extra : Q) (ob : gmap string (Q * string)).

Lemma stepDebt_sameAccount alloc d : sameAccount d (stepDebt alloc d).
Proof. unfold sameAccount, stepDebt. by destruct (ds_isPaidOff d || (ds_balance d <=? 0)). Qed.

Lemma sameAccount_step alloc d0 d : sameAccount d0 d -> sameAccount d0 (stepDebt alloc d).
Proof.
  intros (H1 & H2 & H3 & H4 & H5 & H6).
  destruct (stepDebt_sameAccount alloc d) as (G1 & G2 & G3 & G4 & G5 & G6).
  unfold sameAccount. by rewrite G1, G2, G3, G4, G5, G6.
Qed.

Lemma driverLoop_accounts (states0 : list DebtState) (remaining : nat) (st : Driver) :
  Forall2 sameAccount states0 (debtStates st) ->
  Forall (fun state => Forall2 sameAccount states0 (ms_debts state)) (schedule st) ->
  let fin := driverLoop strategy extra ob remaining st in
  Forall2 sameAccount states0 (debtStates fin) /\
  Forall (fun state => Forall2 sameAccount states0 (ms_debts state)) (schedule fin).
Proof.
  intros H1 H2.
  apply (driverLoop_invariant strategy extra ob
           (fun st =>
              Forall2 sameAccount states0 (debtStates st) /\
              Forall (fun state => Forall2 sameAccount states0 (ms_debts state))
                     (schedule st))); [|done].
  clear H1 H2. intros st' [H1 H2] _.
  rewrite driverStep_debtStates, driverStep_schedule.
  assert (Forall2 sameAccount states0
            (ms_debts (simulateMonth (debtStates st') extra strategy (S (month st'))
                                     (totalInterestPaid st') (freedUpMinimums st')))) as H.
  { rewrite simulateMonth_debts. apply Forall2_fmap_r.
    eapply Forall2_impl; [exact H1|]. intros d0 d Hd. by apply sameAccount_step. }
  split; [done|]. apply Forall_app. split; [done|]. by constructor.
Qed.

End Accounts.

Lemma Forall2_sameAccount_refl (l : list DebtState) : Forall2 Behaviour.sameAccount l l.
Proof. apply Forall_Forall2_diag, Forall_forall. by intros d _. Qed.

(** X11: in every month of a simulation's schedule, the array of debt
    states lines up with the debts the simulation started from: as many
    states, in the same order, each with the id, name, type, APR, minimum
    payment and credit limit it started with.  A simulation changes only
    balances and paid-off flags. *)
Theorem X11_schedule_keeps_accounts
        (debts : list DebtAccount) (strategy : DebtStrategy)
        (extraMonthlyPayment : Q) (maxMonths : nat) :
  Forall (fun state =>
            Forall2 Behaviour.sameAccount (Behaviour.initialStates debts) (ms_debts state))
         (sr_schedule
            (DebtSimulator.simulateStrategy debts strategy extraMonthlyPayment maxMonths)).
Proof.
  unfold DebtSimulator.simulateStrategy. cbn [sr_schedule].
  apply driverLoop_accounts.
  - apply Forall2_sameAccount_refl.
  - constructor.
Qed.

Section Interest.

Import PayoffStrategies DebtSimulator Summary Behaviour.

Variables (strategy : DebtStrategy) (extra : Q) (ob : gmap string (Q * string)).

Local Abbreviation interestOrder :=
  (fun a b : MonthlySimulationState => ms_totalInterestPaid a <= ms_totalInterestPaid b).

(** The running interest total as the loop carries it. *)
Local Abbreviation interestInvariant :=
  (fun st : Driver =>
     Forall (fun d => 0 <= ds_apr d /\ 0 <= ds_minimumPayment d) (debtStates st) /\
     Num.roundCents (totalInterestPaid st) = totalInterestPaid st /\
     0 <= totalInterestPaid st /\
     StronglySorted interestOrder (schedule st) /\
     Forall (fun m => 0 <= ms_totalInterestPaid m <= totalInterestPaid st) (schedule st) /\
     totalInterestPaid st = default 0 (ms_totalInterestPaid <$> last (schedule st))).

Lemma interest_parts_nonneg (debts : list DebtState) (month : nat) (tot freed : Q) :
  Forall (fun d => 0 <= ds_apr d /\ 0 <= ds_minimumPayment d) debts ->
  0 <= Num.sumList (map dp_interestPaid
                        (ms_payments (simulateMonth debts extra strategy month tot freed))).
Proof.
  intros H. apply sumList_nonneg. apply Forall_fmap.
  by apply simulateMonth_interest_nonneg.
Qed.

Lemma driverStep_interest (st : Driver) :
  interestInvariant st -> interestInvariant (driverStep strategy extra ob st).
Proof.
  intros (Hd & Hr & H0 & Hs & Hf & Hl).
  rewrite driverStep_debtStates, driverStep_schedule.
  set (state := simulateMonth (debtStates st) extra strategy (S (month st))
                              (totalInterestPaid st) (freedUpMinimums st)).
  assert (totalInterestPaid (driverStep strategy extra ob st) = ms_totalInterestPaid state)
    as Et by (unfold driverStep; by destruct (fold_left _ _ _)).
  rewrite Et.
  pose proof (simulateMonth_totalInterest (debtStates st) extra strategy (S (month st))
                (totalInterestPaid st) (freedUpMinimums st)) as E.
  cbv zeta in E. fold state in E.
  pose proof (interest_parts_nonneg (debtStates st) (S (month st))
                (totalInterestPaid st) (freedUpMinimums st) Hd) as Hparts.
  fold state in Hparts.
  assert (totalInterestPaid st <= ms_totalInterestPaid state) as Hle.
  { rewrite E, <- Hr at 1. apply roundCents_mono. lra. }
  split; [|split; [|split; [|split; [|split]]]].
  - unfold state. rewrite simulateMonth_debts. apply Forall_fmap.
    eapply Forall_impl; [exact Hd|]. intros d [Ha Hm]. simpl.
    destruct (stepDebt_sameAccount
                (monthAllocations (debtStates st) extra strategy (freedUpMinimums st)) d)
      as (_ & _ & _ & -> & -> & _). done.
  - rewrite E. apply roundCents_idem.
  - lra.
  - apply StronglySorted_app_2; [|done|repeat constructor].
    intros a b Ha ->%list_elem_of_singleton.
    pose proof (proj1 (Forall_forall _ _) Hf a Ha). simpl in *. lra.
  - apply Forall_app. split.
    + eapply Forall_impl; [exact Hf|]. intros m Hm. simpl in *. lra.
    + constructor; [|constructor]. lra.
  - by rewrite last_snoc.
Qed.

Lemma driverLoop_interest (remaining : nat) (st : Driver) :
  interestInvariant st -> interestInvariant (driverLoop strategy extra ob remaining st).
Proof.
  apply (driverLoop_invariant strategy extra ob interestInvariant).
  intros st' H _. by apply driverStep_interest.
Qed.

End Interest.

Lemma calculateAmortizedPayment_nonneg (principal annualRate : Q) (termMonths : positive) :
  0 <= annualRate ->
  0 <= DebtSimulator.calculateAmortizedPayment principal annualRate termMonths.
Proof.
  intros Hr. unfold DebtSimulator.calculateAmortizedPayment.
  destruct (leb_reflect principal 0) as [Hp|Hp]; [apply Qle_refl|].
  destruct (eqb_reflect (annualRate / 100 / 12) 0) as [E|N].
  - apply Qle_shift_div_l; [reflexivity|]. lra.
  - assert (annualRate / 100 / 12 == annualRate / 1200) as E by field.
    assert (0 < annualRate / 100 / 12) as Hpos.
    { rewrite E in *. apply Qlt_shift_div_l; [reflexivity|].
      apply Qnot_le_lt. intros C. apply N. 
      assert (annualRate == 0) as -> by lra. reflexivity. }
    apply roundCents_nonneg.
    pose proof (amortization_denominator_positive _ termMonths Hpos) as Hden.
    apply Qle_shift_div_l; [done|]. rewrite Qmult_0_l.
    assert (0 < (1 + annualRate / 100 / 12) ^ Z.pos termMonths) by lra.
    apply Qmult_le_0_compat; [lra|]. apply Qmult_le_0_compat; lra.
Qed.

Lemma initial_admissible (debts : list DebtAccount) :
  Forall Behaviour.admissible debts ->
  Forall (fun d => 0 <= ds_apr d /\ 0 <= ds_minimumPayment d)
         (Behaviour.initialStates debts).
Proof.
  intros H. apply Forall_lookup. intros i s Hi.
  apply list_lookup_imap_Some in Hi as (d & Hd & ->).
  destruct (Forall_lookup_1 _ _ _ _ H Hd) as [Hapr Hmin].
  unfold DebtSimulator.initializeDebtState. cbn [ds_apr ds_minimumPayment].
  split; [done|].
  destruct (da_minimum_payment d) as [m|] eqn:E; [by apply Hmin|].
  unfold DebtSimulator.calculateMinimumPayment.
  destruct (da_type d); try (by apply calculateAmortizedPayment_nonneg).
  - eapply Qle_trans; [|apply Q.le_max_l]. eapply Qle_trans; [|apply Q.le_max_r].
    vm_compute. discriminate.
  - eapply Qle_trans; [|apply Q.le_max_r]. vm_compute. discriminate.
  - eapply Qle_trans; [|apply Q.le_max_r]. vm_compute. discriminate.
  - eapply Qle_trans; [|apply Q.le_max_r]. vm_compute. discriminate.
  - eapply Qle_trans; [|apply Q.le_max_r]. vm_compute. discriminate.
Qed.

(** X12: for debts whose APR and supplied minimum payment are not negative,
    the cumulative [totalInterestPaid] of the schedule never decreases from
    one month to the next, lies between zero and the simulation's
    [totalInterestPaid] in every month, and the simulation's
    [totalInterestPaid] is the figure of the last month (zero for an empty
    schedule). *)
Theorem X12_cumulative_interest
        (debts : list DebtAccount) (strategy : DebtStrategy)
        (extraMonthlyPayment : Q) (maxMonths : nat) :
  Forall Behaviour.admissible debts ->
  let result := DebtSimulator.simulateStrategy debts strategy extraMonthlyPayment maxMonths in
  StronglySorted (fun a b => ms_totalInterestPaid a <= ms_totalInterestPaid b)
                 (sr_schedule result) /\
  Forall (fun m => 0 <= ms_totalInterestPaid m <= sr_totalInterestPaid result)
         (sr_schedule result) /\
  sr_totalInterestPaid result = default 0 (ms_totalInterestPaid <$> last (sr_schedule result)).
Proof.
  intros Hadm result. subst result. unfold DebtSimulator.simulateStrategy.
  cbn [sr_schedule sr_totalInterestPaid].
  set (states0 := imap (fun i d => DebtSimulator.initializeDebtState d i) debts).
  set (ob := fold_left (fun m d => <[ds_id d := (ds_balance d, ds_name d)]> m) states0 ∅).
  destruct (driverLoop_interest strategy extraMonthlyPayment ob maxMonths
              (DebtSimulator.initialDriver states0)) as (_ & Hr & _ & Hs & Hf & Hl).
  { simpl. split; [by apply initial_admissible|]. split; [reflexivity|].
    split; [apply Qle_refl|]. split; [constructor|]. split; [constructor|done]. }
  rewrite Hr. split; [done|]. split; done.
Qed.

Lemma X12_cumulative_interest_witness :
  Forall Behaviour.admissible Examples.testDebts /\
  (let result := DebtSimulator.simulateStrategy Examples.testDebts avalanche 200 12 in
   StronglySorted (fun a b => ms_totalInterestPaid a <= ms_totalInterestPaid b)
                  (sr_schedule result) /\
   Forall (fun m => 0 <= ms_totalInterestPaid m <= sr_totalInterestPaid result)
          (sr_schedule result) /\
   sr_totalInterestPaid result =
     default 0 (ms_totalInterestPaid <$> last (sr_schedule result))).
Proof.
  assert (Forall Behaviour.admissible Examples.testDebts) as H.
  { repeat (constructor;
            [split; [vm_compute; discriminate|intros m [= <-]; vm_compute; discriminate]|]).
    constructor. }
  exact (conj H (X12_cumulative_interest Examples.testDebts avalanche 200 12 H)).
Defined.

(** X13: [compareStrategies] returns the four simulations in the order
    avalanche, snowball, hybrid, minimum_only, the last one run with no
    extra payment; the savings against minimum payments are never negative
    and never exceed the savings against the worst strategy, and the time
    saved is never negative. *)
Theorem X13_comparison_savings
        (debts : list DebtAccount) (extraMonthlyPayment : Q) (maxMonths : nat) :
  let comparison := DebtSimulator.compareStrategies debts extraMonthlyPayment maxMonths in
  sc_strategies comparison =
    [ DebtSimulator.simulateStrategy debts avalanche extraMonthlyPayment maxMonths;
      DebtSimulator.simulateStrategy debts snowball extraMonthlyPayment maxMonths;
      DebtSimulator.simulateStrategy debts hybrid extraMonthlyPayment maxMonths;
      DebtSimulator.simulateStrategy debts minimum_only 0 maxMonths ] /\
  0 <= sc_savingsVsMinimum comparison <= sc_savingsVsWorst comparison /\
  (0 <= sc_timeSavedMonths comparison)%Z.
Proof.
  unfold DebtSimulator.compareStrategies.
  cbn [sc_strategies sc_savingsVsMinimum sc_savingsVsWorst sc_timeSavedMonths map].
  rewrite !bool_decide_eq_false_2 by discriminate.
  rewrite bool_decide_eq_true_2 by done.
  rewrite !findStrategy_tail by (rewrite simulateStrategy_strategy; discriminate).
  rewrite findStrategy_head by apply simulateStrategy_strategy.
  set (a := DebtSimulator.simulateStrategy debts avalanche extraMonthlyPayment maxMonths).
  set (s := DebtSimulator.simulateStrategy debts snowball extraMonthlyPayment maxMonths).
  set (h := DebtSimulator.simulateStrategy debts hybrid extraMonthlyPayment maxMonths).
  set (m := DebtSimulator.simulateStrategy debts minimum_only 0 maxMonths).
  set (interests := [sr_totalInterestPaid a; sr_totalInterestPaid s;
                     sr_totalInterestPaid h; sr_totalInterestPaid m]).
  assert (sr_totalInterestPaid m ∈ interests) as Hin by (unfold interests; set_solver).
  pose proof (minList_le interests _ Hin) as Hmin.
  pose proof (maxList_ge interests _ Hin) as Hmax.
  split; [done|]. split; [split|].
  - apply roundCents_nonneg. lra.
  - apply roundCents_mono. lra.
  - cbn [fold_left]. lia.
Qed.

(** X14: when no debt of the input carries an id, the ids that
    [initializeDebtState] generates from the positions are pairwise
    distinct, so the per-id bookkeeping of the simulation (allocations,
    interest per debt, payoff order) never merges two debts. *)
Theorem X14_generated_ids_distinct (debts : list DebtAccount) :
  Forall (fun d => da_id d = None) debts ->
  NoDup (map ds_id (Behaviour.initialStates debts)).
Proof.
  intros H. unfold Behaviour.initialStates.
  change (map ds_id ?l) with (ds_id <$> l). rewrite fmap_imap.
  rewrite (imap_ext _ (fun i _ => "debt_" +:+ pretty i)).
  - rewrite imap_seq_0.
    apply (NoDup_fmap_2 (String.app "debt_" ∘ pretty)), NoDup_seq.
  - intros i d Hd. simpl.
    by rewrite (Forall_lookup_1 _ _ _ _ H Hd).
Qed.

Lemma X14_generated_ids_distinct_witness :
  Forall (fun d => da_id d = None) Behaviour.anonymousDebts /\
  NoDup (map ds_id (Behaviour.initialStates Behaviour.anonymousDebts)).
Proof.
  assert (Forall (fun d => da_id d = None) Behaviour.anonymousDebts) as H
    by (repeat constructor).
  exact (conj H (X14_generated_ids_distinct Behaviour.anonymousDebts H)).
Defined.

(** ** debtSimulator.ts: the insights *)

Section Insights.

Import DebtSimulator.

Context (better : DebtAccount -> DebtAccount -> bool) (R : DebtAccount -> DebtAccount -> Prop).
Hypothesis R_refl : forall x, R x x.
Hypothesis R_trans : forall x y z, R x y -> R y z -> R x z.
Hypothesis better_true : forall d best, better d best = true -> R best d.
Hypothesis better_false : forall d best, better d best = false -> R d best.

Lemma reduce_fold (rest : list DebtAccount) :
  forall first,
    let b := fold_left (fun best d => if better d best then d else best) rest first in
    (b = first \/ b ∈ rest) /\ R first b /\ Forall (fun x => R x b) rest.
Proof.
  induction rest as [|d rest IH]; intros first; simpl.
  - split; [by left|]. split; [apply R_refl|constructor].
  - destruct (better d first) eqn:E.
    + destruct (IH d) as (Hin & Hd & Hrest).
      split; [destruct Hin as [->|Hin]; right; [left|by right]|].
      split; [eapply R_trans; [by apply better_true|exact Hd]|].
      by constructor.
    + destruct (IH first) as (Hin & Hf & Hrest).
      split; [destruct Hin as [->|Hin]; [by left|right; by right]|].
      split; [done|]. constructor; [|done].
      eapply R_trans; [by apply better_false|exact Hf].
Qed.

(** The reduction returns an element that [R] puts last, and nothing
    only for the empty list. *)
Lemma reduceBest_spec (xs : list DebtAccount) :
  match reduceBest better xs with
  | None => xs = []
  | Some b => b ∈ xs /\ Forall (fun x => R x b) xs
  end.
Proof.
  destruct xs as [|first rest]; simpl; [done|].
  destruct (reduce_fold rest first) as (Hin & Hf & Hrest).
  split; [destruct Hin as [->|Hin]; [left|by right]|]. by constructor.
Qed.

End Insights.

Lemma no_positive_balance (debts : list DebtAccount) :
  filter (fun d => (0 <? da_balance d) = true) debts = [] ->
  Forall (fun d => da_balance d <= 0) debts.
Proof.
  intros E. apply Forall_forall. intros d Hd.
  destruct (leb_reflect (da_balance d) 0) as [L|L]; [done|]. exfalso.
  assert (d ∈ filter (fun d => (0 <? da_balance d) = true) debts) as Hin.
  { apply list_elem_of_filter. split; [|done].
    rewrite ltb_negb_leb. by destruct (leb_reflect (da_balance d) 0). }
  rewrite E in Hin. by apply elem_of_nil in Hin.
Qed.

(** X15: of the insights, [highestAPRDebt] is a debt of the input with a
    positive balance whose APR no other debt with a positive balance
    exceeds, and [lowestBalanceDebt] is one whose balance none of them
    undercuts; each is null only when no debt of the input has a positive
    balance. *)
Theorem X15_insights_extremes
        (debts : list DebtAccount) (comparison : StrategyComparison) :
  let insights := DebtSimulator.generateDebtInsights debts comparison in
  match DebtSimulator.di_highestAPRDebt insights with
  | None => Forall (fun d => da_balance d <= 0) debts
  | Some h =>
    (exists d, d ∈ debts /\ 0 < da_balance d /\
               DebtSimulator.ha_apr h = da_apr d /\
               DebtSimulator.ha_balance h = da_balance d) /\
    Forall (fun d => 0 < da_balance d -> da_apr d <= DebtSimulator.ha_apr h) debts
  end /\
  match DebtSimulator.di_lowestBalanceDebt insights with
  | None => Forall (fun d => da_balance d <= 0) debts
  | Some l =>
    (exists d, d ∈ debts /\ 0 < da_balance d /\
               DebtSimulator.lb_balance l = da_balance d) /\
    Forall (fun d => 0 < da_balance d -> DebtSimulator.lb_balance l <= da_balance d) debts
  end.
Proof.
  unfold DebtSimulator.generateDebtInsights.
  cbn [DebtSimulator.di_highestAPRDebt DebtSimulator.di_lowestBalanceDebt].
  set (activeDebts := filter (fun d => (0 <? da_balance d) = true) debts).
  assert (Hactive : forall d, d ∈ activeDebts <-> 0 < da_balance d /\ d ∈ debts).
  { intros d. unfold activeDebts. rewrite list_elem_of_filter.
    destruct (ltb_reflect 0 (da_balance d)); split; intros [? ?]; by split. }
  split.
  - pose proof (reduceBest_spec (fun d max => da_apr max <? da_apr d)
                                (fun x b => da_apr x <= da_apr b)) as H.
    specialize (H (fun x => Qle_refl _) (fun x y z => Qle_trans _ _ _)).
    assert (forall d best, (da_apr best <? da_apr d) = true -> da_apr best <= da_apr d) as T.
    { intros d best E. destruct (ltb_reflect (da_apr best) (da_apr d)); [lra|done]. }
    assert (forall d best, (da_apr best <? da_apr d) = false -> da_apr d <= da_apr best) as F.
    { intros d best E. destruct (ltb_reflect (da_apr best) (da_apr d)); [done|lra]. }
    specialize (H T F activeDebts).
    destruct (DebtSimulator.reduceBest _ activeDebts) as [b|]; simpl.
    + destruct H as [Hin Hall]. apply Hactive in Hin as [Hpos Hin]. split.
      * by exists b.
      * apply Forall_forall. intros d Hd Hp.
        apply (proj1 (Forall_forall _ _) Hall d). by apply Hactive.
    + by apply no_positive_balance.
  - pose proof (reduceBest_spec (fun d min => da_balance d <? da_balance min)
                                (fun x b => da_balance b <= da_balance x)) as H.
    specialize (H (fun x => Qle_refl _) (fun x y z H1 H2 => Qle_trans _ _ _ H2 H1)).
    assert (forall d best, (da_balance d <? da_balance best) = true ->
                           da_balance d <= da_balance best) as T.
    { intros d best E. destruct (ltb_reflect (da_balance d) (da_balance best)); [lra|done]. }
    assert (forall d best, (da_balance d <? da_balance best) = false ->
                           da_balance best <= da_balance d) as F.
    { intros d best E. destruct (ltb_reflect (da_balance d) (da_balance best)); [done|lra]. }
    specialize (H T F activeDebts).
    destruct (DebtSimulator.reduceBest _ activeDebts) as [b|]; simpl.
    + destruct H as [Hin Hall]. apply Hactive in Hin as [Hpos Hin]. split.
      * by exists b.
      * apply Forall_forall. intros d Hd Hp.
        apply (proj1 (Forall_forall _ _) Hall d). by apply Hactive.
    + by apply no_positive_balance.
Qed.

Lemma weighted_sum_bounds (lo hi : Q) (l : list DebtAccount) :
  Forall (fun d => 0 < da_balance d /\ lo <= da_apr d <= hi) l ->
  lo * Num.sumList (map da_balance l) <=
    Num.sumList (map (fun d => da_apr d * da_balance d) l) <=
  hi * Num.sumList (map da_balance l) /\
  0 <= Num.sumList (map da_balance l) /\
  (l <> [] -> 0 < Num.sumList (map da_balance l)).
Proof.
  induction 1 as [|d l [Hb Hd] Hl IH].
  - unfold Num.sumList. simpl. split; [lra|]. split; [lra|done].
  - simpl map. rewrite !sumList_cons.
    destruct IH as (IH1 & IH2 & _).
    split; [nra|]. split; [lra|]. intros _. lra.
Qed.



(** ** affordRules.ts and affordCalculator.ts: score, decision, advice *)

Section Rules.

Import AffordTypes AffordRules AffordCalculator.

Lemma sumList_filter_le (P : RuleResult -> Prop) `{forall r, Decision (P r)}
      (l : list RuleResult) :
  Forall (fun r => 0 <= weight r) l ->
  0 <= Num.sumList (map weight (filter P l)) <= Num.sumList (map weight l).
Proof.
  induction 1 as [|r l Hr Hl IH].
  - split; vm_compute; discriminate.
  - rewrite filter_cons. simpl map. destruct (decide (P r)); simpl map;
      rewrite ?sumList_cons; lra.
Qed.

(** A rule that failed keeps its weight out of the weighted sum. *)
Lemma sumList_passed_gap (l : list RuleResult) (r : RuleResult) :
  Forall (fun r => 0 <= weight r) l ->
  r ∈ l -> passed r = false ->
  Num.sumList (map weight (filter (fun r => passed r = true) l)) + weight r
  <= Num.sumList (map weight l).
Proof.
  intros Hl Hr Hp. induction Hl as [|x l Hx Hl IH]; [by apply elem_of_nil in Hr|].
  rewrite filter_cons. simpl map. rewrite sumList_cons.
  apply elem_of_cons in Hr as [<-|Hr].
  - rewrite Hp. simpl.
    pose proof (sumList_filter_le (fun r => passed r = true) l Hl). lra.
  - specialize (IH Hr). destruct (passed x); simpl; rewrite ?sumList_cons; lra.
Qed.

Variables (metrics : AffordabilityMetrics) (impact : PurchaseImpact) (purchaseAmount : Q).

Local Abbreviation results :=
  (map (fun rule : RuleFunction => rule metrics impact purchaseAmount) ALL_RULES).
Local Abbreviation applicable := (filter (fun r => (0 <? weight r) = true) results).
Local Abbreviation evaluation := (evaluateAffordabilityRules metrics impact purchaseAmount).

(** The weights of the eight results: the utilization rule and the luxury
    rule carry weight only when they apply. *)
Lemma rules_weights :
  map weight results =
  [ 25 # 100; 20 # 100; 15 # 100;
    match creditUtilizationChange impact with Some _ => 10 # 100 | None => 0 end;
    15 # 100; 10 # 100; 5 # 100;
    if debtToIncomeRatio metrics <=? Thresholds.DEBT_TO_INCOME_GOOD then 0 else 5 # 100 ].
Proof.
  unfold ALL_RULES. cbn [map].
  unfold sufficientBufferRule, positiveCashflowRule, debtToIncomeRule,
    creditUtilizationRule, emergencyFundRule, purchaseSizeRule,
    bufferConsumptionRule, luxuryWhileInDebtRule.
  match goal with
  | |- context [let '(_, _) := ?x in _] => destruct x
  end.
  destruct (creditUtilizationChange impact),
           (debtToIncomeRatio metrics <=? Thresholds.DEBT_TO_INCOME_GOOD); reflexivity.
Qed.

Lemma filter_weights (l : list RuleResult) :
  map weight (filter (fun r => (0 <? weight r) = true) l) =
  filter (fun w => (0 <? w) = true) (map weight l).
Proof.
  induction l as [|r l IH]; [done|].
  simpl map. rewrite !filter_cons. destruct (decide ((0 <? weight r) = true)); simpl; by rewrite IH.
Qed.

Lemma total_weight_bound : Num.sumList (map weight applicable) <= 105 # 100.
Proof.
  rewrite filter_weights, rules_weights.
  destruct (creditUtilizationChange impact),
           (debtToIncomeRatio metrics <=? Thresholds.DEBT_TO_INCOME_GOOD);
    vm_compute; discriminate.
Qed.

Lemma applicable_count : (6 <= length applicable <= 8)%nat.
Proof.
  rewrite <- (length_map weight), filter_weights, rules_weights.
  destruct (creditUtilizationChange impact),
           (debtToIncomeRatio metrics <=? Thresholds.DEBT_TO_INCOME_GOOD);
    vm_compute; lia.
Qed.

Lemma applicable_nonneg : Forall (fun r => 0 <= weight r) applicable.
Proof. apply filter_Forall, rule_weights_nonneg. Qed.

(** The score as a quotient of two sums over the applicable rules. *)
Lemma weightedScore_quotient :
  weightedScore evaluation ==
  Num.sumList (map weight (filter (fun r => passed r = true) applicable))
  / Num.sumList (map weight applicable).
Proof.
  rewrite weightedScore_spec. unfold Spec.weightedScoreAsSpecified.
  cbn [rules evaluateAffordabilityRules].
  by rewrite <- (applicable_filters_agree results (rule_weights_nonneg _ _ _)).
Qed.

Lemma score_range : 0 <= weightedScore evaluation <= 1.
Proof.
  rewrite weightedScore_quotient.
  pose proof (total_weight_positive metrics impact purchaseAmount) as Hpos.
  pose proof (sumList_filter_le (fun r => passed r = true) applicable applicable_nonneg).
  split.
  - apply Qle_shift_div_l; [done|]. lra.
  - apply Qle_shift_div_r; [done|]. lra.
Qed.

(** A failed rule of weight [w] caps the score at [1 - w / 1.05]. *)
Lemma score_capped (r : RuleResult) :
  r ∈ results -> 0 < weight r -> passed r = false ->
  weightedScore evaluation <= 1 - weight r / (105 # 100).
Proof.
  intros Hr Hw Hp. rewrite weightedScore_quotient.
  pose proof (total_weight_positive metrics impact purchaseAmount) as Hpos.
  pose proof total_weight_bound as Hbound.
  assert (r ∈ applicable) as Hin.
  { apply list_elem_of_filter. split; [|done]. by destruct (ltb_reflect 0 (weight r)). }
  pose proof (sumList_passed_gap applicable r applicable_nonneg Hin Hp) as Hgap.
  set (T := Num.sumList (map weight applicable)) in *.
  set (S := Num.sumList (map weight (filter (fun r => passed r = true) applicable))) in *.
  apply Qle_shift_div_r; [done|].
  assert (weight r / (105 # 100) * T <= weight r); [|lra].
  assert (weight r / (105 # 100) * T == weight r * (T / (105 # 100))) as -> by field.
  assert (T / (105 # 100) <= 1) by (apply Qle_shift_div_r; [reflexivity|lra]).
  nra.
Qed.

(** With no failed rule the score is 1, and only then. *)
Lemma score_one_iff :
  failCount evaluation = 0%nat <-> weightedScore evaluation == 1.
Proof.
  rewrite weightedScore_quotient.
  pose proof (total_weight_positive metrics impact purchaseAmount) as Hpos.
  cbn [failCount evaluateAffordabilityRules].
  set (T := Num.sumList (map weight applicable)) in *.
  split.
  - intros H0. apply length_zero_iff_nil in H0.
    assert (filter (fun r => passed r = true) applicable = applicable) as ->.
    { clear -H0. induction applicable as [|r l IH]; [done|].
      rewrite filter_cons in *. destruct (passed r) eqn:E; simpl in *; [|done].
      by rewrite IH. }
    fold T. field. lra.
  - intros E. apply length_zero_iff_nil.
    destruct (filter (fun r => passed r = false) applicable) as [|r l] eqn:F; [done|].
    exfalso.
    assert (r ∈ filter (fun r => passed r = false) applicable) as Hr by (rewrite F; left).
    apply list_elem_of_filter in Hr as [Hp Hr].
    pose proof (sumList_passed_gap applicable r applicable_nonneg Hr Hp) as Hgap.
    apply list_elem_of_filter in Hr as [Hw _].
    destruct (ltb_reflect 0 (weight r)) as [Hw'|]; [|done].
    fold T in Hgap.
    assert (Num.sumList (map weight (filter (fun r => passed r = true) applicable)) == T).
    { apply (Qmult_inj_r _ _ (/ T)); [|by rewrite E, Qmult_inv_r by lra].
      intros Z. assert (T * / T == 1) by (apply Qmult_inv_r; lra). rewrite Z in *. lra. }
    lra.
Qed.

Lemma counts_add_up :
  (passCount evaluation + failCount evaluation = length applicable)%nat.
Proof.
  cbn [passCount failCount evaluateAffordabilityRules].
  induction applicable as [|r l IH]; [done|].
  rewrite !filter_cons. destruct (passed r); simpl; lia.
Qed.

End Rules.

(** X17: the weighted score of a rule evaluation lies between 0 and 1, and
    the confidence derived from it, for whatever final decision, lies
    between 0 and the score: it is a valid confidence in the sense of
    [isValidConfidence]. *)
Theorem X17_score_and_confidence_range
        (metrics : AffordTypes.AffordabilityMetrics) (impact : AffordTypes.PurchaseImpact)
        (purchaseAmount : Q) (decision : AffordTypes.DecisionOutcome) :
  let evaluation := AffordRules.evaluateAffordabilityRules metrics impact purchaseAmount in
  let confidence := AffordCalculator.confidenceOf impact evaluation decision in
  0 <= AffordTypes.weightedScore evaluation <= 1 /\
  0 <= confidence <= AffordTypes.weightedScore evaluation /\
  Validation.isValidConfidence confidence = true.
Proof.
  intros evaluation confidence.
  pose proof (score_range metrics impact purchaseAmount) as Hs. fold evaluation in Hs.
  assert (0 <= confidence <= AffordTypes.weightedScore evaluation) as Hc.
  { unfold confidence, AffordCalculator.confidenceOf.
    match goal with |- context [Qmin 1 ?x] => set (c := x) end.
    assert (0 <= c <= AffordTypes.weightedScore evaluation) as Hc.
    { unfold c. destruct (_ && _); lra. }
    destruct (Q.min_spec 1 c) as [[? ->]|[? ->]];
      destruct (Q.max_spec 0 c) as [[? E]|[? E]];
      try (rewrite Q.max_r by lra); try (rewrite E); lra. }
  split; [done|]. split; [done|].
  unfold Validation.isValidConfidence.
  destruct (leb_reflect 0 confidence) as [|N]; [|lra].
  destruct (leb_reflect confidence 1) as [|N]; [done|lra].
Qed.

(** X18: a rule evaluation always holds eight results, between six and
    eight of them applicable (the utilization rule and the luxury rule may
    carry no weight); [passCount] and [failCount] add up to the number of
    applicable rules, and [failCount] is zero exactly when the weighted
    score is 1. *)
Theorem X18_rule_counts
        (metrics : AffordTypes.AffordabilityMetrics) (impact : AffordTypes.PurchaseImpact)
        (purchaseAmount : Q) :
  let evaluation := AffordRules.evaluateAffordabilityRules metrics impact purchaseAmount in
  let counted := (AffordTypes.passCount evaluation + AffordTypes.failCount evaluation)%nat in
  length (AffordTypes.rules evaluation) = 8%nat /\
  counted = length (filter (fun r => (0 <? AffordTypes.weight r) = true)
                           (AffordTypes.rules evaluation)) /\
  (6 <= counted <= 8)%nat /\
  (AffordTypes.failCount evaluation = 0%nat <-> AffordTypes.weightedScore evaluation == 1).
Proof.
  intros evaluation counted. split; [reflexivity|].
  pose proof (counts_add_up metrics impact purchaseAmount) as Hc.
  pose proof (applicable_count metrics impact purchaseAmount) as Ha.
  split; [exact Hc|]. split; [unfold counted, evaluation; lia|].
  apply score_one_iff.
Qed.

Section Advice.

Import AffordTypes AffordRules AffordCalculator.

Lemma calculateAffordability_inv (profile : UserFinancialProfile)
      (purchase : PurchaseRequest) (result : AffordabilityCalculation) :
  calculateAffordability profile purchase = Some result ->
  exists metrics impact,
    calculateMetrics profile = Some metrics /\
    calculatePurchaseImpact metrics purchase profile = Some impact /\
    let evaluation := evaluateAffordabilityRules metrics impact (amount purchase) in
    result =
    {| ac_metrics := metrics;
       ac_impact := impact;
       ac_ruleEvaluation := evaluation;
       ac_decision := finalDecisionOf metrics impact evaluation;
       ac_confidence :=
         confidenceOf impact evaluation (finalDecisionOf metrics impact evaluation);
       ac_riskLevel := suggestedRiskLevel evaluation;
       ac_reasonCodes := allReasonCodes evaluation |}.
Proof.
  unfold calculateAffordability. intros H.
  destruct (calculateMetrics profile) as [metrics|] eqn:E1; [|discriminate].
  cbn [mbind option_bind] in H.
  destruct (calculatePurchaseImpact metrics purchase profile) as [impact|] eqn:E2;
    [|discriminate].
  cbn [mbind option_bind] in H. injection H as <-.
  exists metrics, impact. split; [done|]. split; [done|]. reflexivity.
Qed.

Lemma calculateAffordability_total (profile : UserFinancialProfile)
      (purchase : PurchaseRequest) :
  exists result, calculateAffordability profile purchase = Some result.
Proof.
  unfold calculateAffordability.
  destruct (calculateMetrics_total profile) as (metrics & -> & _).
  cbn [mbind option_bind].
  destruct (calculatePurchaseImpact_total metrics purchase profile) as (impact & -> & _).
  cbn [mbind option_bind]. by eexists.
Qed.

Variables (metrics : AffordabilityMetrics) (impact : PurchaseImpact) (purchaseAmount : Q).

Local Abbreviation results :=
  (map (fun rule : RuleFunction => rule metrics impact purchaseAmount) ALL_RULES).
Local Abbreviation evaluation := (evaluateAffordabilityRules metrics impact purchaseAmount).

(** A suggestion of YES needs the two heaviest rules to pass. *)
Lemma yes_needs_buffer :
  suggestedDecision evaluation = YES ->
  1 <= monthsOfBufferRemaining impact /\
  0 < default (monthlyCashflow metrics) (newMonthlyCashflow impact).
Proof.
  intros H.
  assert (85 # 100 <= weightedScore evaluation) as Hs.
  { cbn [suggestedDecision evaluateAffordabilityRules] in H.
    match type of H with
    | (if ?a <=? ?b then _ else _) = _ => destruct (leb_reflect a b) as [L|L]; [exact L|]
    end.
    repeat match type of H with
           | (if ?c then _ else _) = _ => destruct c
           end; discriminate. }
  split.
  - destruct (leb_reflect 1 (monthsOfBufferRemaining impact)) as [L|L]; [done|]. exfalso.
    pose proof (score_capped metrics impact purchaseAmount
                  (sufficientBufferRule metrics impact purchaseAmount)) as Hcap.
    assert (weightedScore evaluation <= 1 - (25 # 100) / (105 # 100)) as Hle.
    { apply Hcap.
      - unfold ALL_RULES. cbn [map]. repeat constructor.
      - reflexivity.
      - unfold sufficientBufferRule. cbn [passed].
        unfold Thresholds.AFFORDABILITY_MINIMUM_POST_PURCHASE_BUFFER_MONTHS.
        by destruct (leb_reflect 1 (monthsOfBufferRemaining impact)). }
    assert (1 - (25 # 100) / (105 # 100) < 85 # 100) by reflexivity. lra.
  - destruct (ltb_reflect 0 (default (monthlyCashflow metrics) (newMonthlyCashflow impact)))
      as [L|L]; [done|]. exfalso.
    pose proof (score_capped metrics impact purchaseAmount
                  (positiveCashflowRule metrics impact purchaseAmount)) as Hcap.
    assert (weightedScore evaluation <= 1 - (20 # 100) / (105 # 100)) as Hle.
    { apply Hcap.
      - unfold ALL_RULES. cbn [map]. repeat constructor.
      - reflexivity.
      - unfold positiveCashflowRule. cbn [passed].
        by destruct (ltb_reflect 0 (default (monthlyCashflow metrics)
                                            (newMonthlyCashflow impact))). }
    assert (1 - (20 # 100) / (105 # 100) < 85 # 100) by reflexivity. lra.
Qed.

Lemma yes_is_low_risk :
  suggestedDecision evaluation = YES -> suggestedRiskLevel evaluation = LOW.
Proof.
  cbn [suggestedDecision suggestedRiskLevel evaluateAffordabilityRules].
  repeat match goal with
         | |- (if ?c then _ else _) = _ -> _ => destruct c
         end; intros; done.
Qed.

Lemma yes_score :
  suggestedDecision evaluation = YES -> 85 # 100 <= weightedScore evaluation.
Proof.
  cbn [suggestedDecision evaluateAffordabilityRules].
  match goal with
  | |- (if ?a <=? ?b then _ else _) = _ -> _ =>
    destruct (leb_reflect a b) as [L|L]; [done|]
  end.
  repeat match goal with
         | |- (if ?c then _ else _) = _ -> _ => destruct c
         end; discriminate.
Qed.

End Advice.

(** X19: a final decision of YES comes with a low risk level, a confidence
    equal to the weighted score and at least 0.85, a projected cash balance
    that is not negative, at least one month of buffer remaining, an
    emergency fund of at least two months, and a positive monthly cashflow
    after the purchase. *)
Theorem X19_yes_guarantees
        (profile : AffordTypes.UserFinancialProfile)
        (purchase : AffordTypes.PurchaseRequest)
        (result : AffordTypes.AffordabilityCalculation) :
  AffordCalculator.calculateAffordability profile purchase = Some result ->
  AffordTypes.ac_decision result = AffordTypes.YES ->
  AffordTypes.ac_riskLevel result = AffordTypes.LOW /\
  AffordTypes.ac_confidence result ==
    AffordTypes.weightedScore (AffordTypes.ac_ruleEvaluation result) /\
  85 # 100 <= AffordTypes.ac_confidence result /\
  0 <= AffordTypes.projectedCashBalance (AffordTypes.ac_impact result) /\
  1 <= AffordTypes.monthsOfBufferRemaining (AffordTypes.ac_impact result) /\
  2 <= AffordTypes.emergencyFundMonths (AffordTypes.ac_metrics result) /\
  0 < default (AffordTypes.monthlyCashflow (AffordTypes.ac_metrics result))
              (AffordTypes.newMonthlyCashflow (AffordTypes.ac_impact result)).
Proof.
  intros Hcalc Hyes.
  apply calculateAffordability_inv in Hcalc as (metrics & impact & _ & _ & ->).
  cbn [AffordTypes.ac_decision AffordTypes.ac_riskLevel AffordTypes.ac_confidence
       AffordTypes.ac_ruleEvaluation AffordTypes.ac_impact AffordTypes.ac_metrics] in *.
  set (evaluation := AffordRules.evaluateAffordabilityRules metrics impact
                       (AffordTypes.amount purchase)) in *.
  rewrite finalDecisionOf_spec in Hyes.
  destruct (ltb_reflect (AffordTypes.projectedCashBalance impact) 0) as [|Hproj];
    [discriminate|].
  destruct (ltb_reflect (AffordTypes.monthsOfBufferRemaining impact) (1 # 2)) as [|Hhalf];
    [discriminate|].
  destruct (AffordTypes.suggestedDecision evaluation) eqn:Hsug; try discriminate.
  destruct (ltb_reflect (AffordTypes.emergencyFundMonths metrics) 2) as [|Hef];
    [discriminate|].
  destruct (yes_needs_buffer metrics impact _ Hsug) as [Hbuf Hcash].
  pose proof (yes_score metrics impact _ Hsug) as Hscore. fold evaluation in Hscore.
  pose proof (score_range metrics impact (AffordTypes.amount purchase)) as Hrange.
  fold evaluation in Hrange.
  assert (AffordCalculator.confidenceOf impact evaluation
            (AffordCalculator.finalDecisionOf metrics impact evaluation)
          == AffordTypes.weightedScore evaluation) as Hconf.
  { unfold AffordCalculator.confidenceOf.
    destruct (ltb_reflect (AffordTypes.monthsOfBufferRemaining impact) 1) as [|_]; [lra|].
    simpl andb. cbv iota.
    rewrite Q.min_r by lra. rewrite Q.max_r by lra. reflexivity. }
  split; [by apply yes_is_low_risk|].
  split; [exact Hconf|]. split; [rewrite Hconf; exact Hscore|].
  split; [lra|]. split; [lra|]. split; [lra|]. exact Hcash.
Qed.

Lemma X19_yes_guarantees_witness :
  exists result,
    AffordCalculator.calculateAffordability Examples.healthyProfile Examples.smallPurchase
      = Some result /\
    AffordTypes.ac_decision result = AffordTypes.YES /\
    (AffordTypes.ac_riskLevel result = AffordTypes.LOW /\
     AffordTypes.ac_confidence result ==
       AffordTypes.weightedScore (AffordTypes.ac_ruleEvaluation result) /\
     85 # 100 <= AffordTypes.ac_confidence result /\
     0 <= AffordTypes.projectedCashBalance (AffordTypes.ac_impact result) /\
     1 <= AffordTypes.monthsOfBufferRemaining (AffordTypes.ac_impact result) /\
     2 <= AffordTypes.emergencyFundMonths (AffordTypes.ac_metrics result) /\
     0 < default (AffordTypes.monthlyCashflow (AffordTypes.ac_metrics result))
                 (AffordTypes.newMonthlyCashflow (AffordTypes.ac_impact result))).
Proof.
  assert (AffordTypes.ac_decision <$>
          AffordCalculator.calculateAffordability Examples.healthyProfile
                                                  Examples.smallPurchase
          = Some AffordTypes.YES) as H by (vm_compute; reflexivity).
  destruct (AffordCalculator.calculateAffordability Examples.healthyProfile
                                                    Examples.smallPurchase)
    as [result|] eqn:E; [|discriminate H].
  assert (AffordTypes.ac_decision result = AffordTypes.YES) as H2
    by (injection H as H; exact H).
  exists result.
  exact (conj eq_refl (conj H2
    (X19_yes_guarantees Examples.healthyProfile Examples.smallPurchase result E H2))).
Defined.

Section Recommendations.

Import AffordTypes AffordRules AffordCalculator.

Lemma failed_filter (l : list RuleResult) :
  filter (fun r => (negb (passed r) && (0 <? weight r)) = true) l =
  filter (fun r => passed r = false) (filter (fun r => (0 <? weight r) = true) l).
Proof.
  induction l as [|r l IH]; [done|].
  rewrite !filter_cons, IH.
  destruct (passed r) eqn:Hp, (0 <? weight r) eqn:Hw; simpl; rewrite ?filter_cons, ?Hp; done.
Qed.

Variables (metrics : AffordabilityMetrics) (impact : PurchaseImpact) (purchaseAmount : Q).

Local Abbreviation results :=
  (map (fun rule : RuleFunction => rule metrics impact purchaseAmount) ALL_RULES).
Local Abbreviation evaluation := (evaluateAffordabilityRules metrics impact purchaseAmount).

Lemma recommendations_length (explanation : RuleResult -> string) :
  length (getFailedRuleRecommendations explanation (rules evaluation)) =
  failCount evaluation.
Proof.
  unfold getFailedRuleRecommendations. rewrite length_map, failed_filter. reflexivity.
Qed.

Lemma failed_rule_counts (r : RuleResult) :
  r ∈ results -> 0 < weight r -> passed r = false -> failCount evaluation <> 0%nat.
Proof.
  intros Hr Hw Hp. cbn [failCount evaluateAffordabilityRules]. intros E.
  apply length_zero_iff_nil in E.
  assert (r ∈ filter (fun r => passed r = false)
                     (filter (fun r => (0 <? weight r) = true) results)) as Hin.
  { apply list_elem_of_filter. split; [done|]. apply list_elem_of_filter.
    split; [|done]. by destruct (ltb_reflect 0 (weight r)). }
  rewrite E in Hin. by apply elem_of_nil in Hin.
Qed.

(** Every way to a decision other than YES goes through a failed rule. *)
Lemma not_yes_fails :
  (projectedCashBalance impact <= 0 -> monthsOfBufferRemaining impact == 0) ->
  finalDecisionOf metrics impact evaluation <> YES ->
  failCount evaluation <> 0%nat.
Proof.
  intros Hzero Hno.
  assert (monthsOfBufferRemaining impact < 1 -> failCount evaluation <> 0%nat) as Hbuffer.
  { intros Hlt. apply (failed_rule_counts (sufficientBufferRule metrics impact purchaseAmount)).
    - unfold ALL_RULES. cbn [map]. repeat constructor.
    - reflexivity.
    - unfold sufficientBufferRule. cbn [passed].
      unfold Thresholds.AFFORDABILITY_MINIMUM_POST_PURCHASE_BUFFER_MONTHS.
      destruct (leb_reflect 1 (monthsOfBufferRemaining impact)); [lra|done]. }
  rewrite finalDecisionOf_spec in Hno.
  destruct (ltb_reflect (projectedCashBalance impact) 0) as [Hproj|_].
  { apply Hbuffer. rewrite Hzero; [reflexivity|lra]. }
  destruct (ltb_reflect (monthsOfBufferRemaining impact) (1 # 2)) as [Hhalf|_].
  { apply Hbuffer. lra. }
  destruct (suggestedDecision evaluation) eqn:Hsug.
  - destruct (ltb_reflect (emergencyFundMonths metrics) 2) as [Hef|_]; [|done].
    apply (failed_rule_counts (emergencyFundRule metrics impact purchaseAmount)).
    + unfold ALL_RULES. cbn [map]. repeat constructor.
    + reflexivity.
    + unfold emergencyFundRule. cbn [passed].
      unfold Thresholds.EMERGENCY_FUND_MINIMUM_MONTHS.
      destruct (leb_reflect 3 (emergencyFundMonths metrics)); [lra|done].
  - intros E. apply score_one_iff in E.
    rewrite suggestedDecision_threshold, (thresholdDecision_comp _ 1 E) in Hsug.
    discriminate.
  - intros E. apply score_one_iff in E.
    rewrite suggestedDecision_threshold, (thresholdDecision_comp _ 1 E) in Hsug.
    discriminate.
  - intros E. apply score_one_iff in E.
    rewrite suggestedDecision_threshold, (thresholdDecision_comp _ 1 E) in Hsug.
    discriminate.
Qed.

(** A failed rule is one of the seven that the [switch] names: the luxury
    rule never fails, so the [default] case is never taken. *)
Lemma recommendations_fixed (explanation explanation' : RuleResult -> string) :
  getFailedRuleRecommendations explanation (rules evaluation) =
  getFailedRuleRecommendations explanation' (rules evaluation).
Proof.
  unfold getFailedRuleRecommendations.
  cbn [rules evaluateAffordabilityRules].
  apply map_ext_in. intros r Hr.
  apply list_elem_of_In, list_elem_of_filter in Hr as [Hf Hr].
  unfold ALL_RULES in Hr. cbn [map] in Hr.
  repeat (apply elem_of_cons in Hr as [->|Hr]); try (by apply elem_of_nil in Hr).
  - reflexivity.
  - reflexivity.
  - reflexivity.
  - unfold creditUtilizationRule. by destruct (creditUtilizationChange impact).
  - reflexivity.
  - unfold purchaseSizeRule.
    match goal with
    | |- context [let '(_, _) := ?x in _] => by destruct x
    end.
  - reflexivity.
  - exfalso. revert Hf. unfold luxuryWhileInDebtRule.
    by destruct (debtToIncomeRatio metrics <=? Thresholds.DEBT_TO_INCOME_GOOD).
Qed.

End Recommendations.

(** X20: for every profile and purchase, the recommendations of the
    result are empty exactly when the decision is YES; for any other
    decision there is one recommendation per failed applicable rule
    ([failCount] of them, at least one), each a fixed sentence of
    [getFailedRuleRecommendations]: the fallback to the rule's own
    explanation is never taken. *)
Theorem X20_recommendations
        (explanation : AffordTypes.RuleResult -> string)
        (profile : AffordTypes.UserFinancialProfile)
        (purchase : AffordTypes.PurchaseRequest) :
  exists result recommendations alternatives,
    AffordCalculator.calculateAffordability profile purchase = Some result /\
    AffordCalculator.calculateAdvice explanation profile purchase =
      Some (recommendations, alternatives) /\
    (recommendations = [] <-> AffordTypes.ac_decision result = AffordTypes.YES) /\
    (AffordTypes.ac_decision result <> AffordTypes.YES ->
     length recommendations = AffordTypes.failCount (AffordTypes.ac_ruleEvaluation result)) /\
    (forall explanation',
        fst <$> AffordCalculator.calculateAdvice explanation' profile purchase =
        Some recommendations).
Proof.
  unfold AffordCalculator.calculateAffordability, AffordCalculator.calculateAdvice.
  destruct (calculateMetrics_total profile) as (metrics & -> & _).
  cbn [mbind option_bind].
  destruct (calculatePurchaseImpact_total metrics purchase profile)
    as (impact & -> & _ & _ & _ & _ & _ & Hzero).
  cbn [mbind option_bind].
  set (evaluation := AffordRules.evaluateAffordabilityRules metrics impact
                       (AffordTypes.amount purchase)).
  set (decision := AffordCalculator.finalDecisionOf metrics impact evaluation).
  eexists. eexists. eexists. split; [reflexivity|]. split; [reflexivity|].
  cbn [AffordTypes.ac_decision AffordTypes.ac_ruleEvaluation].
  assert (Hzero' : AffordTypes.projectedCashBalance impact <= 0 ->
                   AffordTypes.monthsOfBufferRemaining impact == 0) by exact Hzero.
  pose proof (not_yes_fails metrics impact (AffordTypes.amount purchase) Hzero') as Hfails.
  fold evaluation in Hfails. fold decision in Hfails.
  pose proof (recommendations_length metrics impact (AffordTypes.amount purchase)
                explanation) as Hlen.
  fold evaluation in Hlen.
  destruct (decide (decision = AffordTypes.YES)) as [E|N].
  - rewrite (bool_decide_eq_true_2 _ E). split; [done|]. split; [done|].
    intros explanation'. reflexivity.
  - rewrite (bool_decide_eq_false_2 _ N). split; [|split].
    + split; [|done]. intros Hnil. exfalso. apply (Hfails N).
      by rewrite <- Hlen, Hnil.
    + intros _. exact Hlen.
    + intros explanation'. simpl. f_equal. apply recommendations_fixed.
Qed.

Section Alternatives.

Import AffordTypes AffordRules AffordCalculator.

Variables (metrics : AffordabilityMetrics) (impact : PurchaseImpact)
          (purchase : PurchaseRequest).

(** The alternatives of a decision other than YES, before the cut to five:
    four optional entries and the closing one. *)
Lemma generateAlternatives_shape (decision : DecisionOutcome) :
  decision <> YES ->
  exists a1 a2 a3 a4 : list Alternative,
    generateAlternatives metrics impact purchase decision =
      a1 ++ a2 ++ a3 ++ a4 ++
      [ {| alt_strategy := "boost_income"; alt_savings := None; alt_timeline := None |} ] /\
    (a1 = [] \/
     0 < monthlyCashflow metrics /\
     (Qceiling (amount purchase / monthlyCashflow metrics) <= 12)%Z /\
     a1 = [ {| alt_strategy := "delay_and_save"; alt_savings := None;
               alt_timeline :=
                 Some (months (Qceiling (amount purchase / monthlyCashflow metrics))) |} ]) /\
    (a2 = [] \/
     amount purchase * (3 # 10) <=
       Qmin (liquidAssets metrics * (25 # 100)) (amount purchase * (5 # 10)) /\
     a2 = [ {| alt_strategy := "reduced_purchase";
               alt_savings :=
                 Some (amount purchase -
                       Qmin (liquidAssets metrics * (25 # 100)) (amount purchase * (5 # 10)));
               alt_timeline := None |} ]) /\
    (a3 = [] \/
     0 < totalDebt metrics /\
     a3 = [ {| alt_strategy := "debt_first"; alt_savings := None;
               alt_timeline :=
                 Some (if monthlyCashflow metrics =? 0 then notFinite
                       else months (Qceiling (Qmin (totalDebt metrics * (2 # 10))
                                                   (amount purchase)
                                              / monthlyCashflow metrics))) |} ]) /\
    (a4 = [] \/
     a4 = [ {| alt_strategy := "0%_financing"; alt_savings := None; alt_timeline := None |} ]).
Proof.
  intros Hno. unfold generateAlternatives.
  rewrite (bool_decide_eq_false_2 _ Hno).
  set (c1 := 0 <? monthlyCashflow metrics).
  set (n := Qceiling (amount purchase / monthlyCashflow metrics)).
  set (c2 := amount purchase * (3 # 10) <=?
             Qmin (liquidAssets metrics * (25 # 100)) (amount purchase * (5 # 10))).
  set (c3 := (0 <? totalDebt metrics) && bool_decide (is_Some (newDebtToIncomeRatio impact))).
  exists (if c1 then if (n <=? 12)%Z
                     then [ {| alt_strategy := "delay_and_save"; alt_savings := None;
                               alt_timeline := Some (months n) |} ]
                     else []
          else []).
  exists (if c2 then [ {| alt_strategy := "reduced_purchase";
                          alt_savings :=
                            Some (amount purchase -
                                  Qmin (liquidAssets metrics * (25 # 100))
                                       (amount purchase * (5 # 10)));
                          alt_timeline := None |} ]
          else []).
  exists (if c3 then [ {| alt_strategy := "debt_first"; alt_savings := None;
                          alt_timeline :=
                            Some (if monthlyCashflow metrics =? 0 then notFinite
                                  else months (Qceiling (Qmin (totalDebt metrics * (2 # 10))
                                                              (amount purchase)
                                                         / monthlyCashflow metrics))) |} ]
          else []).
  exists (match payment_method purchase with
          | pm_cash | pm_credit_card =>
            [ {| alt_strategy := "0%_financing"; alt_savings := None; alt_timeline := None |} ]
          | _ => []
          end).
  split; [|split; [|split; [|split]]].
  - destruct c1, (n <=? 12)%Z, c2, c3, (payment_method purchase); reflexivity.
  - unfold c1. destruct (ltb_reflect 0 (monthlyCashflow metrics)); [|by left].
    destruct (Z.leb_spec n 12); [right|by left]. done.
  - unfold c2. destruct (leb_reflect (amount purchase * (3 # 10))
      (Qmin (liquidAssets metrics * (25 # 100)) (amount purchase * (5 # 10))));
      [by right|by left].
  - unfold c3. destruct (ltb_reflect 0 (totalDebt metrics)); [|by left].
    destruct (bool_decide _); [by right|by left].
  - destruct (payment_method purchase); auto.
Qed.

End Alternatives.

(** X21: [generateAlternatives] returns no alternative exactly when the
    decision is YES; for any other decision it returns between one and
    five alternatives with pairwise different strategies, the last one
    being boost_income: the cut to five entries never drops one. *)
Theorem X21_alternatives_shape
        (metrics : AffordTypes.AffordabilityMetrics) (impact : AffordTypes.PurchaseImpact)
        (purchase : AffordTypes.PurchaseRequest) (decision : AffordTypes.DecisionOutcome) :
  let alternatives :=
    AffordCalculator.generateAlternatives metrics impact purchase decision in
  (alternatives = [] <-> decision = AffordTypes.YES) /\
  (length alternatives <= 5)%nat /\
  NoDup (map AffordCalculator.alt_strategy alternatives) /\
  (decision <> AffordTypes.YES ->
   last alternatives =
   Some {| AffordCalculator.alt_strategy := "boost_income";
           AffordCalculator.alt_savings := None;
           AffordCalculator.alt_timeline := None |}).
Proof.
  intros alternatives.
  destruct (decide (decision = AffordTypes.YES)) as [E|N].
  - assert (alternatives = []) as ->.
    { unfold alternatives, AffordCalculator.generateAlternatives.
      by rewrite (bool_decide_eq_true_2 _ E). }
    split; [done|]. split; [simpl; lia|]. split; [constructor|done].
  - destruct (generateAlternatives_shape metrics impact purchase decision N)
      as (a1 & a2 & a3 & a4 & E & H1 & H2 & H3 & H4).
    unfold alternatives. rewrite E. clear E alternatives.
    destruct H1 as [->|(_ & _ & ->)], H2 as [->|(_ & ->)], H3 as [->|(_ & ->)],
             H4 as [-> | ->];
      (split; [split; [discriminate|done]|]);
      (split; [simpl; lia|]);
      (split; [apply (bool_decide_unpack _); vm_compute; exact I|]);
      intros _; reflexivity.
Qed.

(** X22: of the alternatives offered for a purchase of a non-negative
    amount: delay_and_save appears only with a positive monthly cashflow
    and a timeline between 0 and 12 months; reduced_purchase saves between
    50% and 70% of the amount; and debt_first, whose timeline divides by
    the monthly cashflow without a guard, has a timeline that is not a
    finite number when the cashflow is zero and is not positive when the
    cashflow is negative. *)
Theorem X22_alternative_figures
        (metrics : AffordTypes.AffordabilityMetrics) (impact : AffordTypes.PurchaseImpact)
        (purchase : AffordTypes.PurchaseRequest) (decision : AffordTypes.DecisionOutcome)
        (a : AffordCalculator.Alternative) :
  0 <= AffordTypes.amount purchase ->
  a ∈ AffordCalculator.generateAlternatives metrics impact purchase decision ->
  (AffordCalculator.alt_strategy a = "delay_and_save" ->
   0 < AffordTypes.monthlyCashflow metrics /\
   exists n, AffordCalculator.alt_timeline a = Some (AffordCalculator.months n) /\
             (0 <= n <= 12)%Z) /\
  (AffordCalculator.alt_strategy a = "reduced_purchase" ->
   exists s, AffordCalculator.alt_savings a = Some s /\
             AffordTypes.amount purchase * (5 # 10) <= s <=
             AffordTypes.amount purchase * (7 # 10)) /\
  (AffordCalculator.alt_strategy a = "debt_first" ->
   (AffordTypes.monthlyCashflow metrics == 0 ->
    AffordCalculator.alt_timeline a = Some AffordCalculator.notFinite) /\
   (AffordTypes.monthlyCashflow metrics < 0 ->
    exists n, AffordCalculator.alt_timeline a = Some (AffordCalculator.months n) /\
              (n <= 0)%Z)).
Proof.
  intros Hamount Ha.
  destruct (decide (decision = AffordTypes.YES)) as [E|N].
  { unfold AffordCalculator.generateAlternatives in Ha.
    rewrite (bool_decide_eq_true_2 _ E) in Ha. by apply elem_of_nil in Ha. }
  destruct (generateAlternatives_shape metrics impact purchase decision N)
    as (a1 & a2 & a3 & a4 & E & H1 & H2 & H3 & H4).
  rewrite E in Ha. clear E.
  rewrite !elem_of_app in Ha.
  destruct Ha as [Ha|[Ha|[Ha|[Ha|Ha]]]].
  - destruct H1 as [->|(Hc & Hn & ->)]; [by apply elem_of_nil in Ha|].
    apply list_elem_of_singleton in Ha as ->. cbn.
    split; [|split; discriminate]. intros _. split; [done|].
    eexists. split; [reflexivity|]. split; [|done].
    assert (0 <= AffordTypes.amount purchase / AffordTypes.monthlyCashflow metrics) as Hq.
    { apply Qle_shift_div_l; [done|]. lra. }
    apply Qceiling_resp_le in Hq. exact Hq.
  - destruct H2 as [->|(Hc & ->)]; [by apply elem_of_nil in Ha|].
    apply list_elem_of_singleton in Ha as ->. cbn.
    split; [discriminate|]. split; [|discriminate]. intros _.
    eexists. split; [reflexivity|].
    pose proof (Q.le_min_r (AffordTypes.liquidAssets metrics * (25 # 100))
                           (AffordTypes.amount purchase * (5 # 10))).
    lra.
  - destruct H3 as [->|(Hd & ->)]; [by apply elem_of_nil in Ha|].
    apply list_elem_of_singleton in Ha as ->. cbn.
    split; [discriminate|]. split; [discriminate|]. intros _. split.
    + intros Hz. by destruct (eqb_reflect (AffordTypes.monthlyCashflow metrics) 0).
    + intros Hneg. destruct (eqb_reflect (AffordTypes.monthlyCashflow metrics) 0); [lra|].
      eexists. split; [reflexivity|].
      set (d := Qmin (AffordTypes.totalDebt metrics * (2 # 10)) (AffordTypes.amount purchase)).
      assert (0 <= d) as Hd0.
      { unfold d. destruct (Q.min_spec (AffordTypes.totalDebt metrics * (2 # 10))
                                       (AffordTypes.amount purchase)) as [[? ->]|[? ->]]; lra. }
      assert (d / AffordTypes.monthlyCashflow metrics <= 0) as Hq.
      { assert (d / AffordTypes.monthlyCashflow metrics ==
                - (d / - AffordTypes.monthlyCashflow metrics)) as -> by (field; lra).
        assert (0 <= d / - AffordTypes.monthlyCashflow metrics); [|lra].
        apply Qle_shift_div_l; lra. }
      apply Qceiling_resp_le in Hq. exact Hq.
  - destruct H4 as [->| ->]; [by apply elem_of_nil in Ha|].
    apply list_elem_of_singleton in Ha as ->. cbn.
    split; [discriminate|]. split; discriminate.
  - apply list_elem_of_singleton in Ha as ->. cbn.
    split; [discriminate|]. split; discriminate.
Qed.

Lemma X22_alternative_figures_witness :
  let a := {| AffordCalculator.alt_strategy := "reduced_purchase";
              AffordCalculator.alt_savings :=
                Some (3000 - Qmin (8000 * (25 # 100)) (3000 * (5 # 10)));
              AffordCalculator.alt_timeline := None |} in
  0 <= AffordTypes.amount Behaviour.cardPurchase3000 /\
  a ∈ AffordCalculator.generateAlternatives Behaviour.strainedMetrics
        Behaviour.strainedImpact Behaviour.cardPurchase3000 AffordTypes.CONDITIONAL /\
  ((AffordCalculator.alt_strategy a = "delay_and_save" ->
    0 < AffordTypes.monthlyCashflow Behaviour.strainedMetrics /\
    exists n, AffordCalculator.alt_timeline a = Some (AffordCalculator.months n) /\
              (0 <= n <= 12)%Z) /\
   (AffordCalculator.alt_strategy a = "reduced_purchase" ->
    exists s, AffordCalculator.alt_savings a = Some s /\
              AffordTypes.amount Behaviour.cardPurchase3000 * (5 # 10) <= s <=
              AffordTypes.amount Behaviour.cardPurchase3000 * (7 # 10)) /\
   (AffordCalculator.alt_strategy a = "debt_first" ->
    (AffordTypes.monthlyCashflow Behaviour.strainedMetrics == 0 ->
     AffordCalculator.alt_timeline a = Some AffordCalculator.notFinite) /\
    (AffordTypes.monthlyCashflow Behaviour.strainedMetrics < 0 ->
     exists n, AffordCalculator.alt_timeline a = Some (AffordCalculator.months n) /\
               (n <= 0)%Z))).
Proof.
  intros a.
  assert (0 <= AffordTypes.amount Behaviour.cardPurchase3000) as H1
    by (vm_compute; discriminate).
  assert (a ∈ AffordCalculator.generateAlternatives Behaviour.strainedMetrics
                Behaviour.strainedImpact Behaviour.cardPurchase3000 AffordTypes.CONDITIONAL)
    as H2.
  { vm_compute. right. left. }
  exact (conj H1 (conj H2
    (X22_alternative_figures Behaviour.strainedMetrics Behaviour.strainedImpact
       Behaviour.cardPurchase3000 AffordTypes.CONDITIONAL a H1 H2))).
Defined.

(** ** Removing duplicates: reason codes and [deduplicateBy] *)

Lemma dedupe_spec (codes : list string) :
  forall seen : list string,
    NoDup (AffordRules.dedupe seen codes) /\
    forall c, c ∈ AffordRules.dedupe seen codes <-> c ∈ codes /\ c ∉ seen.
Proof.
  induction codes as [|c0 codes IH]; intros seen; simpl.
  - split; [constructor|]. intros c. split; [by intros ?%elem_of_nil|].
    by intros [?%elem_of_nil _].
  - destruct (bool_decide_reflect (c0 ∈ seen)) as [Hin|Hnot].
    + destruct (IH seen) as [Hnd Hmem]. split; [done|].
      intros c. rewrite Hmem, elem_of_cons. split; [intros [? ?]; by auto|].
      intros [[->|?] ?]; [done|by split].
    + destruct (IH (c0 :: seen)) as [Hnd Hmem]. split.
      * constructor; [|done]. rewrite Hmem. intros [_ H]. apply H. left.
      * intros c. rewrite !elem_of_cons, Hmem, not_elem_of_cons. split.
        -- intros [->|(? & ? & ?)]; [by auto|by auto].
        -- intros [[->|?] ?]; [by left|].
           destruct (decide (c = c0)) as [->|?]; [by left|right; by auto].
Qed.

(** X23: the reason codes of a rule evaluation hold no code twice, and a
    code is among them exactly when some rule result carries it. *)
Theorem X23_reason_codes
        (metrics : AffordTypes.AffordabilityMetrics) (impact : AffordTypes.PurchaseImpact)
        (purchaseAmount : Q) :
  let evaluation := AffordRules.evaluateAffordabilityRules metrics impact purchaseAmount in
  NoDup (AffordTypes.allReasonCodes evaluation) /\
  forall c, c ∈ AffordTypes.allReasonCodes evaluation <->
            exists r, r ∈ AffordTypes.rules evaluation /\ c ∈ AffordTypes.reasonCodes r.
Proof.
  intros evaluation. unfold evaluation, AffordRules.evaluateAffordabilityRules.
  cbn [AffordTypes.allReasonCodes AffordTypes.rules].
  set (results := map _ AffordRules.ALL_RULES).
  destruct (dedupe_spec (flat_map AffordTypes.reasonCodes results) []) as [Hnd Hmem].
  split; [exact Hnd|]. intros c. rewrite Hmem, list_elem_of_In, in_flat_map. split.
  - intros [(r & Hr & Hc) _]. exists r. by rewrite !list_elem_of_In.
  - intros (r & Hr & Hc). split; [|apply not_elem_of_nil].
    exists r. by rewrite <- !list_elem_of_In.
Qed.

Lemma deduplicateLoop_spec {T : Type} (keyFn : T -> string) (array : list T) :
  forall seen : gset string,
    let kept := Validation.deduplicateLoop keyFn seen array in
    NoDup (map keyFn kept) /\
    kept `sublist_of` array /\
    (forall x, x ∈ kept -> keyFn x ∉ seen) /\
    (forall x, x ∈ array -> keyFn x ∈ seen \/ keyFn x ∈ map keyFn kept).
Proof.
  induction array as [|item rest IH]; intros seen; simpl.
  - split; [constructor|]. split; [constructor|].
    split; intros x Hx; by apply elem_of_nil in Hx.
  - destruct (bool_decide_reflect (keyFn item ∈ seen)) as [Hin|Hnot].
    + destruct (IH seen) as (Hnd & Hsub & Hfresh & Hcover).
      split; [done|]. split; [by apply sublist_cons|]. split; [done|].
      intros x [->|Hx]%elem_of_cons; [by left|by apply Hcover].
    + destruct (IH ({[keyFn item]} ∪ seen)) as (Hnd & Hsub & Hfresh & Hcover).
      split; [|split; [|split]].
      * simpl. constructor; [|done].
        intros (x & Hk & Hx)%list_elem_of_fmap_1. apply (Hfresh x Hx).
        rewrite <- Hk. by apply elem_of_union_l, elem_of_singleton.
      * by apply sublist_skip.
      * intros x [->|Hx]%elem_of_cons; [done|]. specialize (Hfresh x Hx).
        intros H. by apply Hfresh, elem_of_union_r.
      * intros x [->|Hx]%elem_of_cons; [right; simpl; left|].
        destruct (Hcover x Hx) as [H|H]; [|right; simpl; by right].
        apply elem_of_union in H as [H|H]; [|by left].
        apply elem_of_singleton in H. right. simpl. rewrite H. left.
Qed.

(** X24: [deduplicateBy] returns a sub-sequence of its input (order kept,
    nothing added) in which no key occurs twice and every key of the input
    still occurs; the first element of the input is always kept. *)
Theorem X24_deduplicateBy
        {T : Type} (array : list T) (keyFn : T -> string) :
  let kept := Validation.deduplicateBy array keyFn in
  NoDup (map keyFn kept) /\
  kept `sublist_of` array /\
  (forall x, x ∈ array -> keyFn x ∈ map keyFn kept) /\
  head kept = head array.
Proof.
  intros kept. unfold kept, Validation.deduplicateBy.
  destruct (deduplicateLoop_spec keyFn array ∅) as (Hnd & Hsub & _ & Hcover).
  split; [done|]. split; [done|]. split.
  - intros x Hx. destruct (Hcover x Hx) as [H|H]; [|done]. by apply elem_of_empty in H.
  - destruct array as [|item rest]; [done|]. simpl.
    by rewrite bool_decide_eq_false_2 by apply not_elem_of_empty.
Qed.

(** ** utils/money.ts: conversions and roundings *)

(** X25: converting a whole number of cents to dollars and back returns
    the same number of cents; converting dollars to cents and back is
    exactly the display rounding, which moves an amount by at most half a
    cent and leaves an amount it has already rounded unchanged. *)
Theorem X25_cents_round_trip (cents : Z) (dollars : Q) :
  Money.dollarsToCents (Money.centsToDollars (inject_Z cents)) = cents /\
  Money.centsToDollars (inject_Z (Money.dollarsToCents dollars)) ==
    Money.toDisplayDollars dollars /\
  Money.toDisplayDollars (Money.toDisplayDollars dollars) = Money.toDisplayDollars dollars /\
  dollars - (1 # 200) <= Money.toDisplayDollars dollars <= dollars + (1 # 200).
Proof.
  split; [|split; [|split]].
  - unfold Money.dollarsToCents, Money.centsToDollars.
    destruct (0 <=? inject_Z cents / 100).
    + assert (inject_Z cents / 100 * 100 + (1 # 2) == inject_Z cents + (1 # 2)) as ->
        by field.
      apply Qfloor_half.
    + assert (- (inject_Z cents / 100) * 100 + (1 # 2) == inject_Z (- cents) + (1 # 2)) as ->
        by (rewrite inject_Z_opp; field).
      rewrite Qfloor_half. lia.
  - unfold Money.dollarsToCents, Money.centsToDollars, Money.toDisplayDollars.
    destruct (0 <=? dollars); rewrite Qred_correct; [reflexivity|].
    rewrite inject_Z_opp. field.
  - apply toDisplayDollars_idem.
  - apply toDisplayDollars_bounds.
Qed.

Lemma Qceiling_floor (y : Q) : (Qfloor y <= Qceiling y <= Qfloor y + 1)%Z.
Proof.
  pose proof (Qfloor_le y) as H1. pose proof (Qle_ceiling y) as H2.
  pose proof (Qlt_floor y) as H3. pose proof (Qceiling_lt y) as H4.
  rewrite inject_Z_plus in H3. change (inject_Z 1) with 1 in H3.
  unfold Z.sub in H4. rewrite inject_Z_plus, inject_Z_opp in H4.
  change (inject_Z 1) with 1 in H4.
  split.
  - apply Znot_gt_le. intros C.
    assert (Qceiling y + 1 <= Qfloor y)%Z as C' by lia.
    rewrite Zle_Qle, inject_Z_plus in C'. change (inject_Z 1) with 1 in C'. lra.
  - apply Znot_gt_le. intros C.
    assert (Qfloor y + 2 <= Qceiling y)%Z as C' by lia.
    rewrite Zle_Qle, inject_Z_plus in C'. change (inject_Z 2) with 2 in C'. lra.
Qed.

(** The roundings of a magnitude: down, up and to the nearest cent. *)
Lemma magnitude_brackets (x : Q) :
  0 <= x ->
  let down := inject_Z (Qfloor (x * 100)) / 100 in
  let up := inject_Z (Qceiling (x * 100)) / 100 in
  0 <= down /\ down <= x /\ x <= up /\ up - down <= 1 # 100.
Proof.
  intros Hx down up. unfold down, up.
  pose proof (Qfloor_le (x * 100)) as H1. pose proof (Qle_ceiling (x * 100)) as H2.
  destruct (Qceiling_floor (x * 100)) as [H3 H4].
  rewrite Zle_Qle in H4. rewrite inject_Z_plus in H4. change (inject_Z 1) with 1 in H4.
  assert (0 <= inject_Z (Qfloor (x * 100))) as H0.
  { change 0 with (inject_Z 0). rewrite <- Zle_Qle.
    rewrite <- (Qfloor_Z 0). apply Qfloor_resp_le. change (inject_Z 0) with 0. lra. }
  set (f := inject_Z (Qfloor (x * 100))) in *.
  set (c := inject_Z (Qceiling (x * 100))) in *.
  assert (f / 100 == f * (1 # 100)) as -> by field.
  assert (c / 100 == c * (1 # 100)) as -> by field.
  lra.
Qed.

Lemma roundMagnitude_comp (mode : Money.Rounding) (x y : Q) :
  x == y -> Money.roundMagnitude mode x = Money.roundMagnitude mode y.
Proof.
  intros E. destruct mode; unfold Money.roundMagnitude.
  - by apply Qceiling_comp.
  - by apply Qfloor_comp.
  - apply Qfloor_comp. by rewrite E.
Qed.

Lemma toDecimalPlaces2_opp (mode : Money.Rounding) (x : Q) :
  Money.toDecimalPlaces2 mode (- x) == - Money.toDecimalPlaces2 mode x.
Proof.
  unfold Money.toDecimalPlaces2.
  destruct (leb_reflect 0 x) as [Hx|Hx]; destruct (leb_reflect 0 (- x)) as [Hn|Hn];
    rewrite !Qred_correct.
  - assert (x == 0) as E by lra.
    rewrite (roundMagnitude_comp mode (- x * 100) 0) by (rewrite E; reflexivity).
    rewrite (roundMagnitude_comp mode (x * 100) 0) by (rewrite E; reflexivity).
    destruct mode; reflexivity.
  - rewrite (roundMagnitude_comp mode (- - x * 100) (x * 100)) by ring. reflexivity.
  - ring.
  - lra.
Qed.

(** X26: [floor] and [ceil] round the magnitude of an amount, not its
    value: for every amount, [floor] is no larger in magnitude and [ceil]
    no smaller, the two differ by at most one cent, both change sign with
    the amount (so [floor] of a negative amount lies above it), and
    [round] is the display rounding. *)
Theorem X26_floor_ceil_magnitude (amount : Q) :
  Qabs (Money.floor amount) <= Qabs amount <= Qabs (Money.ceil amount) /\
  Qabs (Money.ceil amount) - Qabs (Money.floor amount) <= 1 # 100 /\
  Money.floor (- amount) == - Money.floor amount /\
  Money.ceil (- amount) == - Money.ceil amount /\
  Money.round amount = Money.toDisplayDollars amount.
Proof.
  assert (forall x, 0 <= x ->
            Qabs (Money.floor x) <= Qabs x <= Qabs (Money.ceil x) /\
            Qabs (Money.ceil x) - Qabs (Money.floor x) <= 1 # 100) as Hpos.
  { intros x Hx. destruct (magnitude_brackets x Hx) as (H0 & H1 & H2 & H3).
    unfold Money.floor, Money.ceil, Money.toDecimalPlaces2, Money.roundMagnitude.
    destruct (leb_reflect 0 x) as [_|N]; [|lra].
    rewrite !Qred_correct.
    rewrite !Qabs_pos by lra. lra. }
  split; [|split; [|split; [|split]]].
  - destruct (Qlt_le_dec amount 0) as [Hn|Hp]; [|by apply Hpos].
    destruct (Hpos (- amount)) as [H _]; [lra|].
    unfold Money.floor, Money.ceil in *.
    rewrite !toDecimalPlaces2_opp, !Qabs_opp in H. exact H.
  - destruct (Qlt_le_dec amount 0) as [Hn|Hp]; [|by apply Hpos].
    destruct (Hpos (- amount)) as [_ H]; [lra|].
    unfold Money.floor, Money.ceil in *.
    rewrite !toDecimalPlaces2_opp, !Qabs_opp in H. exact H.
  - apply toDecimalPlaces2_opp.
  - apply toDecimalPlaces2_opp.
  - reflexivity.
Qed.



(** ** utils/validation.ts *)

Lemma roundCents_eq_of_Qeq (x y : Q) :
  Num.roundCents x == Num.roundCents y -> Num.roundCents x = Num.roundCents y.
Proof.
  unfold Num.roundCents. intros E. rewrite !Qred_correct in E. by apply Qred_complete.
Qed.

Lemma sanitizeMoney_idem (amount maxAmount : Q) :
  Validation.sanitizeMoney (Validation.sanitizeMoney amount maxAmount) maxAmount =
  Validation.sanitizeMoney amount maxAmount.
Proof.
  unfold Validation.sanitizeMoney.
  set (c := Qmin (Qmax 0 amount) maxAmount).
  set (s := Num.roundCents c).
  apply roundCents_eq_of_Qeq. fold s.
  pose proof (Q.le_max_l 0 amount) as Hm.
  pose proof (Q.le_max_l 0 s) as Hs.
  destruct (Qlt_le_dec maxAmount 0) as [Hneg|Hpos].
  - assert (c == maxAmount) as Ec by (unfold c; apply Q.min_r; lra).
    assert (Qmin (Qmax 0 s) maxAmount == maxAmount) as -> by (apply Q.min_r; lra).
    unfold s. by rewrite Ec.
  - assert (0 <= c) as Hc.
    { unfold c. destruct (Q.min_spec (Qmax 0 amount) maxAmount) as [[? ->]|[? ->]]; lra. }
    assert (c <= maxAmount) as HcM by apply Q.le_min_r.
    pose proof (roundCents_nonneg c Hc) as Hs0. fold s in Hs0.
    assert (Qmax 0 s == s) as -> by (apply Q.max_r; lra).
    destruct (Qlt_le_dec maxAmount s) as [Hgt|Hle].
    + assert (Qmin s maxAmount == maxAmount) as -> by (apply Q.min_r; lra).
      pose proof (roundCents_mono c maxAmount HcM) as H1. fold s in H1.
      pose proof (roundCents_mono maxAmount s (Qlt_le_weak _ _ Hgt)) as H2.
      unfold s in H2. rewrite roundCents_idem in H2. fold s in H2. lra.
    + assert (Qmin s maxAmount == s) as -> by (apply Q.min_l; lra).
      unfold s. by rewrite roundCents_idem.
Qed.

(** X28: [sanitizeMoney] returns a whole number of cents and is
    idempotent for every cap; with the default cap the result lies between
    zero and the cap.  [sanitizePercentage] returns a value between 0 and
    100 and is idempotent. *)
Theorem X28_sanitize (amount maxAmount percentage : Q) :
  let sanitized := Validation.sanitizeMoney amount maxAmount in
  Num.roundCents sanitized = sanitized /\
  Validation.sanitizeMoney sanitized maxAmount = sanitized /\
  0 <= Validation.sanitizeMoney amount Validation.MAX_PURCHASE_AMOUNT
    <= Validation.MAX_PURCHASE_AMOUNT /\
  0 <= Validation.sanitizePercentage percentage <= 100 /\
  Validation.sanitizePercentage (Validation.sanitizePercentage percentage) =
    Validation.sanitizePercentage percentage.
Proof.
  intros sanitized. split; [apply roundCents_idem|]. split; [apply sanitizeMoney_idem|].
  assert (forall lo hi x : Q, lo <= hi -> lo <= Qmax lo (Qmin hi x) <= hi) as Hclamp.
  { intros lo hi x H.
    destruct (Q.min_spec hi x) as [[? ->]|[? ->]];
      destruct (Q.max_spec lo hi) as [[? E1]|[? E1]];
      destruct (Q.max_spec lo x) as [[? E2]|[? E2]]; rewrite ?E1, ?E2; lra. }
  split; [|split].
  - unfold Validation.sanitizeMoney, Validation.MAX_PURCHASE_AMOUNT.
    set (c := Qmin (Qmax 0 amount) 10000000).
    assert (0 <= c <= 10000000) as [H0 H1].
    { unfold c. pose proof (Q.le_max_l 0 amount).
      destruct (Q.min_spec (Qmax 0 amount) 10000000) as [[? ->]|[? ->]]; lra. }
    split; [by apply roundCents_nonneg|].
    apply (roundCents_mono c 10000000) in H1.
    assert (Num.roundCents 10000000 == 10000000) as E by reflexivity. lra.
  - unfold Validation.sanitizePercentage.
    destruct (Hclamp 0 100 percentage) as [H0 H1]; [lra|].
    split; [by apply roundCents_nonneg|].
    apply roundCents_mono in H1.
    assert (Num.roundCents 100 == 100) as E by reflexivity. lra.
  - unfold Validation.sanitizePercentage.
    set (s := Num.roundCents (Qmax 0 (Qmin 100 percentage))).
    assert (0 <= s <= 100) as [H0 H1].
    { unfold s. destruct (Hclamp 0 100 percentage) as [H0 H1]; [lra|].
      split; [by apply roundCents_nonneg|].
      apply roundCents_mono in H1.
      assert (Num.roundCents 100 == 100) as E by reflexivity. lra. }
    assert (Qmax 0 (Qmin 100 s) == s) as E.
    { rewrite (Q.min_r 100 s) by lra. apply Q.max_r. lra. }
    rewrite (roundCents_comp _ _ E). unfold s. apply roundCents_idem.
Qed.

Section Consistency.

Import AffordTypes Validation.

Lemma minimum_check (d : DebtAccount) :
  (truthy (da_minimum_payment d) &&
   (da_balance d <? default 0 (da_minimum_payment d))) = false <->
  forall m, da_minimum_payment d = Some m -> ~ m == 0 -> m <= da_balance d.
Proof.
  unfold truthy. destruct (da_minimum_payment d) as [m|]; simpl.
  - split.
    + intros H m' [= <-] Hnz. destruct (eqb_reflect m 0); [done|]. simpl in H.
      destruct (ltb_reflect (da_balance d) m); [discriminate|lra].
    + intros H. destruct (eqb_reflect m 0) as [|Hnz]; [done|]. simpl.
      destruct (ltb_reflect (da_balance d) m); [|done].
      specialize (H m eq_refl Hnz). lra.
  - split; [by intros _ m [=]|done].
Qed.

Lemma limit_check (d : DebtAccount) :
  (match da_type d with credit_card => true | _ => false end &&
   truthy (da_credit_limit d) &&
   (default 0 (da_credit_limit d) <? da_balance d)) = false <->
  (da_type d = credit_card ->
   forall l, da_credit_limit d = Some l -> ~ l == 0 -> da_balance d <= l).
Proof.
  unfold truthy. destruct (da_type d); simpl; try (split; [by intros _ [=]|done]).
  destruct (da_credit_limit d) as [l|]; simpl.
  - split.
    + intros H _ l' [= <-] Hnz. destruct (eqb_reflect l 0); [done|]. simpl in H.
      destruct (ltb_reflect l (da_balance d)); [discriminate|lra].
    + intros H. destruct (eqb_reflect l 0) as [|Hnz]; [done|]. simpl.
      destruct (ltb_reflect l (da_balance d)); [|done].
      specialize (H eq_refl l eq_refl Hnz). lra.
  - split; [by intros _ _ l [=]|done].
Qed.

Lemma validateDebtAccount_nil (d : DebtAccount) :
  validateDebtAccount d = [] <-> Behaviour.debtConsistent d.
Proof.
  unfold Behaviour.debtConsistent. rewrite <- minimum_check, <- limit_check.
  unfold validateDebtAccount.
  destruct (truthy (da_minimum_payment d) && _), (_ && _ && _); simpl;
    split; try done; by intros [? ?].
Qed.

Lemma validateDebtAccount_codes (d : DebtAccount) :
  (length (validateDebtAccount d) <= 2)%nat /\
  Forall (fun e => code e = "invalid_minimum_payment" \/ code e = "invalid_credit_limit")
         (validateDebtAccount d).
Proof.
  unfold validateDebtAccount.
  destruct (truthy (da_minimum_payment d) && _), (_ && _ && _); simpl;
    (split; [lia|]); repeat (constructor; [simpl; auto|]); constructor.
Qed.

(** The per-debt errors, relabelled with the position of the debt. *)
Lemma debtErrors_spec (l : list DebtAccount) :
  forall relabel : nat -> ValidationError -> ValidationError,
    (forall i e, code (relabel i e) = code e) ->
    let errors := concat (imap (fun index debt => map (relabel index) (validateDebtAccount debt))
                               l) in
    (errors = [] <-> Forall (fun d => validateDebtAccount d = []) l) /\
    (length errors <= 2 * length l)%nat /\
    Forall (fun e => code e = "invalid_minimum_payment" \/ code e = "invalid_credit_limit")
           errors.
Proof.
  induction l as [|d l IH]; intros relabel Hcode; simpl.
  - split; [split; [constructor|done]|]. split; [lia|constructor].
  - change (imap ((fun index debt => map (relabel index) (validateDebtAccount debt)) ∘ S) l)
      with (imap (fun index debt => map ((relabel ∘ S) index) (validateDebtAccount debt)) l).
    destruct (IH (relabel ∘ S)) as (IH1 & IH2 & IH3); [intros i e; apply Hcode|].
    destruct (validateDebtAccount_codes d) as [Hlen Hcodes].
    split; [|split].
    + split.
      * intros [H1 H2]%app_eq_nil. constructor.
        -- by destruct (validateDebtAccount d).
        -- by apply IH1.
      * intros [H1 H2]%Forall_cons. rewrite H1. simpl. by apply IH1.
    + rewrite length_app, length_map. lia.
    + apply Forall_app. split; [|exact IH3].
      apply Forall_fmap. eapply Forall_impl; [exact Hcodes|].
      intros e He. simpl. by rewrite Hcode.
Qed.

End Consistency.


(** ** utils/idempotency.ts *)

(** X30: after a response has been stored under a non-empty key, a lookup
    of that key within the time to live replays the stored status and
    payload when the request body hashes as the stored one did, and
    reports a conflict when it does not, leaving the cache as it is; a
    lookup after the time to live finds nothing and removes the entry, so
    that every later lookup of the key finds nothing either; and lookups
    of other keys are not affected by the store. *)
Theorem X30_idempotent_replay
        {Body Payload : Type} (hashBody : Body -> string)
        (now later : Z) (cache : gmap string (Idempotency.CachedResponse (Payload := Payload)))
        (key : string) (body body' : Body) (statusCode : Z) (payload : Payload) :
  key <> EmptyString ->
  let stored :=
    Idempotency.storeIdempotentResponse hashBody now cache (Some key) body
                                        statusCode payload in
  ((later <= now + Idempotency.IDEMPOTENCY_TTL_MS)%Z ->
   Idempotency.getIdempotentResponse hashBody later stored (Some key) body' =
   (if bool_decide (hashBody body' = hashBody body)
    then Idempotency.replay statusCode payload
    else Idempotency.conflict,
    stored)) /\
  ((now + Idempotency.IDEMPOTENCY_TTL_MS < later)%Z ->
   Idempotency.getIdempotentResponse hashBody later stored (Some key) body' =
     (Idempotency.null, delete key stored) /\
   forall time request,
     fst (Idempotency.getIdempotentResponse hashBody time (delete key stored)
                                            (Some key) request) = Idempotency.null) /\
  (forall other time request,
      other <> key ->
      fst (Idempotency.getIdempotentResponse hashBody time stored (Some other) request) =
      fst (Idempotency.getIdempotentResponse hashBody time cache (Some other) request)).
Proof.
  intros Hkey stored.
  assert (Idempotency.noKey (Some key) = false) as Hno.
  { simpl. by apply bool_decide_eq_false_2. }
  assert (stored =
          <[key := {| Idempotency.bodyHash := hashBody body;
                      Idempotency.payload := payload;
                      Idempotency.statusCode := statusCode;
                      Idempotency.expiresAt := (now + Idempotency.IDEMPOTENCY_TTL_MS)%Z |}]>
            cache) as Hstored.
  { unfold stored, Idempotency.storeIdempotentResponse. by rewrite Hno. }
  split; [|split].
  - intros Hin. unfold Idempotency.getIdempotentResponse. rewrite Hno. simpl default.
    rewrite Hstored at 1. rewrite lookup_insert_eq. cbn.
    destruct (Z.ltb_spec (now + Idempotency.IDEMPOTENCY_TTL_MS) later) as [|_]; [lia|].
    destruct (bool_decide_reflect (hashBody body' = hashBody body)) as [E|N].
    + rewrite bool_decide_eq_true_2 by done. reflexivity.
    + rewrite bool_decide_eq_false_2 by (intros E; by apply N). reflexivity.
  - intros Hout. split.
    + unfold Idempotency.getIdempotentResponse. rewrite Hno. simpl default.
      rewrite Hstored at 1. rewrite lookup_insert_eq. cbn.
      destruct (Z.ltb_spec (now + Idempotency.IDEMPOTENCY_TTL_MS) later) as [_|]; [done|lia].
    + intros time request. unfold Idempotency.getIdempotentResponse.
      rewrite Hno. simpl default. by rewrite lookup_delete_eq.
  - intros other time request Hother. unfold Idempotency.getIdempotentResponse.
    destruct (Idempotency.noKey (Some other)); [done|]. simpl default.
    rewrite Hstored, lookup_insert_ne by done.
    destruct (cache !! other) as [cached|]; [|done].
    destruct (_ <? _)%Z; [done|]. by destruct (negb _).
Qed.

Lemma X30_idempotent_replay_witness :
  "order-17" <> EmptyString /\
  (let stored :=
     Idempotency.storeIdempotentResponse (fun body : string => body) 1000 ∅
       (Some "order-17") "body" 200 "payload" in
   ((700000 <= 1000 + Idempotency.IDEMPOTENCY_TTL_MS)%Z ->
    Idempotency.getIdempotentResponse (fun body : string => body) 700000 stored
                                      (Some "order-17") "other body" =
    (if bool_decide ("other body" = "body")
     then Idempotency.replay 200 "payload"
     else Idempotency.conflict,
     stored)) /\
   ((1000 + Idempotency.IDEMPOTENCY_TTL_MS < 700000)%Z ->
    Idempotency.getIdempotentResponse (fun body : string => body) 700000 stored
                                      (Some "order-17") "other body" =
      (Idempotency.null, delete "order-17" stored) /\
    forall time request,
      fst (Idempotency.getIdempotentResponse (fun body : string => body) time
             (delete "order-17" stored) (Some "order-17") request) = Idempotency.null) /\
   (forall other time request,
       other <> "order-17" ->
       fst (Idempotency.getIdempotentResponse (fun body : string => body) time stored
                                              (Some other) request) =
       fst (Idempotency.getIdempotentResponse (fun body : string => body) time ∅
                                              (Some other) request))).
Proof.
  assert ("order-17" <> EmptyString) as H by discriminate.
  exact (conj H (X30_idempotent_replay (fun body : string => body) 1000 700000 ∅
                   "order-17" "body" "other body" 200 "payload" H)).
Defined.
